(** * Connection-pool manager, token utilities and tool dispatch of the
      PostgreSQL MCP gateway

    A shallow embedding of
      - [guMCP/src/servers/pg/database.py] and [server/database.py]
        (class [Database]),
      - [guMCP/src/auth/jwt_utils.py] (class [JWTUtils]),
      - [guMCP/src/servers/remote.py] ([JWTMiddleware.dispatch]),
      - [guMCP/src/servers/pg/main.py] ([execute_query], [handle_call_tool]),
    together with the statements about them that the specification makes. *)

From Stdlib Require Import ZArith List String Ascii Bool Lia DecimalString.
From stdpp Require Import base option list gmap strings sorting.

#[local] Set Warnings "-register-all".

Local Open Scope Z_scope.
Local Open Scope string_scope.

(** ** Python values used by the gateway *)

(** Python [str] values are modelled by [string]; a character stands for the
    code point of the same number (0..255).  The characters that need a
    spelling of their own: *)
Definition dquote : string := String (ascii_of_nat 34) EmptyString.
Definition backslash : string := String (ascii_of_nat 92) EmptyString.

(** [sep.join(parts)] *)
Fixpoint join (sep : string) (parts : list string) : string :=
  match parts with
  | [] => EmptyString
  | [p] => p
  | p :: rest => p ++ sep ++ join sep rest
  end.

(** The values [json.loads] produces (floats left out: the configuration
    documents and token payloads modelled here carry none). A [dict] keeps
    its items in insertion order. *)
Inductive json : Type :=
| JNull
| JBool (b : bool)
| JInt (n : Z)
| JStr (s : string)
| JList (xs : list json)
| JDict (items : list (string * json)).

(** lower-case hexadecimal digits, for the [\u00e9] and [\xe9] escapes *)
Definition hex_digit (n : N) : ascii :=
  ascii_of_N (if (n <? 10)%N then 48 + n else 87 + n)%N.

Fixpoint is_prefix (p s : string) : bool :=
  match p, s with
  | EmptyString, _ => true
  | String a p', String b s' => Ascii.eqb a b && is_prefix p' s'
  | String _ _, EmptyString => false
  end.

(** [p in s] on two [str] *)
Fixpoint is_substring (p s : string) : bool :=
  is_prefix p s ||
  match s with
  | EmptyString => false
  | String _ s' => is_substring p s'
  end.

Definition hex2 (n : N) : string :=
  String (hex_digit (n / 16)) (String (hex_digit (n mod 16)) EmptyString).

(** [repr(s)] of a [str] *)
Definition repr_char (quote : ascii) (c : ascii) : string :=
  let n := N_of_ascii c in
  if Ascii.eqb c quote || (n =? 92)%N then backslash ++ String c EmptyString
  else if (n =? 9)%N then backslash ++ "t"
  else if (n =? 10)%N then backslash ++ "n"
  else if (n =? 13)%N then backslash ++ "r"
  else if ((n <? 32) || (n =? 127) || ((127 <? n) && (n <=? 160)) || (n =? 173))%N
  then backslash ++ "x" ++ hex2 n
  else String c EmptyString.

Fixpoint repr_chars (quote : ascii) (s : string) : string :=
  match s with
  | EmptyString => EmptyString
  | String c rest => repr_char quote c ++ repr_chars quote rest
  end.

Definition repr_str (s : string) : string :=
  let quote :=
    if is_substring "'" s && negb (is_substring dquote s)
    then ascii_of_nat 34 else ascii_of_nat 39 in
  String quote (repr_chars quote s ++ String quote EmptyString).

(** Exceptions raised by the modelled code, with their [str(e)]. *)
Inductive exn : Type :=
| ValueError (msg : string)
| KeyError (key : option string)
| TypeError (msg : string)
| OSError (msg : string)
| InterfaceError (msg : string)
| PostgresError (msg : string)
| JSONDecodeError (msg : string).

Definition exn_str (e : exn) : string :=
  match e with
  | ValueError m | TypeError m | OSError m | InterfaceError m
  | PostgresError m | JSONDecodeError m => m
  | KeyError (Some k) => repr_str k
  | KeyError None => "None"
  end.

(** Truthiness of an [Optional[str]]: [None] and the empty string are falsy. *)
Definition truthy (v : option string) : bool :=
  match v with
  | None => false
  | Some s => negb (String.eqb s EmptyString)
  end.

(** [f"{v}"] for an [Optional[str]]. *)
Definition fmt (v : option string) : string :=
  match v with
  | None => "None"
  | Some s => s
  end.

(** ** [json.dumps(content, sort_keys=True)] *)

(** [ESCAPE_DCT] and the [\uXXXX] fallback of [py_encode_basestring_ascii]:
    everything outside [' '..'~'] is escaped, as are the quote and the
    backslash. *)
Definition escape_char (c : ascii) : string :=
  let n := N_of_ascii c in
  if (n =? 34)%N then backslash ++ dquote
  else if (n =? 92)%N then backslash ++ backslash
  else if (n =? 10)%N then backslash ++ "n"
  else if (n =? 13)%N then backslash ++ "r"
  else if (n =? 9)%N then backslash ++ "t"
  else if (n =? 12)%N then backslash ++ "f"
  else if (n =? 8)%N then backslash ++ "b"
  else if ((n <? 32) || (126 <? n))%N then
    backslash ++ "u00" ++ String (hex_digit (n / 16)) (String (hex_digit (n mod 16)) EmptyString)
  else String c EmptyString.

Fixpoint escape_chars (s : string) : string :=
  match s with
  | EmptyString => EmptyString
  | String c rest => escape_char c ++ escape_chars rest
  end.

Definition encode_basestring_ascii (s : string) : string :=
  dquote ++ escape_chars s ++ dquote.

Definition int_repr (n : Z) : string := NilZero.string_of_int (Z.to_int n).

(** [sorted(dct.items())]: a stable sort on the keys (the keys of a [dict]
    are distinct, so the values are never compared). *)
Fixpoint insert_item {V} (p : string * V) (l : list (string * V)) : list (string * V) :=
  match l with
  | [] => [p]
  | q :: rest =>
      if String.leb (fst p) (fst q) then p :: l else q :: insert_item p rest
  end.

Definition sorted_items {V} (l : list (string * V)) : list (string * V) :=
  foldr insert_item [] l.

Definition render_item (p : string * string) : string :=
  encode_basestring_ascii (fst p) ++ ": " ++ snd p.

Definition newline : string := String (ascii_of_nat 10) EmptyString.

Fixpoint spaces (n : nat) : string :=
  match n with
  | O => EmptyString
  | S k => String (ascii_of_nat 32) (spaces k)
  end.

(** ['\n' + indent * level] when an indent is given, nothing otherwise *)
Definition newline_indent (indent : option nat) (level : nat) : string :=
  match indent with
  | Some n => newline ++ spaces (n * level)
  | None => EmptyString
  end.

(** the default separators: [', '] between items, [','] under an indent *)
Definition item_separator (indent : option nat) : string :=
  match indent with
  | Some _ => ","
  | None => ", "
  end.

(** [json.dumps(obj, sort_keys=.., indent=..)]. The encoder walks the items
    (sorted when asked) and renders each value; sorting looks at keys only,
    so the values are rendered first here and the rendered items sorted
    ([sorted_items_render] below says it is the same thing). *)
Fixpoint encode (sort_keys : bool) (indent : option nat) (level : nat) (j : json) : string :=
  match j with
  | JNull => "null"
  | JBool true => "true"
  | JBool false => "false"
  | JInt n => int_repr n
  | JStr s => encode_basestring_ascii s
  | JList [] => "[]"
  | JList xs =>
      "[" ++ newline_indent indent (S level)
        ++ join (item_separator indent ++ newline_indent indent (S level))
             (map (encode sort_keys indent (S level)) xs)
        ++ newline_indent indent level ++ "]"
  | JDict [] => "{}"
  | JDict items =>
      let rendered := map (fun p => (fst p, encode sort_keys indent (S level) (snd p))) items in
      "{" ++ newline_indent indent (S level)
        ++ join (item_separator indent ++ newline_indent indent (S level))
             (map render_item (if sort_keys then sorted_items rendered else rendered))
        ++ newline_indent indent level ++ "}"
  end.

Definition dumps (obj : json) (sort_keys : bool) (indent : option nat) : string :=
  encode sort_keys indent 0 obj.

(** ** [hashlib.sha1(data).hexdigest()] (FIPS 180-4) *)

Module SHA1.

Definition w32 (x : Z) : Z := x mod 2 ^ 32.
Definition add32 (x y : Z) : Z := w32 (x + y).
Definition rotl (n x : Z) : Z :=
  w32 (Z.lor (Z.shiftl x n) (Z.shiftr x (32 - n))).
Definition not32 (x : Z) : Z := Z.lxor x (2 ^ 32 - 1).

Definition bytes_of (s : string) : list Z :=
  map (fun c => Z.of_N (N_of_ascii c)) (list_ascii_of_string s).

(** big-endian encoding of [x] on [n] bytes *)
Fixpoint be_bytes (n : nat) (x : Z) : list Z :=
  match n with
  | O => []
  | S k => be_bytes k (x / 256) ++ [x mod 256]
  end.

Definition pad (msg : list Z) : list Z :=
  let len := Z.of_nat (length msg) in
  let zeros := Z.to_nat ((55 - len) mod 64) in
  msg ++ [128] ++ repeat 0 zeros ++ be_bytes 8 (8 * len).

Definition be_word (bs : list Z) : Z :=
  fold_left (fun acc b => acc * 256 + b) bs 0.

(** the sixteen words of a 64-byte block *)
Fixpoint words (n : nat) (bs : list Z) : list Z :=
  match n with
  | O => []
  | S k => be_word (firstn 4 bs) :: words k (skipn 4 bs)
  end.

(** the message schedule, newest word first: [sched] holds
    [W(t-1), W(t-2), ...] *)
Fixpoint extend (n : nat) (sched : list Z) : list Z :=
  match n with
  | O => sched
  | S k =>
      let w i := nth i sched 0 in
      extend k (rotl 1 (Z.lxor (Z.lxor (Z.lxor (w 2%nat) (w 7%nat)) (w 13%nat)) (w 15%nat)) :: sched)
  end.

Definition schedule (block : list Z) : list Z :=
  rev (extend 64 (rev (words 16 block))).

Definition f (t : nat) (b c d : Z) : Z :=
  if (t <? 20)%nat then Z.lor (Z.land b c) (Z.land (not32 b) d)
  else if (t <? 40)%nat then Z.lxor (Z.lxor b c) d
  else if (t <? 60)%nat then Z.lor (Z.lor (Z.land b c) (Z.land b d)) (Z.land c d)
  else Z.lxor (Z.lxor b c) d.

Definition K (t : nat) : Z :=
  if (t <? 20)%nat then 0x5A827999
  else if (t <? 40)%nat then 0x6ED9EBA1
  else if (t <? 60)%nat then 0x8F1BBCDC
  else 0xCA62C1D6.

Record regs := Regs { ra : Z; rb : Z; rc : Z; rd : Z; re : Z }.

Definition round (r : regs) (tw : nat * Z) : regs :=
  let '(t, w) := tw in
  let tmp := add32 (add32 (add32 (add32 (rotl 5 (ra r)) (f t (rb r) (rc r) (rd r))) (re r)) (K t)) w in
  Regs tmp (ra r) (rotl 30 (rb r)) (rc r) (rd r).

Definition compress (h : regs) (block : list Z) : regs :=
  let ws := schedule block in
  let r := fold_left round (combine (seq 0 80) ws) h in
  Regs (add32 (ra h) (ra r)) (add32 (rb h) (rb r)) (add32 (rc h) (rc r))
       (add32 (rd h) (rd r)) (add32 (re h) (re r)).

Fixpoint blocks (n : nat) (bs : list Z) (h : regs) : regs :=
  match n with
  | O => h
  | S k => blocks k (skipn 64 bs) (compress h (firstn 64 bs))
  end.

Definition H0 : regs :=
  Regs 0x67452301 0xEFCDAB89 0x98BADCFE 0x10325476 0xC3D2E1F0.

Definition digest (msg : list Z) : list Z :=
  let p := pad msg in
  let h := blocks (length p / 64) p H0 in
  be_bytes 4 (ra h) ++ be_bytes 4 (rb h) ++ be_bytes 4 (rc h)
    ++ be_bytes 4 (rd h) ++ be_bytes 4 (re h).

Definition hex_byte (b : Z) : string :=
  String (hex_digit (Z.to_N (b / 16))) (String (hex_digit (Z.to_N (b mod 16))) EmptyString).

Definition hexdigest (s : string) : string :=
  fold_right (fun b acc => hex_byte b ++ acc) EmptyString (digest (bytes_of s)).

End SHA1.

(** ** Results, state and the monad of the [Database] methods *)

Inductive result (A : Type) : Type :=
| Return (a : A)
| Raise (e : exn).
Arguments Return {A} a.
Arguments Raise {A} e.

(** An [asyncpg] pool as [create_pool] is asked to build it; [closed] is set
    by [Pool.close()]. *)
Record Pool : Type := mkPool {
  dsn : json;
  min_size : Z;
  max_size : Z;
  command_timeout : Z;
  server_settings : list (string * string);
  closed : bool
}.

(** The fields of a [Database] object that its methods read and write
    ([_config_path] never changes and [_refresh_task] only guards the start
    of the refresh loop). [_pools] maps a connection ID to the pool object,
    named by its position in [pools_made]. *)
Record Database : Type := mkDatabase {
  _pools : gmap string nat;
  _connection_map : json;
  _last_config_hash : option string
}.

(** The process state: the one [Database] object ([global_db]), every pool
    object constructed so far (oldest first), and the statements sent to the
    servers, oldest first, each with the pool whose connection carried it. *)
Record State : Type := mkState {
  db : Database;
  pools_made : list Pool;
  trace : list (nat * json)
}.

(** [Database.__init__] and a fresh process. *)
Definition Database_init : Database :=
  {| _pools := ∅; _connection_map := JDict []; _last_config_hash := None |}.

Definition initial_state : State :=
  {| db := Database_init; pools_made := []; trace := [] |}.

(** ** Values of fetched rows and [safe_json_serializer]

    What asyncpg puts into a row is a Python value. [json.dumps] encodes
    [None], [bool], [int], [str], [list] and [dict] itself and hands a value
    of any other type to its [default] hook. Such a value is kept here as
    what [safe_json_serializer] reads from it: the text of [str(obj)],
    [obj.isoformat()] or [obj.decode(..)], the elements of a set in the order
    [list(obj)] gives them, the class and member name of an [Enum], and for
    any other object the name of its type and its [__dict__], if it has
    one. Floats are left out, as they are in [json]. *)
Inductive pyobj : Type :=
| PyNone
| PyBool (b : bool)
| PyInt (n : Z)
| PyStr (s : string)
| PyList (items : list pyobj)
| PyDict (items : list (string * pyobj))
| PyDecimal (text : string)
| PyDatetime (isoformat : string)
| PyUUID (text : string)
| PyPath (text : string)
| PyBytes (decoded : string)
| PySet (items : list pyobj)
| PyEnum (class_name member : string)
| PyObject (class_name : string) (attributes : option (list (string * pyobj))).

Definition not_serializable (class_name : string) : exn :=
  TypeError ("Object of type " ++ class_name ++ " is not JSON serializable").

(** [safe_json_serializer(obj)] *)
Definition safe_json_serializer (obj : pyobj) : result pyobj :=
  match obj with
  | PyNone | PyBool _ | PyInt _ | PyStr _ => Return obj
  | PyDecimal text => Return (PyStr text)
  | PyDatetime isoformat => Return (PyStr isoformat)
  | PyUUID text => Return (PyStr text)
  | PyPath text => Return (PyStr text)
  | PyBytes decoded => Return (PyStr decoded)
  | PySet items => Return (PyList items)
  | PyEnum class_name member =>
      Return (PyDict [("__enum__", PyStr (class_name ++ "." ++ member))])
  | PyObject _ (Some attributes) => Return (PyDict attributes)
  | PyObject class_name None => Raise (not_serializable class_name)
  | PyList _ => Raise (not_serializable "list")
  | PyDict _ => Raise (not_serializable "dict")
  end.

(** What [json.dumps(obj, default=safe_json_serializer)] encodes: the
    encoder walks the value from left to right, encodes what it knows, and
    encodes in place of any other value what the hook returns for it; the
    first [TypeError] of the hook ends the walk. The cases of the hook are
    written out here, [serialize_default] below states that they are the
    hook's. *)
Fixpoint serialize (obj : pyobj) : result json :=
  let each :=
    fix each (items : list pyobj) : result (list json) :=
      match items with
      | [] => Return []
      | x :: rest =>
          match serialize x with
          | Return j =>
              match each rest with
              | Return js => Return (j :: js)
              | Raise e => Raise e
              end
          | Raise e => Raise e
          end
      end in
  let each_item :=
    fix each_item (items : list (string * pyobj)) : result (list (string * json)) :=
      match items with
      | [] => Return []
      | (k, x) :: rest =>
          match serialize x with
          | Return j =>
              match each_item rest with
              | Return js => Return ((k, j) :: js)
              | Raise e => Raise e
              end
          | Raise e => Raise e
          end
      end in
  match obj with
  | PyNone => Return JNull
  | PyBool b => Return (JBool b)
  | PyInt n => Return (JInt n)
  | PyStr s => Return (JStr s)
  | PyList items | PySet items =>
      match each items with
      | Return js => Return (JList js)
      | Raise e => Raise e
      end
  | PyDict items | PyObject _ (Some items) =>
      match each_item items with
      | Return js => Return (JDict js)
      | Raise e => Raise e
      end
  | PyDecimal text | PyDatetime text | PyUUID text | PyPath text | PyBytes text =>
      Return (JStr text)
  | PyEnum class_name member =>
      Return (JDict [("__enum__", JStr (class_name ++ "." ++ member))])
  | PyObject class_name None => Raise (not_serializable class_name)
  end.

(** The PostgreSQL servers behind the connection strings: whether a pool can
    be opened on a DSN (and the exception if not), what a statement returns
    on a connection to it, and whether closing a pool of connections to it
    fails (and the exception if so). *)
Record Backend : Type := mkBackend {
  connect_error : json -> option exn;
  run : json -> json -> list json -> result (list pyobj);
  close_error : json -> option exn
}.

Definition M (A : Type) : Type := State -> result A * State.

Definition ret {A} (a : A) : M A := fun st => (Return a, st).
Definition raise {A} (e : exn) : M A := fun st => (Raise e, st).
Definition bind {A B} (m : M A) (k : A -> M B) : M B :=
  fun st =>
    match m st with
    | (Return a, st') => k a st'
    | (Raise e, st') => (Raise e, st')
    end.
Definition get_state : M State := fun st => (Return st, st).
Definition lift {A} (r : result A) : M A := fun st => (r, st).

Declare Scope py_scope.
Delimit Scope py_scope with py.
Notation "x <- m ;; k" := (bind m (fun x => k))
  (at level 100, m at next level, right associativity) : py_scope.
Notation "m ;; k" := (bind m (fun _ => k))
  (at level 100, right associativity) : py_scope.
Local Open Scope py_scope.

Definition set_db (d : Database) : M unit :=
  fun st => (Return tt, {| db := d; pools_made := pools_made st; trace := trace st |}).

(** a pool once [Pool.close()] has run *)
Definition closed_pool (p : Pool) : Pool :=
  mkPool (dsn p) (min_size p) (max_size p) (command_timeout p) (server_settings p) true.

(** The two copies of [database.py] differ in the text of one message. *)
Inductive Variant : Type := GuMCP | Standalone.

(** *** Python operators on the configuration value *)

Definition has_key {V} (k : string) (items : list (string * V)) : bool :=
  existsb (fun p => String.eqb (fst p) k) items.

(** [dct[k]] / [dct.get(k)] on the items of a [dict] *)
Fixpoint lookup_key {V} (k : string) (items : list (string * V)) : option V :=
  match items with
  | [] => None
  | (k', v) :: rest => if String.eqb k' k then Some v else lookup_key k rest
  end.

Definition type_name (j : json) : string :=
  match j with
  | JNull => "NoneType"
  | JBool _ => "bool"
  | JInt _ => "int"
  | JStr _ => "str"
  | JList _ => "list"
  | JDict _ => "dict"
  end.

Definition opt_type_name (v : option string) : string :=
  match v with
  | None => "NoneType"
  | Some _ => "str"
  end.

(** [v == x] for an [Optional[str]] [v] and a parsed value [x] *)
Definition eq_value (v : option string) (x : json) : bool :=
  match v, x with
  | None, JNull => true
  | Some s, JStr t => String.eqb s t
  | _, _ => false
  end.

(** [v in c] *)
Definition py_in (v : option string) (c : json) : result bool :=
  match c with
  | JDict items =>
      Return (match v with Some k => has_key k items | None => false end)
  | JList xs => Return (existsb (eq_value v) xs)
  | JStr s =>
      match v with
      | Some p => Return (is_substring p s)
      | None =>
          Raise (TypeError "'in <string>' requires string as left operand, not NoneType")
      end
  | _ => Raise (TypeError ("argument of type '" ++ type_name c ++ "' is not iterable"))
  end.

(** [c[v]] *)
Definition py_getitem (c : json) (v : option string) : result json :=
  match c with
  | JDict items =>
      match v with
      | Some k =>
          match lookup_key k items with
          | Some x => Return x
          | None => Raise (KeyError v)
          end
      | None => Raise (KeyError None)
      end
  | JList _ =>
      Raise (TypeError ("list indices must be integers or slices, not " ++ opt_type_name v))
  | JStr _ =>
      Raise (TypeError ("string indices must be integers, not '" ++ opt_type_name v ++ "'"))
  | _ => Raise (TypeError ("'" ++ type_name c ++ "' object is not subscriptable"))
  end.

(** [conn_id in self._pools] *)
Definition in_pools (conn_id : option string) (d : Database) : bool :=
  match conn_id with
  | Some k => bool_decide (is_Some (_pools d !! k))
  | None => false
  end.

(** ** [class Database] *)

(** What one pass of the refresh loop finds at [_config_path]: no file, a
    failure of [open]/[read]/[json.loads], or the parsed document. *)
Inductive ConfigRead : Type :=
| NotFound
| ReadFailed (e : exn)
| Loaded (content : json).

Definition _hash_config (content : json) : string :=
  SHA1.hexdigest (dumps content true None).

Definition _reload_config_if_changed (source : ConfigRead) : M unit :=
  match source with
  | NotFound => ret tt
  | ReadFailed e => raise e
  | Loaded content =>
      let current_hash := _hash_config content in
      st <- get_state ;;
      if bool_decide (Some current_hash = _last_config_hash (db st)) then ret tt
      else
        set_db {| _pools := _pools (db st);
                  _connection_map := content;
                  _last_config_hash := Some current_hash |}
  end.

(** One turn of [_refresh_loop]: the reload under [try], the message handed
    to [logger.error] if it raised. *)
Definition _refresh_iteration (source : ConfigRead) (st : State) : option string * State :=
  match _reload_config_if_changed source st with
  | (Return _, st') => (None, st')
  | (Raise e, st') => (Some ("Error during config refresh: " ++ exn_str e), st')
  end.

(** The loop over what successive reads find (any finite prefix of it). *)
Fixpoint _refresh_loop (sources : list ConfigRead) (st : State) : list string * State :=
  match sources with
  | [] => ([], st)
  | source :: rest =>
      let '(logged, st') := _refresh_iteration source st in
      let '(log, st'') := _refresh_loop rest st' in
      (match logged with Some m => m :: log | None => log end, st'')
  end.

Section DatabaseMethods.

Variable variant : Variant.
Variable pg : Backend.

Definition unknown_connection_message (conn_id : option string) : string :=
  match variant with
  | GuMCP => "Unknown connection ID " ++ fmt conn_id
  | Standalone => "Unknown connection ID: " ++ fmt conn_id
  end.

Definition get_connection_string (conn_id : option string) : M json :=
  st <- get_state ;;
  present <- lift (py_in conn_id (_connection_map (db st))) ;;
  if negb present then raise (ValueError (unknown_connection_message conn_id))
  else lift (py_getitem (_connection_map (db st)) conn_id).

(** [asyncpg.create_pool(conn_str, min_size=.., ...)] awaited: a new pool
    object when the server accepts the connections, the failure otherwise. *)
Definition create_pool (conn_str : json) (min max timeout : Z)
    (settings : list (string * string)) : M nat :=
  fun st =>
    match connect_error pg conn_str with
    | Some e => (Raise e, st)
    | None =>
        (Return (length (pools_made st)),
         {| db := db st;
            pools_made := pools_made st ++ [mkPool conn_str min max timeout settings false];
            trace := trace st |})
    end.

(** [self._pools[conn_id] = pool] *)
Definition store_pool (conn_id : string) (pool : nat) : M unit :=
  st <- get_state ;;
  set_db {| _pools := <[conn_id := pool]> (_pools (db st));
            _connection_map := _connection_map (db st);
            _last_config_hash := _last_config_hash (db st) |}.

(** [initialize] up to its [await]: the checks and the lookup of the
    connection string. [None] when the pool is already there. *)
Definition initialize_begin (conn_id : option string) : M (option (string * json)) :=
  if negb (truthy conn_id) then raise (ValueError "Connection ID is required")
  else
    st <- get_state ;;
    if negb (in_pools conn_id (db st)) then
      conn_str <- get_connection_string conn_id ;;
      ret (Some (fmt conn_id, conn_str))   (* a truthy ID is a [str] *)
    else ret None.

(** [initialize] from its [await] on: the pool arrives and is stored. *)
Definition initialize_finish (pending : string * json) : M unit :=
  pool <- create_pool (snd pending) 2 4 60
            [("default_transaction_read_only", "true")] ;;
  store_pool (fst pending) pool.

Definition initialize (conn_id : option string) : M unit :=
  pending <- initialize_begin conn_id ;;
  match pending with
  | Some p => initialize_finish p
  | None => ret tt
  end.

(** A connection checked out of a pool: the pool it belongs to and the
    session settings it was opened with. *)
Record Connection : Type := mkConnection {
  conn_pool : nat;
  conn_dsn : json;
  conn_settings : list (string * string)
}.

(** [self._pools[conn_id]] *)
Definition pool_of (conn_id : option string) : M nat :=
  st <- get_state ;;
  match conn_id with
  | Some k =>
      match _pools (db st) !! k with
      | Some p => ret p
      | None => raise (KeyError conn_id)
      end
  | None => raise (KeyError None)
  end.

(** [pool.acquire()] entered *)
Definition acquire (pool : nat) : M Connection :=
  st <- get_state ;;
  match pools_made st !! pool with
  | Some p =>
      if closed p then raise (InterfaceError "pool is closed")
      else ret (mkConnection pool (dsn p) (server_settings p))
  | None => raise (InterfaceError "pool is closed")
  end.

(** [async with self.get_connection(conn_id) as conn: body]; leaving the
    block hands the connection back to its pool, which changes nothing
    that is modelled. *)
Definition get_connection {A} (conn_id : option string) (body : Connection -> M A) : M A :=
  st <- get_state ;;
  (if negb (in_pools conn_id (db st)) then initialize conn_id else ret tt) ;;
  pool <- pool_of conn_id ;;
  conn <- acquire pool ;;
  body conn.

(** [await pool.close()]. A pool that is closed already returns at once.
    Otherwise asyncpg closes the connections of the pool; if that fails it
    terminates them and raises, and the pool is marked closed either way. *)
Definition close_pool (pool : nat) : M unit :=
  fun st =>
    let st' := {| db := db st;
                  pools_made := alter closed_pool pool (pools_made st);
                  trace := trace st |} in
    match pools_made st !! pool with
    | Some p =>
        if closed p then (Return tt, st')
        else
          match close_error pg (dsn p) with
          | Some e => (Raise e, st')
          | None => (Return tt, st')
          end
    | None => (Return tt, st')
    end.

(** [del self._pools[conn_id]] *)
Definition del_pool (conn_id : string) : M unit :=
  st <- get_state ;;
  match _pools (db st) !! conn_id with
  | Some _ =>
      set_db {| _pools := delete conn_id (_pools (db st));
                _connection_map := _connection_map (db st);
                _last_config_hash := _last_config_hash (db st) |}
  | None => raise (KeyError (Some conn_id))
  end.

Definition close_one (conn_id : string) : M unit :=
  pool <- pool_of (Some conn_id) ;;
  close_pool pool ;;
  del_pool conn_id.

Fixpoint close_each (keys : list string) : M unit :=
  match keys with
  | [] => ret tt
  | k :: rest => close_one k ;; close_each rest
  end.

Definition close (conn_id : option string) : M unit :=
  if truthy conn_id then
    st <- get_state ;;
    if in_pools conn_id (db st) then
      match conn_id with
      | Some k => close_one k
      | None => ret tt
      end
    else ret tt
  else
    st <- get_state ;;
    close_each (map fst (map_to_list (_pools (db st)))).

(** *** Callers of [get_connection] on the event loop

    asyncio runs one coroutine at a time and changes coroutine only at an
    [await] that has to wait. A call of [get_connection] has one such point
    before it holds a connection: the [await asyncpg.create_pool(...)] in
    [initialize]. A caller is therefore in one of three places. *)
Inductive Task : Type :=
| Called (conn_id : option string)
| AwaitingPool (conn_id : option string) (pending : string * json)
| Finished (outcome : result Connection).

(** [self._pools[conn_id].acquire()] entered *)
Definition checkout (conn_id : option string) : M Connection :=
  pool <- pool_of conn_id ;;
  acquire pool.

(** The caller runs until its next [await] or its end. *)
Definition resume (t : Task) (st : State) : Task * State :=
  match t with
  | Called conn_id =>
      if negb (in_pools conn_id (db st)) then
        match initialize_begin conn_id st with
        | (Return (Some pending), st') => (AwaitingPool conn_id pending, st')
        | (Return None, st') =>
            let '(r, st'') := checkout conn_id st' in (Finished r, st'')
        | (Raise e, st') => (Finished (Raise e), st')
        end
      else
        let '(r, st') := checkout conn_id st in (Finished r, st')
  | AwaitingPool conn_id pending =>
      let '(r, st') := (initialize_finish pending ;; checkout conn_id) st in
      (Finished r, st')
  | Finished _ => (t, st)
  end.

(** The event loop gives the turn to caller [i]. *)
Definition run_task (i : nat) (cfg : list Task * State) : list Task * State :=
  match fst cfg !! i with
  | Some t =>
      let '(t', st') := resume t (snd cfg) in
      (<[i := t']> (fst cfg), st')
  | None => cfg
  end.

(** The turns are taken in the order of [schedule]. *)
Definition event_loop (schedule : list nat) (cfg : list Task * State) : list Task * State :=
  foldl (fun acc i => run_task i acc) cfg schedule.

End DatabaseMethods.

(** truthiness of a parsed JSON value *)
Definition truthy_value (j : json) : bool :=
  match j with
  | JNull => false
  | JBool b => b
  | JInt n => negb (n =? 0)%Z
  | JStr s => negb (String.eqb s EmptyString)
  | JList xs => match xs with [] => false | _ => true end
  | JDict items => match items with [] => false | _ => true end
  end.

(** ** [int(x)] on a parsed JSON value *)

(** the characters [int] strips from both ends of a [str] *)
Definition int_space (c : ascii) : bool :=
  let n := N_of_ascii c in
  ((9 <=? n) && (n <=? 13) || (n =? 32) || (n =? 133) || (n =? 160))%N.

Definition is_digit (c : ascii) : bool :=
  let n := N_of_ascii c in ((48 <=? n) && (n <=? 57))%N.

Definition digit_value (c : ascii) : Z := Z.of_N (N_of_ascii c) - 48.

Fixpoint lstrip (s : string) : string :=
  match s with
  | String c rest => if int_space c then lstrip rest else s
  | EmptyString => EmptyString
  end.

Fixpoint rstrip (s : string) : string :=
  match s with
  | String c rest =>
      match rstrip rest with
      | EmptyString => if int_space c then EmptyString else String c EmptyString
      | kept => String c kept
      end
  | EmptyString => EmptyString
  end.

(** decimal digits, with single underscores between them: their value and
    how many they are *)
Fixpoint int_digits (s : string) (value : Z) (count : Z) : option (Z * Z) :=
  match s with
  | EmptyString => Some (value, count)
  | String c rest =>
      if is_digit c then int_digits rest (value * 10 + digit_value c) (count + 1)
      else if Ascii.eqb c "_" then
        match rest with
        | String d _ => if is_digit d then int_digits rest value count else None
        | EmptyString => None
        end
      else None
  end.

(** the longest digit string [int] converts (the interpreter's default) *)
Definition int_max_str_digits : Z := 4300.

(** [int(s)] for a [str]: [None] where it raises [ValueError] *)
Definition int_literal (s : string) : option Z :=
  let body := rstrip (lstrip s) in
  let '(negative, unsigned) :=
    match body with
    | String c rest =>
        if Ascii.eqb c "-" then (true, rest)
        else if Ascii.eqb c "+" then (false, rest)
        else (false, body)
    | EmptyString => (false, body)
    end in
  match unsigned with
  | String c _ =>
      if is_digit c then
        match int_digits unsigned 0 0 with
        | Some (n, count) =>
            if (int_max_str_digits <? count)%Z then None
            else Some (if negative then (- n)%Z else n)
        | None => None
        end
      else None
  | EmptyString => None
  end.

(** How [int(value)] ends: with the integer, with a [ValueError] (its text
    is not kept: the callers modelled here replace it), or with the
    [TypeError] raised for a value that is neither a number nor a string. *)
Inductive IntResult : Type :=
| IntValue (n : Z)
| IntValueError
| IntTypeError (msg : string).

Definition int_type_error (type_name : string) : IntResult :=
  IntTypeError ("int() argument must be a string, a bytes-like object or a real number, not '"
                  ++ type_name ++ "'").

Definition py_int (value : json) : IntResult :=
  match value with
  | JInt n => IntValue n
  | JBool b => IntValue (if b then 1 else 0)
  | JStr s =>
      match int_literal s with
      | Some n => IntValue n
      | None => IntValueError
      end
  | JNull => int_type_error "NoneType"
  | JList _ => int_type_error "list"
  | JDict _ => int_type_error "dict"
  end.

(** ** The PyJWT calls of [jwt_utils.py]

    [jwt.encode] and [jwt.decode] belong to the PyJWT library, not to the
    repository; this is a model of what the two calls made by [JWTUtils] do
    (HS256, no audience, issuer or subject asked for, the default options
    of a current PyJWT, which also checks [sub] and [jti]). A token is kept
    as the parts its three segments decode to, and the HMAC tag as the key
    and the text it was computed over. The key is one the library takes as
    an HMAC secret: it refuses a key that reads as a PEM or SSH key, and
    such a key is outside this model. *)
Module PyJWT.

(** [jwt.InvalidTokenError] and its subclasses *)
Inductive InvalidTokenError : Type :=
| DecodeError (msg : string)
| InvalidAlgorithmError (msg : string)
| InvalidSignatureError (msg : string)
| ExpiredSignatureError (msg : string)
| ImmatureSignatureError (msg : string)
| InvalidIssuedAtError (msg : string)
| InvalidAudienceError (msg : string)
| InvalidSubjectError (msg : string)
| InvalidJTIError (msg : string).

(** What ends [jwt.decode] early: an [InvalidTokenError], or an exception
    of another class that the library does not catch. *)
Inductive Failure : Type :=
| Invalid (e : InvalidTokenError)
| Escaped (e : exn).

Inductive Signature : Type :=
| Hmac (key : string) (signing_input : string)
| Forged (raw : string).

Inductive Token : Type :=
| Malformed (raw : string)
| Compact (alg : option string) (payload : json) (signature : Signature).

(** A claim handed to [jwt.encode]: a JSON value or a [datetime], given by
    its microseconds since the epoch. *)
Inductive Claim : Type :=
| Plain (value : json)
| Datetime (microseconds : Z).

(** [timegm(dt.utctimetuple())]: whole seconds, the microseconds dropped *)
Definition timegm (microseconds : Z) : Z := microseconds / 1000000.

Definition is_time_claim (name : string) : bool :=
  String.eqb name "exp" || String.eqb name "iat" || String.eqb name "nbf".

(** the payload as serialized: [datetime]s under [exp], [iat] and [nbf]
    become integers, any other [datetime] is refused by the JSON encoder *)
Fixpoint serializable (payload : list (string * Claim)) : result (list (string * json)) :=
  match payload with
  | [] => Return []
  | (name, Plain value) :: rest =>
      match serializable rest with
      | Return items => Return ((name, value) :: items)
      | Raise e => Raise e
      end
  | (name, Datetime us) :: rest =>
      if is_time_claim name then
        match serializable rest with
        | Return items => Return ((name, JInt (timegm us)) :: items)
        | Raise e => Raise e
        end
      else Raise (TypeError "Object of type datetime is not JSON serializable")
  end.

(** the text the tag is computed over (header, dot, payload), without its
    base64url coding *)
Definition signing_input (alg : string) (payload : json) : string :=
  dumps (JDict [("alg", JStr alg); ("typ", JStr "JWT")]) true None
    ++ "." ++ dumps payload false None.

Definition encode (payload : list (string * Claim)) (key : string) (algorithm : string)
    : result Token :=
  match serializable payload with
  | Return items =>
      Return (Compact (Some algorithm) (JDict items)
                (Hmac key (signing_input algorithm (JDict items))))
  | Raise e => Raise e
  end.

Definition verify_signature (sig : Signature) (key : string) (input : string) : bool :=
  match sig with
  | Hmac k m => String.eqb k key && String.eqb m input
  | Forged _ => false
  end.

(** The checks of [_validate_claims] under the default options; [now] is
    the verifier's clock in microseconds. *)

(** [int(payload[name])], the [ValueError] replaced by [not_an_integer] *)
Definition int_claim (value : json) (not_an_integer : InvalidTokenError) : Failure + Z :=
  match py_int value with
  | IntValue n => inr n
  | IntValueError => inl (Invalid not_an_integer)
  | IntTypeError msg => inl (Escaped (TypeError msg))
  end.

Definition check_iat (claims : list (string * json)) (now : Z) : option Failure :=
  match lookup_key "iat" claims with
  | None => None
  | Some value =>
      match int_claim value (InvalidIssuedAtError "Issued At claim (iat) must be an integer.") with
      | inr iat =>
          if (now <? iat * 1000000)%Z
          then Some (Invalid (ImmatureSignatureError "The token is not yet valid (iat)"))
          else None
      | inl failure => Some failure
      end
  end.

Definition check_nbf (claims : list (string * json)) (now : Z) : option Failure :=
  match lookup_key "nbf" claims with
  | None => None
  | Some value =>
      match int_claim value (DecodeError "Not Before claim (nbf) must be an integer.") with
      | inr nbf =>
          if (now <? nbf * 1000000)%Z
          then Some (Invalid (ImmatureSignatureError "The token is not yet valid (nbf)"))
          else None
      | inl failure => Some failure
      end
  end.

Definition check_exp (claims : list (string * json)) (now : Z) : option Failure :=
  match lookup_key "exp" claims with
  | None => None
  | Some value =>
      match int_claim value (DecodeError "Expiration Time claim (exp) must be an integer.") with
      | inr exp =>
          if (exp * 1000000 <=? now)%Z
          then Some (Invalid (ExpiredSignatureError "Signature has expired"))
          else None
      | inl failure => Some failure
      end
  end.

(** no audience is asked for: an [aud] claim is refused unless it is falsy *)
Definition check_aud (claims : list (string * json)) : option Failure :=
  match lookup_key "aud" claims with
  | None => None
  | Some aud =>
      if negb (truthy_value aud) then None
      else Some (Invalid (InvalidAudienceError "Invalid audience"))
  end.

Definition is_str (value : json) : bool :=
  match value with
  | JStr _ => true
  | _ => false
  end.

Definition check_sub (claims : list (string * json)) : option Failure :=
  match lookup_key "sub" claims with
  | None => None
  | Some sub =>
      if negb (is_str sub) then Some (Invalid (InvalidSubjectError "Subject must be a string"))
      else None
  end.

Definition check_jti (claims : list (string * json)) : option Failure :=
  match lookup_key "jti" claims with
  | None => None
  | Some jti =>
      if negb (is_str jti) then Some (Invalid (InvalidJTIError "JWT ID must be a string"))
      else None
  end.

(** the first check that fails, in the library's order *)
Fixpoint first_failure (checks : list (option Failure)) : option Failure :=
  match checks with
  | [] => None
  | Some failure :: _ => Some failure
  | None :: rest => first_failure rest
  end.

Definition validate_claims (claims : list (string * json)) (now : Z) : option Failure :=
  first_failure
    [check_iat claims now; check_nbf claims now; check_exp claims now;
     check_aud claims; check_sub claims; check_jti claims].

(** [jwt.decode(token, key, algorithms=[..])] at clock [now]: the payload,
    or the exception raised. *)
Definition decode (token : Token) (key : string) (algorithms : list string) (now : Z)
    : Failure + list (string * json) :=
  match token with
  | Malformed _ => inl (Invalid (DecodeError "Not enough segments"))
  | Compact alg payload sig =>
      match alg with
      | None => inl (Invalid (InvalidAlgorithmError "The specified alg value is not allowed"))
      | Some a =>
          if negb (existsb (String.eqb a) algorithms)
          then inl (Invalid (InvalidAlgorithmError "The specified alg value is not allowed"))
          else if negb (verify_signature sig key (signing_input a payload))
          then inl (Invalid (InvalidSignatureError "Signature verification failed"))
          else
            match payload with
            | JDict claims =>
                match validate_claims claims now with
                | Some failure => inl failure
                | None => inr claims
                end
            | _ => inl (Invalid (DecodeError "Invalid payload string: must be a json object"))
            end
      end
  end.

End PyJWT.

(** ** [class JWTUtils] *)

(** [x or y] on an [Optional[str]] and a [str] *)
Definition or_else (x : option string) (y : string) : string :=
  match x with
  | Some s => if truthy x then s else y
  | None => y
  end.

(** [JWTUtils.__init__]: the value of [self._jwt_secret], given the
    argument and the process environment. *)
Definition JWTUtils_init (jwt_secret : option string) (environ : gmap string string) : string :=
  or_else jwt_secret (default "default-secret" (environ !! "JWT_SECRET")).

Definition hours (n : Z) : Z := n * 3600 * 1000000.

(** [generate_jwt_token(user_id)] when [datetime.now(kst)] reads [now]
    (microseconds since the epoch; the zone does not change the instant). *)
Definition generate_jwt_token (_jwt_secret : string) (user_id : string) (now : Z)
    : result PyJWT.Token :=
  let current_time := now in
  let payload :=
    [("user_id", PyJWT.Plain (JStr user_id));
     ("iat", PyJWT.Datetime current_time);
     ("exp", PyJWT.Datetime (current_time + hours 24))] in
  match PyJWT.encode payload _jwt_secret "HS256" with
  | Return token => Return token
  | Raise e => Raise (ValueError ("Failed to generate JWT token: " ++ exn_str e))
  end.

(** [verify_jwt_token(token)] when the verifier's clock reads [now]. *)
Definition verify_jwt_token (_jwt_secret : string) (token : PyJWT.Token) (now : Z)
    : result (list (string * json)) :=
  match PyJWT.decode token _jwt_secret ["HS256"] now with
  | inr payload =>
      if negb (has_key "user_id" payload)
      then Raise (ValueError "Invalid JWT payload: user_id missing")
      else Return payload
  | inl (PyJWT.Invalid _) => Raise (ValueError "Invalid or expired JWT token")
  | inl (PyJWT.Escaped e) => Raise e
  end.

(** ** [JWTMiddleware.dispatch] *)

(** The [Authorization] header: ["Bearer "] followed by a token, or any
    other text. *)
Inductive Authorization : Type :=
| Bearer (token : PyJWT.Token)
| OtherHeader (raw : string).

Record Request : Type := mkRequest {
  path : string;
  authorization : option Authorization
}.

(** How [dispatch] ends: with a JSON response of its own, with the response
    of [call_next(request)] (and the [request.state.user_id] it set), or with
    an exception it does not handle. *)
Inductive Response : Type :=
| JSONResponse (content : json) (status_code : Z)
| CallNext (state_user_id : option json)
| Unhandled (e : exn).

(** the paths [dispatch] lets through without a token *)
Definition open_paths : list string := ["/metrics"; "/"; "/health_check"; "/token"].

Definition dispatch (_jwt_secret : string) (request : Request) (now : Z) : Response :=
  if existsb (String.eqb (path request)) open_paths
  then CallNext None
  else
    match authorization request with
    | Some (Bearer token) =>
        match verify_jwt_token _jwt_secret token now with
        | Return payload =>
            match lookup_key "user_id" payload with
            | Some user_id => CallNext (Some user_id)
            | None => Unhandled (KeyError (Some "user_id"))
            end
        | Raise (ValueError msg) => JSONResponse (JDict [("error", JStr msg)]) 401
        | Raise e => Unhandled e
        end
    | _ =>
        JSONResponse (JDict [("error", JStr "Missing or invalid Authorization header")]) 401
    end.

(** ** [servers/pg/main.py] *)

(** [repr(x)] and [str(x)] as f-strings apply them *)
Fixpoint py_repr (j : json) : string :=
  match j with
  | JNull => "None"
  | JBool true => "True"
  | JBool false => "False"
  | JInt n => int_repr n
  | JStr s => repr_str s
  | JList xs => "[" ++ join ", " (map py_repr xs) ++ "]"
  | JDict items =>
      "{" ++ join ", " (map (fun p => repr_str (fst p) ++ ": " ++ py_repr (snd p)) items) ++ "}"
  end.

Definition py_str (j : json) : string :=
  match j with
  | JStr s => s
  | _ => py_repr j
  end.

Definition pg_list_schemas_query : string :=
  "
                    SELECT schema_name
                    FROM information_schema.schemata
                    WHERE schema_name IN (
                        SELECT nspname
                        FROM pg_namespace
                        WHERE has_schema_privilege(nspname, 'USAGE')
                    )
                    ORDER BY schema_name;                   
                    ".

Definition pg_list_tables_query : string :=
  "
                        SELECT table_name
                        FROM information_schema.tables
                        WHERE table_schema = $1
                        AND has_table_privilege(table_schema || '.' || table_name, 'SELECT')
                        ORDER BY table_name;
                    ".

Definition pg_list_table_metadata_query : string :=
  "
                        SELECT table_name,
                            table_type,
                            obj_description(('" ++ dquote ++ "' || table_schema || '" ++ dquote ++ "." ++ dquote ++ "' || table_name || '" ++ dquote ++ "')::regclass, 'pg_class') AS table_comment
                        FROM information_schema.tables
                        WHERE table_schema = $1
                        AND table_name = $2
                        AND has_table_privilege(table_schema || '.' || table_name, 'SELECT')
                        ORDER BY table_name;
                    ".

Definition pg_list_columns_metadata_query : string :=
  "
                        SELECT 
                            column_name,
                            data_type,
                            character_maximum_length,
                            numeric_precision,
                            numeric_scale,
                            is_nullable,
                            column_default,
                            col_description(('" ++ dquote ++ "' || table_schema || '" ++ dquote ++ "." ++ dquote ++ "' || table_name || '" ++ dquote ++ "')::regclass, ordinal_position) AS column_comment
                        FROM information_schema.columns
                        WHERE table_schema = $1
                        AND table_name = $2
                        ORDER BY ordinal_position;
                    ".

Definition pg_count_table_rows_query (schema : json) (table_name : json) : string :=
  "
                        SELECT COUNT(" ++ "*) AS row_count
                        FROM " ++ dquote ++ py_str schema ++ dquote ++ "." ++ dquote ++ py_str table_name ++ dquote ++ ";
                    ".

Definition pg_sample_table_rows_query (schema : json) (table_name : json) : string :=
  "
                        SELECT * FROM " ++ dquote ++ py_str schema ++ dquote ++ "." ++ dquote ++ py_str table_name ++ dquote ++ " LIMIT 3;
                    ".

Record TextContent : Type := mkTextContent {
  type : string;
  text : string
}.

(** the attributes [create_server] sets on the server object *)
Record Server : Type := mkServer {
  user_id : string;
  conn_id : option string
}.

Definition try_except {A} (body : M A) (handler : exn -> M A) : M A :=
  fun st =>
    match body st with
    | (Return a, st') => (Return a, st')
    | (Raise e, st') => handler e st'
    end.

(** [json.dumps({"success": False, "error": msg})] as a text content *)
Definition failure (msg : string) : TextContent :=
  mkTextContent "text"
    (dumps (JDict [("success", JBool false); ("error", JStr msg)]) false None).

Definition success : TextContent :=
  mkTextContent "text" (dumps (JDict [("success", JBool true)]) false None).

Section PgServer.

Variable pg : Backend.

(** [await conn.execute(..)] / [await conn.fetch(..)]: the statement goes to
    the server of the connection. *)
Definition run_on (conn : Connection) (statement : json) (args : list json)
    : M (list pyobj) :=
  fun st =>
    (run pg (conn_dsn conn) statement args,
     {| db := db st;
        pools_made := pools_made st;
        trace := trace st ++ [(conn_pool conn, statement)] |}).

(** [params or []] *)
Definition params_or_empty (params : option (list json)) : list json :=
  match params with
  | Some (x :: xs) => x :: xs
  | _ => []
  end.

(** [json.dumps(obj, indent=2, default=safe_json_serializer)] *)
Definition dumps_rows (obj : pyobj) : M string :=
  data <- lift (serialize obj) ;;
  ret (dumps data false (Some 2%nat)).

(** [global_db] is a [Database] object, which is always truthy: the
    [if not global_db] branch is never taken. *)
Definition execute_query (query : json) (conn_id : option string)
    (params : option (list json)) : M (list TextContent) :=
  get_connection GuMCP pg conn_id (fun conn =>
    run_on conn (JStr "SET TRANSACTION READ ONLY") [] ;;
    try_except
      (records <- run_on conn query (params_or_empty params) ;;
       text <- dumps_rows (PyDict [("success", PyBool true); ("data", PyList records)]) ;;
       ret [mkTextContent "text" text])
      (fun e =>
         text <- dumps_rows (PyDict [("success", PyBool false);
                                     ("error", PyStr (exn_str e))]) ;;
         ret [mkTextContent "text" text])).

(** [arguments.get(key, default)] *)
Definition get_default (arguments : list (string * json)) (key : string) (dflt : json) : json :=
  default dflt (lookup_key key arguments).

(** [arguments[key]] *)
Definition getitem (arguments : list (string * json)) (key : string) : M json :=
  match lookup_key key arguments with
  | Some v => ret v
  | None => raise (KeyError (Some key))
  end.

Definition pg_connect (server : Server) : M (option (list TextContent)) :=
  try_except
    (st <- get_state ;;
     present <- lift (py_in (conn_id server) (_connection_map (db st))) ;;
     if negb present then ret (Some [failure "Unknown connection ID"])
     else if negb (in_pools (conn_id server) (db st)) then
       try_except
         (initialize GuMCP pg (conn_id server) ;;
          ret (Some [success]))
         (fun _ => ret (Some [failure "Failed to initialize pool for connection ID"]))
     else ret None)
    (fun e => ret (Some [failure (exn_str e)])).

Definition pg_disconnect (server : Server) : M (option (list TextContent)) :=
  try_except
    (st <- get_state ;;
     if negb (in_pools (conn_id server) (db st))
     then ret (Some [failure "Unknown connection ID"])
     else
       try_except
         (pool <- pool_of (conn_id server) ;;
          close_pool pg pool ;;
          del_pool (fmt (conn_id server)) ;;  (* the ID is a [str] here *)
          ret (Some [success]))
         (fun _ => ret (Some [failure "Error disconnecting connection"])))
    (fun e => ret (Some [failure (exn_str e)])).

(** the [params] of [pg_query]: a single value becomes a one-element list *)
Definition query_params (arguments : list (string * json)) : option (list json) :=
  match lookup_key "params" arguments with
  | None | Some JNull => None
  | Some (JList xs) => Some xs
  | Some v => Some [v]
  end.

Definition handle_call_tool (server : Server) (name : string)
    (arguments : option (list (string * json))) : M (option (list TextContent)) :=
  let arguments := default [] arguments in
  if negb (truthy (conn_id server)) then
    ret (Some [failure "conn_id is required for database operations"])
  else
    try_except
      (if String.eqb name "pg_connect" then pg_connect server
       else if String.eqb name "pg_disconnect" then pg_disconnect server
       else if String.eqb name "pg_query" then
         if negb (has_key "query" arguments)
         then ret (Some [failure "SQL(postgreSQL) query is required"])
         else
           query <- getitem arguments "query" ;;
           r <- execute_query query (conn_id server) (query_params arguments) ;;
           ret (Some r)
       else if String.eqb name "pg_list_schemas" then
         r <- execute_query (JStr pg_list_schemas_query) (conn_id server) None ;;
         ret (Some r)
       else if String.eqb name "pg_list_tables" then
         let schema := get_default arguments "schema" (JStr "public") in
         r <- execute_query (JStr pg_list_tables_query) (conn_id server) (Some [schema]) ;;
         ret (Some r)
       else if String.eqb name "pg_list_table_metadata" then
         let schema := get_default arguments "schema" (JStr "public") in
         let table_name := get_default arguments "table_name" JNull in
         r <- execute_query (JStr pg_list_table_metadata_query) (conn_id server)
                (Some [schema; table_name]) ;;
         ret (Some r)
       else if String.eqb name "pg_list_columns_metadata" then
         let schema := get_default arguments "schema" (JStr "public") in
         table_name <- getitem arguments "table_name" ;;
         r <- execute_query (JStr pg_list_columns_metadata_query) (conn_id server)
                (Some [schema; table_name]) ;;
         ret (Some r)
       else if String.eqb name "pg_count_table_rows" then
         let schema := get_default arguments "schema" (JStr "public") in
         table_name <- getitem arguments "table_name" ;;
         r <- execute_query (JStr (pg_count_table_rows_query schema table_name))
                (conn_id server) None ;;
         ret (Some r)
       else if String.eqb name "pg_sample_table_rows" then
         let schema := get_default arguments "schema" (JStr "public") in
         table_name <- getitem arguments "table_name" ;;
         r <- execute_query (JStr (pg_sample_table_rows_query schema table_name))
                (conn_id server) None ;;
         ret (Some r)
       else ret (Some [mkTextContent "text" ("Unknown tool: " ++ name)]))
      (fun e => ret (Some [failure (exn_str e)])).

End PgServer.

(** ** [handle_list_tools] of [servers/pg/main.py] *)

(** [mcp.types.Tool], with the fields [handle_list_tools] sets *)
Record Tool : Type := mkTool {
  name : string;
  description : string;
  inputSchema : json
}.

Definition handle_list_tools : list Tool :=
  [
   {| name := "pg_connect";
      description :=
        "Initialize a connection to a PostgreSQL database using the pre-configured connection ID";
      inputSchema :=
        JDict
          [("type", JStr "object");
           ("properties", JDict []);
           ("description", JStr "No input parameters required as the connection ID is managed by the server")] |};
   {| name := "pg_disconnect";
      description :=
        "Close the connection to a PostgreSQL database using the pre-configured connection ID";
      inputSchema :=
        JDict
          [("type", JStr "object");
           ("properties", JDict []);
           ("description", JStr "No input parameters required as the connection ID is managed by the server")] |};
   {| name := "pg_query";
      description :=
        "Execute a read-only SQL query against a PostgreSQL database";
      inputSchema :=
        JDict
          [("type", JStr "object");
           ("properties", JDict
             [("query", JDict
                [("type", JStr "string");
                 ("description", JStr "SQL query to execute (must be read-only, e.g., SELECT statements)")]);
              ("params", JDict
                [("type", JStr "array");
                 ("items", JDict
                   [("type", JList [JStr "string"; JStr "number"; JStr "boolean"; JStr "null"])]);
                 ("description", JStr "Optional parameters for the SQL query");
                 ("default", JList [])])]);
           ("required", JList [JStr "query"])] |};
   {| name := "pg_list_schemas";
      description :=
        "List all schemas the current user has USAGE privilege on in the PostgreSQL database";
      inputSchema :=
        JDict
          [("type", JStr "object");
           ("properties", JDict []);
           ("description", JStr "No input parameters required as this tool uses the current user's privileges")] |};
   {| name := "pg_list_tables";
      description :=
        "List all tables in a given schema that the current user has SELECT privilege on in the PostgreSQL database";
      inputSchema :=
        JDict
          [("type", JStr "object");
           ("properties", JDict
             [("schema", JDict
                [("type", JStr "string");
                 ("description", JStr "Name of the schema to list tables from. Defaults to 'inst1' if not provided.");
                 ("default", JStr "inst1")])]);
           ("required", JList []);
           ("description", JStr "Schema name is optional; defaults to 'inst1'")] |};
   {| name := "pg_list_table_metadata";
      description :=
        "Get metadata (name, type, comment) of a specific table in a given schema in the PostgreSQL database, if the current user has SELECT privilege";
      inputSchema :=
        JDict
          [("type", JStr "object");
           ("properties", JDict
             [("schema", JDict
                [("type", JStr "string");
                 ("description", JStr "Name of the schema where the table is located. Defaults to 'inst1' if not provided.");
                 ("default", JStr "inst1")]);
              ("table_name", JDict
                [("type", JStr "string");
                 ("description", JStr "Name of the table to retrieve metadata for.")])]);
           ("required", JList [JStr "table_name"]);
           ("description", JStr "Returns table metadata (name, type, comment) for a specific table in a schema")] |};
   {| name := "pg_list_columns_metadata";
      description :=
        "Get metadata for all columns of a specific table in a given schema in the PostgreSQL database";
      inputSchema :=
        JDict
          [("type", JStr "object");
           ("properties", JDict
             [("schema", JDict
                [("type", JStr "string");
                 ("description", JStr "Name of the schema where the table is located. Defaults to 'inst1' if not provided.");
                 ("default", JStr "inst1")]);
              ("table_name", JDict
                [("type", JStr "string");
                 ("description", JStr "Name of the table to retrieve column metadata for.")])]);
           ("required", JList [JStr "table_name"]);
           ("description", JStr "Returns column metadata (name, type, length, nullability, default, comment) for a table in the given schema")] |};
   {| name := "pg_count_table_rows";
      description :=
        "Get the number of rows in a specific table within a given schema in the PostgreSQL database";
      inputSchema :=
        JDict
          [("type", JStr "object");
           ("properties", JDict
             [("schema", JDict
                [("type", JStr "string");
                 ("description", JStr "Name of the schema where the table is located. Defaults to 'inst1' if not provided.");
                 ("default", JStr "inst1")]);
              ("table_name", JDict
                [("type", JStr "string");
                 ("description", JStr "Name of the table to count rows from.")])]);
           ("required", JList [JStr "table_name"]);
           ("description", JStr "Returns the total number of rows in the specified table within the given schema")] |};
   {| name := "pg_sample_table_rows";
      description :=
        "Retrieve sample 3 rows from a specific table in a given schema in the PostgreSQL database";
      inputSchema :=
        JDict
          [("type", JStr "object");
           ("properties", JDict
             [("schema", JDict
                [("type", JStr "string");
                 ("description", JStr "Name of the schema where the table is located. Defaults to 'inst1' if not provided.");
                 ("default", JStr "inst1")]);
              ("table_name", JDict
                [("type", JStr "string");
                 ("description", JStr "Name of the table to retrieve sample rows from.")])]);
           ("required", JList [JStr "table_name"]);
           ("description", JStr "Returns the first 3 rows from the specified table in the given schema.")] |}
  ].

(** ** [servers/remote.py]: sessions and their transports *)

(** [s.split(sep)] for a separator of one character *)
Fixpoint str_split (sep : ascii) (s : string) : list string :=
  match s with
  | EmptyString => [EmptyString]
  | String c rest =>
      if Ascii.eqb c sep then EmptyString :: str_split sep rest
      else
        match str_split sep rest with
        | piece :: pieces => String c piece :: pieces
        | [] => [String c EmptyString]
        end
  end.

(** [s.endswith(suffix)] *)
Fixpoint endswith (s suffix : string) : bool :=
  String.eqb s suffix ||
  match s with
  | EmptyString => false
  | String _ rest => endswith rest suffix
  end.

(** The module globals of [remote.py] and the attributes of the one
    [SessionTimeoutMiddleware]. A transport is known by the number of its
    creation, a gauge by the value of each of its labels, a clock reading
    ([time.time()]) by its microseconds. *)
Record Gateway : Type := mkGateway {
  user_session_transports : gmap string nat;
  user_server_instances : gmap string Server;
  active_connections : gmap string Z;
  session_timestamps : gmap string Z;
  cleanup_task_started : bool;
  transports_made : nat
}.

Definition Gateway_init : Gateway :=
  {| user_session_transports := ∅;
     user_server_instances := ∅;
     active_connections := ∅;
     session_timestamps := ∅;
     cleanup_task_started := false;
     transports_made := 0 |}.

(** the value of [gauge.labels(server=label)] *)
Definition gauge_value (gauge : gmap string Z) (label : string) : Z :=
  default 0 (gauge !! label).

(** [gauge.labels(server=label).inc()] and [.dec()] *)
Definition inc (label : string) (gauge : gmap string Z) : gmap string Z :=
  <[label := gauge_value gauge label + 1]> gauge.

Definition dec (label : string) (gauge : gmap string Z) : gmap string Z :=
  <[label := gauge_value gauge label - 1]> gauge.

(** [create_server(user_id, conn_id)] of [servers/pg/main.py]: the two
    attributes it sets on the server object *)
Definition create_server (user_id : string) (conn_id : option string) : Server :=
  {| user_id := user_id; conn_id := conn_id |}.

(** [session_key_encoded.split(":")[-1] if ":" in session_key_encoded else None] *)
Definition conn_id_of (session_key_encoded : string) : option string :=
  if is_substring ":" session_key_encoded
  then Some (List.last (str_split ":" session_key_encoded) EmptyString)
  else None.

(** [handle_sse] up to [await server_instance.run(..)]: the transport is
    registered and the server instance of the session found or made.
    [user_id] is [request.state.user_id], a [str] for the tokens that
    [token_endpoint] issues for string IDs. *)
Definition handle_sse_enter (server_name session_key_encoded user_id : string)
    (gw : Gateway) : (nat * Server) * Gateway :=
  let session_key := server_name ++ ":" ++ session_key_encoded in
  let conn_id := conn_id_of session_key_encoded in
  let sse_transport := transports_made gw in
  match user_server_instances gw !! session_key with
  | None =>
      let server_instance := create_server user_id conn_id in
      ((sse_transport, server_instance),
       {| user_session_transports :=
            <[session_key := sse_transport]> (user_session_transports gw);
          user_server_instances :=
            <[session_key := server_instance]> (user_server_instances gw);
          active_connections := inc server_name (active_connections gw);
          session_timestamps := session_timestamps gw;
          cleanup_task_started := cleanup_task_started gw;
          transports_made := S (transports_made gw) |})
  | Some server_instance =>
      ((sse_transport, server_instance),
       {| user_session_transports :=
            <[session_key := sse_transport]> (user_session_transports gw);
          user_server_instances := user_server_instances gw;
          active_connections := active_connections gw;
          session_timestamps := session_timestamps gw;
          cleanup_task_started := cleanup_task_started gw;
          transports_made := S (transports_made gw) |})
  end.

(** the [finally] of [handle_sse], when the connection ends *)
Definition handle_sse_exit (server_name session_key_encoded : string) (gw : Gateway)
    : Gateway :=
  let session_key := server_name ++ ":" ++ session_key_encoded in
  if bool_decide (is_Some (user_session_transports gw !! session_key)) then
    {| user_session_transports := delete session_key (user_session_transports gw);
       user_server_instances := user_server_instances gw;
       active_connections := dec server_name (active_connections gw);
       session_timestamps := session_timestamps gw;
       cleanup_task_started := cleanup_task_started gw;
       transports_made := transports_made gw |}
  else gw.

(** what [handle_message] returns: its own response, or the
    [handle_post_message] of the transport of the session *)
Inductive MessageResult : Type :=
| PlainResponse (body : string) (status_code : Z)
| HandlePostMessage (transport : nat).

Definition handle_message (server_name session_key_encoded : string) (gw : Gateway)
    : MessageResult :=
  let session_key := server_name ++ ":" ++ session_key_encoded in
  match user_session_transports gw !! session_key with
  | None => PlainResponse "Session not found or expired" 404
  | Some transport => HandlePostMessage transport
  end.

(** ** [request.url.path]

    The routes are matched against [scope["path"]], the path of the request
    line with its percent-escapes decoded, and [path_params] are cut out of
    it. [request.url] is built from the scheme, the [Host] header and that
    path, and [request.url.path] is the path [urllib.parse.urlsplit] finds
    in the result: for a [Host] header that is a host name, what is left of
    [scope["path"]] once tabs, carriage returns and line feeds are dropped
    and the text is cut at the first [?] or [#]. *)
Definition unsafe_url_byte (c : ascii) : bool :=
  let n := N_of_ascii c in ((n =? 9) || (n =? 10) || (n =? 13))%N.

Definition url_cut (c : ascii) : bool := Ascii.eqb c "?" || Ascii.eqb c "#".

Fixpoint remove_unsafe (s : string) : string :=
  match s with
  | EmptyString => EmptyString
  | String c rest =>
      if unsafe_url_byte c then remove_unsafe rest else String c (remove_unsafe rest)
  end.

Fixpoint before_query_and_fragment (s : string) : string :=
  match s with
  | EmptyString => EmptyString
  | String c rest =>
      if url_cut c then EmptyString else String c (before_query_and_fragment rest)
  end.

Definition url_path (scope_path : string) : string :=
  before_query_and_fragment (remove_unsafe scope_path).

Module SessionTimeoutMiddleware.

(** [f"{path.split("/")[1]}:{path.split("/")[2]}"], or [None] where an
    index is out of range and [IndexError] is raised *)
Definition session_key_of (path : string) : option string :=
  let parts := str_split "/" path in
  match parts !! 1%nat with
  | Some server_name =>
      match parts !! 2%nat with
      | Some session_param => Some (server_name ++ ":" ++ session_param)
      | None => None
      end
  | None => None
  end.

Definition stamp (session_key : string) (now : Z) (gw : Gateway) : Gateway :=
  {| user_session_transports := user_session_transports gw;
     user_server_instances := user_server_instances gw;
     active_connections := active_connections gw;
     session_timestamps := <[session_key := now]> (session_timestamps gw);
     cleanup_task_started := cleanup_task_started gw;
     transports_made := transports_made gw |}.

(** [dispatch(request, call_next)] for a request with this method and
    path, when the clock reads [now] before [call_next] and [later] after
    it. [None] stands for the [IndexError] of a path with fewer than three
    parts. [cleanup_task] itself runs in turns of its own. *)
Definition dispatch {R} (method path : string) (now later : Z)
    (call_next : Gateway -> R * Gateway) (gw : Gateway) : option (R * Gateway) :=
  if existsb (String.eqb path) open_paths then Some (call_next gw)
  else
    match session_key_of path with
    | None => None
    | Some session_key =>
        let '(response, gw1) := call_next (stamp session_key now gw) in
        let gw2 :=
          if String.eqb method "POST" && endswith path "/messages/" then
            if bool_decide (is_Some (session_timestamps gw1 !! session_key))
            then stamp session_key later gw1
            else gw1
          else gw1 in
        let gw3 :=
          if truthy (Some session_key) && negb (cleanup_task_started gw2) then
            {| user_session_transports := user_session_transports gw2;
               user_server_instances := user_server_instances gw2;
               active_connections := active_connections gw2;
               session_timestamps := session_timestamps gw2;
               cleanup_task_started := true;
               transports_made := transports_made gw2 |}
          else gw2 in
        Some (response, gw3)
    end.

(** the body of [for key in expired_sessions]; [key] is a key of
    [session_timestamps], so the [del] finds it *)
Definition cleanup_key (key : string) (gw : Gateway) : Gateway :=
  if bool_decide (is_Some (user_session_transports gw !! key)) then
    {| user_session_transports := delete key (user_session_transports gw);
       user_server_instances := delete key (user_server_instances gw);
       active_connections :=
         dec (hd EmptyString (str_split ":" key)) (active_connections gw);
       session_timestamps := delete key (session_timestamps gw);
       cleanup_task_started := cleanup_task_started gw;
       transports_made := transports_made gw |}
  else gw.

Definition expired_sessions (timeout_seconds current_time : Z) (gw : Gateway)
    : list string :=
  map fst
    (filter (fun item => bool_decide (current_time - snd item > timeout_seconds * 1000000))
       (map_to_list (session_timestamps gw))).

(** one round of the [while True] of [cleanup_task], up to its [sleep] *)
Definition cleanup_round (timeout_seconds current_time : Z) (gw : Gateway) : Gateway :=
  foldl (fun acc key => cleanup_key key acc) gw
    (expired_sessions timeout_seconds current_time gw).

End SessionTimeoutMiddleware.

(** ** [token_endpoint] *)

(** [await request.json()]: the parsed body, or the message of the
    [JSONDecodeError] *)
Inductive RequestBody : Type :=
| NotJson (msg : string)
| Parsed (body : json).

(** [generate_jwt_token] on whatever value [token_endpoint] found under
    [user_id] *)
Definition generate_jwt_token_value (_jwt_secret : string) (user_id : json) (now : Z)
    : result PyJWT.Token :=
  let current_time := now in
  let payload :=
    [("user_id", PyJWT.Plain user_id);
     ("iat", PyJWT.Datetime current_time);
     ("exp", PyJWT.Datetime (current_time + hours 24))] in
  match PyJWT.encode payload _jwt_secret "HS256" with
  | Return token => Return token
  | Raise e => Raise (ValueError ("Failed to generate JWT token: " ++ exn_str e))
  end.

(** the answers of [token_endpoint]: [{"success": True, "jwt_token": ..}]
    with status 200, or an error object *)
Inductive TokenResponse : Type :=
| TokenIssued (jwt_token : PyJWT.Token)
| TokenError (content : json) (status_code : Z).

Definition token_endpoint (_jwt_secret : string) (request_body : RequestBody) (now : Z)
    : TokenResponse :=
  match request_body with
  | NotJson msg =>
      (* [JSONDecodeError] is a [ValueError] *)
      TokenError (JDict [("error", JStr msg)]) 400
  | Parsed (JDict body) =>
      if negb (truthy_value (default JNull (lookup_key "user_id" body)))
      then TokenError (JDict [("error", JStr "user_id is required")]) 400
      else
        match generate_jwt_token_value _jwt_secret
                (default JNull (lookup_key "user_id" body)) now with
        | Return jwt_token => TokenIssued jwt_token
        | Raise e => TokenError (JDict [("error", JStr (exn_str e))]) 400
        end
  | Parsed body =>
      (* [body.get] is an [AttributeError] *)
      TokenError
        (JDict [("error",
                 JStr ("'" ++ type_name body ++ "' object has no attribute 'get'"))])
        500
  end.

(** ** [server/tools]: the tools of the standalone server

    The standalone server keeps its [Database] in [mcp.state["db"]]; the
    tools take the connection ID as an argument, a [str] by their
    signature. *)
Module Tools.

Definition success : json := JDict [("success", JBool true)].

Definition failure (msg : string) : json :=
  JDict [("success", JBool false); ("error", JStr msg)].

(** [connect(conn_id)] of [tools/connection.py] *)
Definition connect (pg : Backend) (conn_id : string) : M json :=
  st <- get_state ;;
  early <- (if negb (in_pools (Some conn_id) (db st)) then
              try_except
                (initialize Standalone pg (Some conn_id) ;; ret None)
                (fun e =>
                   ret (Some (failure ("Failed to initialize connection pool: "
                                       ++ exn_str e))))
            else ret None) ;;
  match early with
  | Some answer => ret answer
  | None =>
      st <- get_state ;;
      present <- lift (py_in (Some conn_id) (_connection_map (db st))) ;;
      if present then ret success else ret (failure "Unknown connection ID")
  end.

(** [disconnect(conn_id)] of [tools/connection.py] *)
Definition disconnect (pg : Backend) (conn_id : string) : M json :=
  st <- get_state ;;
  if negb (in_pools (Some conn_id) (db st)) then ret (failure "Unknown connection ID")
  else
    try_except
      (pool <- pool_of (Some conn_id) ;;
       close_pool pg pool ;;
       del_pool conn_id ;;
       ret success)
      (fun e => ret (failure (exn_str e))).

(** [execute_query(query, conn_id, params)] of [tools/query.py]: the rows,
    or the exception of the query raised again. The [Database] object is
    truthy, so the first [raise] is never reached. *)
Definition execute_query (pg : Backend) (query : string) (conn_id : string)
    (params : option (list json)) : M (list pyobj) :=
  get_connection Standalone pg (Some conn_id) (fun conn =>
    run_on pg conn (JStr "SET TRANSACTION READ ONLY") [] ;;
    try_except
      (run_on pg conn (JStr query) (params_or_empty params))
      (fun e => raise e)).

Definition pg_query (pg : Backend) (query : string) (conn_id : string)
    (params : option (list json)) : M (list pyobj) :=
  execute_query pg query conn_id params.

Definition pg_explain (pg : Backend) (query : string) (conn_id : string)
    (params : option (list json)) : M (list pyobj) :=
  let explain_query := "EXPLAIN (FORMAT JSON) " ++ query in
  result <- execute_query pg explain_query conn_id params ;;
  ret result.

End Tools.

(** ** Notions used in the statements *)

(** the order [sorted] puts items in *)
Definition key_le {V} (p q : string * V) : Prop := String.leb (fst p) (fst q) = true.

(** the pool settings [initialize] asks for *)
Definition read_only_settings : list (string * string) :=
  [("default_transaction_read_only", "true")].

(** the state [close_one] leaves when [conn_id] maps to [pool] *)
Definition after_close_one (conn_id : string) (pool : nat) (st : State) : State :=
  {| db := {| _pools := delete conn_id (_pools (db st));
              _connection_map := _connection_map (db st);
              _last_config_hash := _last_config_hash (db st) |};
     pools_made := alter closed_pool pool (pools_made st);
     trace := trace st |}.

(** the state a [pool.close()] that raised leaves: the pool is closed, its
    entry is still in the pool map *)
Definition after_close_failed (pool : nat) (st : State) : State :=
  {| db := db st;
     pools_made := alter closed_pool pool (pools_made st);
     trace := trace st |}.

(** [pool.close()] would raise: the pool is open and the server fails to
    close it *)
Definition close_fails (pg : Backend) (pool : nat) (st : State) : option exn :=
  match pools_made st !! pool with
  | Some p => if closed p then None else close_error pg (dsn p)
  | None => None
  end.

Fixpoint after_close_each (keys : list string) (st : State) : State :=
  match keys with
  | [] => st
  | k :: rest =>
      after_close_each rest (after_close_one k (default 0%nat (_pools (db st) !! k)) st)
  end.

(** the state a successful [initialize] of a new ID leaves *)
Definition after_initialize (conn_id : string) (conn_str : json) (st : State) : State :=
  {| db := {| _pools := <[conn_id := length (pools_made st)]> (_pools (db st));
              _connection_map := _connection_map (db st);
              _last_config_hash := _last_config_hash (db st) |};
     pools_made := pools_made st ++ [mkPool conn_str 2 4 60 read_only_settings false];
     trace := trace st |}.

(** Two ways of giving [n] callers their turns: each caller runs to its end
    before the next is called, or every caller runs up to its [await]
    before any of them is resumed. *)
Definition one_by_one (n : nat) : list nat := flat_map (fun i => [i; i]) (seq 0 n).
Definition all_at_once (n : nat) : list nat := (seq 0 n ++ seq 0 n)%list.

(** a caller that ended with a connection of pool [pool] *)
Definition served_from (conn_str : json) (pool : nat) : Task :=
  Finished (Return (mkConnection pool conn_str read_only_settings)).

(** the claims of a token issued to [user_id] at clock [now] *)
Definition issued_payload (user_id : string) (now : Z) : list (string * json) :=
  [("user_id", JStr user_id);
   ("iat", JInt (PyJWT.timegm now));
   ("exp", JInt (PyJWT.timegm (now + hours 24)))].




(** the token [generate_jwt_token] returns *)
Definition issued_token (secret user_id : string) (now : Z) : PyJWT.Token :=
  PyJWT.Compact (Some "HS256") (JDict (issued_payload user_id now))
    (PyJWT.Hmac secret (PyJWT.signing_input "HS256" (JDict (issued_payload user_id now)))).

(** a pool whose connections start their transactions read-only *)
Definition read_only (p : Pool) : Prop :=
  lookup_key "default_transaction_read_only" (server_settings p) = Some "true".

Definition read_only_pools (st : State) : Prop := Forall read_only (pools_made st).

(** What happens in the process: a pass of the refresh loop, a call of a
    [Database] method, a tool call, or a turn of a caller on the event
    loop. *)
Inductive Event : Type :=
| Refresh (source : ConfigRead)
| Initialize (conn_id : option string)
| Acquire (conn_id : option string)
| Close (conn_id : option string)
| CallTool (server : Server) (name : string) (arguments : option (list (string * json)))
| Turn (caller : Task).

Definition perform (pg : Backend) (ev : Event) (st : State) : State :=
  match ev with
  | Refresh source => snd (_refresh_iteration source st)
  | Initialize conn_id => snd (initialize GuMCP pg conn_id st)
  | Acquire conn_id => snd (get_connection GuMCP pg conn_id ret st)
  | Close conn_id => snd (close pg conn_id st)
  | CallTool server name arguments => snd (handle_call_tool pg server name arguments st)
  | Turn caller => snd (resume GuMCP pg caller st)
  end.

(** the states of a process that started from [Database()] *)
Inductive reachable (pg : Backend) : State -> Prop :=
| reachable_start : reachable pg initial_state
| reachable_step st ev : reachable pg st -> reachable pg (perform pg ev st).

Definition set_read_only : json := JStr "SET TRANSACTION READ ONLY".

(** a method that keeps a property of the state, however it ends *)
Definition preserves (P : State -> Prop) {A} (m : M A) : Prop :=
  forall st, P st -> P (snd (m st)).

(** Every pool entry names a pool that exists and is open, no pool is the
    entry of two IDs, and every pool that is still open is the entry of
    some ID: the open pools and the IDs of the pool map are in one-to-one
    correspondence. *)
Definition pools_accounted (st : State) : Prop :=
  (forall k h, _pools (db st) !! k = Some h ->
               exists p, pools_made st !! h = Some p /\ closed p = false)
  /\ (forall k1 k2 h,
        _pools (db st) !! k1 = Some h -> _pools (db st) !! k2 = Some h -> k1 = k2)
  /\ (forall h p,
        pools_made st !! h = Some p -> closed p = false ->
        exists k, _pools (db st) !! k = Some h).

(** a server on which closing a pool never fails *)
Definition closes_cleanly (pg : Backend) : Prop :=
  forall conn_str, close_error pg conn_str = None.

(** an event that is a whole call, not one turn of a caller *)
Definition whole_call (ev : Event) : Prop :=
  match ev with
  | Turn _ => False
  | _ => True
  end.

(** the states reached when every call ends before the next begins *)
Inductive one_at_a_time (pg : Backend) : State -> Prop :=
| one_at_a_time_start : one_at_a_time pg initial_state
| one_at_a_time_step st ev :
    whole_call ev -> one_at_a_time pg st -> one_at_a_time pg (perform pg ev st).

(** ** More notions used in the statements *)

(** what [_refresh_loop] hands to [logger.error] for a list of reads *)
Definition refresh_errors (sources : list ConfigRead) : list string :=
  omap (fun source =>
          match source with
          | ReadFailed e => Some ("Error during config refresh: " ++ exn_str e)
          | _ => None
          end) sources.

(** the arguments the input schema of a tool marks as required *)
Definition required (tool : Tool) : list string :=
  match inputSchema tool with
  | JDict schema =>
      match lookup_key "required" schema with
      | Some (JList keys) =>
          omap (fun key => match key with JStr s => Some s | _ => None end) keys
      | _ => []
      end
  | _ => []
  end.

(** the names [handle_list_tools] offers *)
Definition tool_names : list string := map name handle_list_tools.

(** the answer is one JSON object: its text opens with a brace *)
Definition json_object_text (content : TextContent) : Prop :=
  exists rest, text content = String "{" rest.

(** a method that answers with nothing but one JSON object, if it returns *)
Definition answers_object (m : M (option (list TextContent))) : Prop :=
  forall st, match fst (m st) with
             | Return (Some [content]) => json_object_text content
             | Return _ => False
             | Raise _ => True
             end.

(** the text [handle_call_tool] has for a name it does not know *)
Definition unknown_tool (name : string) : TextContent :=
  mkTextContent "text" ("Unknown tool: " ++ name).

(** the hash kept in [_last_config_hash] is that of the document kept in
    [_connection_map]; before the first read there is neither *)
Definition snapshot_hashed (st : State) : Prop :=
  match _last_config_hash (db st) with
  | None => _connection_map (db st) = JDict []
  | Some h => h = _hash_config (_connection_map (db st))
  end.

(** one connection that comes and goes: [handle_sse] from start to end *)
Definition connect_and_leave (server_name session_key_encoded user_id : string)
    (gw : Gateway) : Gateway :=
  handle_sse_exit server_name session_key_encoded
    (snd (handle_sse_enter server_name session_key_encoded user_id gw)).

(** a session that [cleanup_task] removes: it has a transport and its
    timestamp is older than the timeout *)
Definition idle_session (timeout_seconds current_time : Z) (gw : Gateway) (key : string)
    : bool :=
  bool_decide (is_Some (user_session_transports gw !! key))
  && match session_timestamps gw !! key with
     | Some ts => bool_decide (current_time - ts > timeout_seconds * 1000000)
     | None => false
     end.

(** the answers of [execute_query] of [servers/pg/main.py]: the error as
    text, and the rows as text, or the error of the serializer where a value
    of the rows cannot be serialized *)
Definition error_text (e : exn) : TextContent :=
  mkTextContent "text"
    (dumps (JDict [("success", JBool false); ("error", JStr (exn_str e))]) false (Some 2%nat)).

Definition rows_text (records : list pyobj) : TextContent :=
  match serialize (PyList records) with
  | Return data =>
      mkTextContent "text"
        (dumps (JDict [("success", JBool true); ("data", data)]) false (Some 2%nat))
  | Raise e => error_text e
  end.

(** the same exception, up to the colon in the message of an unknown ID *)
Definition same_failure (standalone gumcp : exn) : Prop :=
  gumcp = standalone
  \/ exists conn_id,
       standalone = ValueError (unknown_connection_message Standalone conn_id)
       /\ gumcp = ValueError (unknown_connection_message GuMCP conn_id).

(** a text [urlsplit] leaves whole: no tab, carriage return or line feed,
    no [?] and no [#] *)
Fixpoint url_plain (s : string) : bool :=
  match s with
  | EmptyString => true
  | String c rest => negb (unsafe_url_byte c) && negb (url_cut c) && url_plain rest
  end.

(** a token signed with the secret over the given claims *)
Definition signed_token (secret : string) (claims : list (string * json)) : PyJWT.Token :=
  PyJWT.Compact (Some "HS256") (JDict claims)
    (PyJWT.Hmac secret (PyJWT.signing_input "HS256" (JDict claims))).

(** ** Sample data for the examples *)

(** servers that accept every connection and return no rows *)
Definition pg_up : Backend :=
  {| connect_error := fun _ => None;
     run := fun _ _ _ => Return [];
     close_error := fun _ => None |}.

Definition sample_config : json :=
  JDict [("db1", JStr "postgresql://reader@db1/app")].

(** the configuration has been read once *)
Definition loaded_state : State :=
  snd (_reload_config_if_changed (Loaded sample_config) initial_state).

(** ... then a caller has used [db1] *)
Definition open_state : State :=
  snd (get_connection GuMCP pg_up (Some "db1") ret loaded_state).

(** ... then [db1] has been taken out of the configuration file *)
Definition removed_state : State :=
  snd (_reload_config_if_changed (Loaded (JDict [])) open_state).

Definition sample_items : list (string * json) :=
  [("db1", JStr "postgresql://reader@db1/app");
   ("db2", JStr "postgresql://reader@db2/app")].

(** the same mapping, its keys listed the other way round *)
Definition sample_items_reordered : list (string * json) :=
  [("db2", JStr "postgresql://reader@db2/app");
   ("db1", JStr "postgresql://reader@db1/app")].

(** [open_state] after a second entry was added to the file *)
Definition applied_state : State :=
  snd (_reload_config_if_changed (Loaded (JDict sample_items)) open_state).

(** two callers of [db1] that both reached the [await] before either was
    resumed *)
Definition overlapped_state : State :=
  snd (event_loop GuMCP pg_up [0; 1; 0; 1]%nat
         ([Called (Some "db1"); Called (Some "db1")], loaded_state)).

(** * Properties *)

(** ** The model against the libraries' published test vectors *)

Example sha1_empty :
  SHA1.hexdigest EmptyString = "da39a3ee5e6b4b0d3255bfef95601890afd80709".
Proof. vm_compute. reflexivity. Qed.

Example sha1_abc :
  SHA1.hexdigest "abc" = "a9993e364706816aba3e25717850c26c9cd0d89d".
Proof. vm_compute. reflexivity. Qed.

Example sha1_two_blocks :
  SHA1.hexdigest "abcdbcdecdefdefgefghfghighijhijkijkljklmklmnlmnomnopnopq"
  = "84983e441c3bd26ebaae4aa1f95129e5e54670f1".
Proof. vm_compute. reflexivity. Qed.

Example dumps_sorts_nested_keys :
  dumps (JDict [("b", JInt 1); ("a", JList [JBool true; JNull; JDict [("z", JInt (-5)); ("y", JStr "k")]])])
        true None
  = "{" ++ dquote ++ "a" ++ dquote ++ ": [true, null, {" ++ dquote ++ "y" ++ dquote ++ ": "
      ++ dquote ++ "k" ++ dquote ++ ", " ++ dquote ++ "z" ++ dquote ++ ": -5}], "
      ++ dquote ++ "b" ++ dquote ++ ": 1}".
Proof. vm_compute. reflexivity. Qed.

(** ** Sorting the items of a [dict] *)

Lemma compare_refl_Eq (s : string) : String.compare s s = Eq.
Proof.
  induction s as [|c s IH]; simpl; [reflexivity|].
  unfold Ascii.compare. rewrite N.compare_refl. exact IH.
Qed.

Lemma compare_Lt_trans (s1 s2 s3 : string) :
  String.compare s1 s2 = Lt -> String.compare s2 s3 = Lt -> String.compare s1 s3 = Lt.
Proof.
  revert s2 s3. induction s1 as [|a s1 IH]; intros [|b s2] [|c s3]; simpl; try congruence.
  unfold Ascii.compare.
  destruct (N.compare_spec (N_of_ascii a) (N_of_ascii b)) as [Hab|Hab|Hab];
    destruct (N.compare_spec (N_of_ascii b) (N_of_ascii c)) as [Hbc|Hbc|Hbc];
    try congruence; intros H1 H2.
  - rewrite Hab, Hbc, N.compare_refl. eauto.
  - rewrite Hab. apply N.compare_lt_iff in Hbc. rewrite Hbc. reflexivity.
  - rewrite <- Hbc. apply N.compare_lt_iff in Hab. rewrite Hab. reflexivity.
  - assert (Hac : (N_of_ascii a < N_of_ascii c)%N) by lia.
    apply N.compare_lt_iff in Hac. rewrite Hac. reflexivity.
Qed.

Lemma leb_true_iff (s1 s2 : string) :
  String.leb s1 s2 = true <-> String.compare s1 s2 = Lt \/ s1 = s2.
Proof.
  unfold String.leb. split.
  - destruct (String.compare s1 s2) eqn:E; try discriminate; intros _.
    + right. apply String.compare_eq_iff. exact E.
    + left. reflexivity.
  - intros [->| ->]; [reflexivity|]. rewrite compare_refl_Eq. reflexivity.
Qed.

Lemma leb_trans (s1 s2 s3 : string) :
  String.leb s1 s2 = true -> String.leb s2 s3 = true -> String.leb s1 s3 = true.
Proof.
  rewrite !leb_true_iff. intros [H1| ->] [H2| ->]; eauto using compare_Lt_trans.
Qed.

#[local] Instance key_le_trans {V} : Transitive (@key_le V).
Proof. intros p q r. unfold key_le. apply leb_trans. Qed.

Lemma insert_item_perm {V} (p : string * V) l : insert_item p l ≡ₚ p :: l.
Proof.
  induction l as [|q l IH]; simpl; [reflexivity|].
  destruct (String.leb (fst p) (fst q)); [reflexivity|].
  rewrite IH. apply Permutation_swap.
Qed.

Lemma sorted_items_perm {V} (l : list (string * V)) : sorted_items l ≡ₚ l.
Proof.
  induction l as [|p l IH]; simpl; [reflexivity|].
  rewrite insert_item_perm. by f_equiv.
Qed.

Lemma insert_item_sorted {V} (p : string * V) l :
  Sorted key_le l -> Sorted key_le (insert_item p l).
Proof.
  induction 1 as [|q l Hl IH Hq]; simpl.
  - repeat constructor.
  - destruct (String.leb (fst p) (fst q)) eqn:E.
    + constructor; [by constructor|]. constructor. exact E.
    + constructor; [exact IH|].
      assert (Hqp : key_le q p).
      { unfold key_le. destruct (String.leb_total (fst p) (fst q)); congruence. }
      destruct Hq as [|r l Hr]; simpl.
      * constructor. exact Hqp.
      * destruct (String.leb (fst p) (fst r)); constructor; assumption.
Qed.

Lemma sorted_items_sorted {V} (l : list (string * V)) : Sorted key_le (sorted_items l).
Proof.
  induction l as [|p l IH]; simpl; [constructor|]. by apply insert_item_sorted.
Qed.

(** An item is determined by its key when the keys are distinct. *)
Lemma NoDup_keys_inj {V} (l : list (string * V)) p q :
  NoDup (map fst l) -> p ∈ l -> q ∈ l -> fst p = fst q -> p = q.
Proof.
  induction l as [|r l IH]; intros Hnd Hp Hq Hk; [by inv Hp|].
  simpl in Hnd. apply NoDup_cons in Hnd as [Hr Hnd].
  inv Hp; inv Hq; eauto.
  - exfalso. apply Hr. rewrite Hk. apply list_elem_of_fmap. eauto.
  - exfalso. apply Hr. rewrite <- Hk. apply list_elem_of_fmap. eauto.
Qed.

(** The sorted items depend on the mapping only, not on the order in which
    the document lists its keys. *)
Lemma sorted_items_order_independent {V} (l l' : list (string * V)) :
  NoDup (map fst l) -> l ≡ₚ l' -> sorted_items l = sorted_items l'.
Proof.
  intros Hnd Hperm.
  apply (Sorted_unique_strong key_le); try apply sorted_items_sorted.
  - intros p q Hp Hq Hpq Hqp.
    apply (NoDup_keys_inj l); [exact Hnd| | |].
    + by rewrite <- (sorted_items_perm l).
    + rewrite Hperm. by rewrite <- (sorted_items_perm l').
    + apply String.leb_antisym; assumption.
  - by rewrite !sorted_items_perm.
Qed.

(** Rendering the values before or after sorting gives the same list. *)
Lemma insert_item_render {V W} (g : V -> W) (p : string * V) l :
  insert_item (fst p, g (snd p)) (map (fun q => (fst q, g (snd q))) l)
  = map (fun q => (fst q, g (snd q))) (insert_item p l).
Proof.
  induction l as [|q l IH]; simpl; [reflexivity|].
  destruct (String.leb (fst p) (fst q)); simpl; [reflexivity|]. by rewrite IH.
Qed.

Lemma sorted_items_render {V W} (g : V -> W) (l : list (string * V)) :
  sorted_items (map (fun q => (fst q, g (snd q))) l)
  = map (fun q => (fst q, g (snd q))) (sorted_items l).
Proof.
  induction l as [|p l IH]; simpl; [reflexivity|].
  rewrite IH. apply insert_item_render.
Qed.

(** The hash of a mapping does not depend on the order of its keys. *)
Lemma _hash_config_order_independent (items items' : list (string * json)) :
  NoDup (map fst items) -> items ≡ₚ items' ->
  _hash_config (JDict items) = _hash_config (JDict items').
Proof.
  intros Hnd Hperm. unfold _hash_config, dumps. f_equal.
  destruct items as [|p items].
  { apply Permutation_nil in Hperm. by subst. }
  destruct items' as [|p' items'].
  { symmetry in Hperm. by apply Permutation_nil_cons in Hperm. }
  assert (E : sorted_items (map (fun q => (fst q, encode true None 1 (snd q))) (p :: items))
             = sorted_items (map (fun q => (fst q, encode true None 1 (snd q))) (p' :: items'))).
  { apply sorted_items_order_independent.
    - rewrite <- list_fmap_compose. exact Hnd.
    - by apply fmap_Permutation. }
  cbn [encode]. by rewrite E.
Qed.

(** ** The configuration refresh *)

Ltac run_monad :=
  unfold bind, ret, raise, get_state, lift, set_db; simpl.

Lemma reload_same_hash (content : json) (st : State) :
  _last_config_hash (db st) = Some (_hash_config content) ->
  _reload_config_if_changed (Loaded content) st = (Return tt, st).
Proof.
  intros H. unfold _reload_config_if_changed. run_monad.
  rewrite bool_decide_eq_true_2; [reflexivity | by rewrite H].
Qed.

(** C2. Re-reading a configuration whose canonical hash is the last applied
    one changes nothing: the reload returns with the connection map, the
    stored hash and the pools (the whole state) as they were and nothing is
    logged; and the hash is canonical, so a document listing the same
    mapping with its keys in another order is such a re-read. *)
Theorem reload_unchanged_content_is_noop (st : State) (content : json) :
  _last_config_hash (db st) = Some (_hash_config content) ->
  _reload_config_if_changed (Loaded content) st = (Return tt, st)
  /\ _refresh_iteration (Loaded content) st = (None, st)
  /\ (forall items items',
        content = JDict items -> NoDup (map fst items) -> items ≡ₚ items' ->
        _hash_config (JDict items') = _hash_config content
        /\ _reload_config_if_changed (Loaded (JDict items')) st = (Return tt, st)).
Proof.
  intros H. split; [by apply reload_same_hash|].
  split; [unfold _refresh_iteration; by rewrite reload_same_hash|].
  intros items items' -> Hnd Hperm.
  pose proof (_hash_config_order_independent items items' Hnd Hperm) as E.
  split; [by symmetry|]. apply reload_same_hash. by rewrite <- E.
Qed.

Lemma reload_unchanged_content_is_noop_witness :
  _last_config_hash (db applied_state) = Some (_hash_config (JDict sample_items))
  /\ _reload_config_if_changed (Loaded (JDict sample_items_reordered)) applied_state
     = (Return tt, applied_state).
Proof.
  assert (H : _last_config_hash (db applied_state)
              = Some (_hash_config (JDict sample_items)))
    by (vm_compute; reflexivity).
  split; [exact H|].
  refine (proj2 (proj2 (proj2
    (reload_unchanged_content_is_noop applied_state (JDict sample_items) H))
    sample_items sample_items_reordered eq_refl _ _)).
  - apply (bool_decide_unpack _). vm_compute. exact I.
  - apply Permutation_swap.
Defined.

(** C4, as the code has it. One pass of the refresh loop never touches the
    pools, and it keeps the previous snapshot when the file is missing or
    cannot be read or parsed (the latter is logged). A document that parses
    is applied whatever its shape: the stored hash becomes its hash and,
    unless that was the stored hash already, the connection map becomes the
    document itself; nothing is logged. *)
Theorem refresh_applies_any_parsed_document (source : ConfigRead) (st : State) :
  let logged := fst (_refresh_iteration source st) in
  let st' := snd (_refresh_iteration source st) in
  _pools (db st') = _pools (db st)
  /\ pools_made st' = pools_made st
  /\ trace st' = trace st
  /\ match source with
     | NotFound => logged = None /\ st' = st
     | ReadFailed e =>
         logged = Some ("Error during config refresh: " ++ exn_str e) /\ st' = st
     | Loaded content =>
         logged = None
         /\ _last_config_hash (db st') = Some (_hash_config content)
         /\ _connection_map (db st')
            = if bool_decide (_last_config_hash (db st) = Some (_hash_config content))
              then _connection_map (db st) else content
     end.
Proof.
  destruct source as [|e|content]; simpl; try done.
  unfold _refresh_iteration, _reload_config_if_changed. run_monad.
  destruct (decide (Some (_hash_config content) = _last_config_hash (db st))) as [E|E].
  - rewrite bool_decide_eq_true_2 by done. simpl.
    rewrite bool_decide_eq_true_2 by done. done.
  - rewrite bool_decide_eq_false_2 by done. simpl.
    rewrite bool_decide_eq_false_2 by done. done.
Qed.

(** C4 as stated fails: a JSON array is not a mapping, yet the first pass
    that reads it installs it as the connection map, stores its hash and
    logs no failure. *)
Lemma refresh_installs_json_array :
  _refresh_iteration (Loaded (JList [JStr "db1"])) loaded_state
  = (None,
     {| db := {| _pools := ∅;
                 _connection_map := JList [JStr "db1"];
                 _last_config_hash := Some "91e44ef71894ad6ac070f5beaa5d1e81db59ad3f" |};
        pools_made := [];
        trace := [] |})
  /\ _connection_map (db loaded_state) = sample_config.
Proof. vm_compute. split; reflexivity. Qed.

(** ** Acquiring a connection *)

Ltac mstep := unfold bind, ret, raise, get_state, lift, set_db; cbn beta iota.

(** [get_connection] on an ID whose pool is open: the connection map is
    not looked at. *)
Lemma get_connection_with_pool (variant : Variant) (pg : Backend) {A}
    (body : Connection -> M A) (st : State) (k : string) (h : nat) (p : Pool) :
  _pools (db st) !! k = Some h ->
  pools_made st !! h = Some p ->
  closed p = false ->
  get_connection variant pg (Some k) body st
  = body (mkConnection h (dsn p) (server_settings p)) st.
Proof.
  intros Hh Hp Hc. unfold get_connection, pool_of, acquire. mstep.
  unfold in_pools. rewrite bool_decide_eq_true_2 by eauto.
  cbn [negb]. by rewrite Hh, Hp, Hc.
Qed.

(** C1, as the code has it. A connection ID that is not in the connection
    map and has no pool in the pool map cannot be acquired: the call raises
    [ValueError] -- naming the ID, or asking for one when the ID is [None]
    or empty -- before the body runs, and leaves the whole state, the pool
    map included, as it was. When the ID still has an open pool, the body
    runs with a connection of that pool. *)
Theorem get_connection_unknown_identifier
    (variant : Variant) (pg : Backend) {A} (body : Connection -> M A)
    (st : State) (conn_id : option string) :
  py_in conn_id (_connection_map (db st)) = Return false ->
  (in_pools conn_id (db st) = false ->
   get_connection variant pg conn_id body st
   = (Raise (ValueError (if truthy conn_id
                         then unknown_connection_message variant conn_id
                         else "Connection ID is required")), st))
  /\ (forall k h p,
        conn_id = Some k ->
        _pools (db st) !! k = Some h ->
        pools_made st !! h = Some p ->
        closed p = false ->
        get_connection variant pg conn_id body st
        = body (mkConnection h (dsn p) (server_settings p)) st).
Proof.
  intros Hmap. split.
  - intros Hpools.
    unfold get_connection, initialize, initialize_begin, get_connection_string.
    unfold bind, ret, raise, get_state, lift. cbn beta iota.
    rewrite Hpools. cbn [negb].
    destruct conn_id as [k|]; [|reflexivity].
    destruct (truthy (Some k)); cbn [negb]; [|reflexivity].
    rewrite Hpools. cbn [negb]. rewrite Hmap. reflexivity.
  - intros k h p -> Hh Hp Hc. by apply get_connection_with_pool.
Qed.

Lemma get_connection_unknown_identifier_witness :
  get_connection GuMCP pg_up (Some "db9") ret loaded_state
  = (Raise (ValueError "Unknown connection ID db9"), loaded_state).
Proof.
  exact (proj1 (get_connection_unknown_identifier GuMCP pg_up ret loaded_state (Some "db9")
                  eq_refl) eq_refl).
Defined.

(** C1 as stated fails: [db1] is no longer in the connection map, but its
    pool is still open, and the call hands out a connection of that pool. *)
Lemma get_connection_absent_identifier_open_pool :
  py_in (Some "db1") (_connection_map (db removed_state)) = Return false
  /\ get_connection GuMCP pg_up (Some "db1") ret removed_state
     = (Return {| conn_pool := 0;
                  conn_dsn := JStr "postgresql://reader@db1/app";
                  conn_settings := [("default_transaction_read_only", "true")] |},
        removed_state).
Proof. vm_compute. split; reflexivity. Qed.

(** ** Closing a pool *)

Lemma close_pool_run (pg : Backend) (h : nat) (st : State) :
  close_pool pg h st
  = (match close_fails pg h st with Some e => Raise e | None => Return tt end,
     after_close_failed h st).
Proof.
  unfold close_pool, close_fails, after_close_failed.
  destruct (pools_made st !! h) as [p|]; [|reflexivity].
  destruct (closed p); [reflexivity|]. by destruct (close_error pg (dsn p)).
Qed.

Lemma close_one_run (pg : Backend) (k : string) (h : nat) (st : State) :
  _pools (db st) !! k = Some h ->
  close_one pg k st
  = match close_fails pg h st with
    | Some e => (Raise e, after_close_failed h st)
    | None => (Return tt, after_close_one k h st)
    end.
Proof.
  intros H. unfold close_one, pool_of, del_pool. mstep.
  rewrite H. cbn beta iota. rewrite close_pool_run.
  destruct (close_fails pg h st); [reflexivity|].
  cbn [after_close_failed db]. rewrite H. reflexivity.
Qed.

Lemma close_fails_after_close (pg : Backend) (k : string) (h h' : nat) (st : State) :
  close_fails pg h st = None ->
  close_fails pg h (after_close_one k h' st) = None.
Proof.
  unfold close_fails. cbn [after_close_one pools_made].
  destruct (decide (h' = h)) as [->|Hne].
  - rewrite list_lookup_alter_eq. by destruct (pools_made st !! h).
  - by rewrite list_lookup_alter_ne.
Qed.

Lemma after_close_each_absent keys : forall st k,
  _pools (db st) !! k = None -> _pools (db (after_close_each keys st)) !! k = None.
Proof.
  induction keys as [|k' keys IH]; intros st k H; simpl; [exact H|].
  apply IH. simpl. destruct (decide (k' = k)) as [->|Hne].
  - apply lookup_delete_eq.
  - by rewrite lookup_delete_ne.
Qed.

Lemma after_close_each_deleted keys : forall st k,
  k ∈ keys -> _pools (db (after_close_each keys st)) !! k = None.
Proof.
  induction keys as [|k' keys IH]; intros st k Hin; [by inv Hin|]. simpl.
  inv Hin; [|by apply IH].
  apply after_close_each_absent. simpl. apply lookup_delete_eq.
Qed.

Lemma after_close_each_length keys : forall st,
  length (pools_made (after_close_each keys st)) = length (pools_made st).
Proof.
  induction keys as [|k keys IH]; intros st; simpl; [reflexivity|].
  rewrite IH. simpl. apply length_alter.
Qed.

Lemma after_close_each_config keys : forall st,
  _connection_map (db (after_close_each keys st)) = _connection_map (db st)
  /\ _last_config_hash (db (after_close_each keys st)) = _last_config_hash (db st)
  /\ trace (after_close_each keys st) = trace st.
Proof.
  induction keys as [|k keys IH]; intros st; simpl; [done|].
  destruct (IH (after_close_one k (default 0%nat (_pools (db st) !! k)) st)) as (-> & -> & ->).
  done.
Qed.

Lemma alter_closed_stays (l : list Pool) (h i : nat) :
  (exists p, l !! i = Some p /\ closed p = true) ->
  exists p, alter closed_pool h l !! i = Some p /\ closed p = true.
Proof.
  intros (p & Hp & Hc). destruct (decide (h = i)) as [->|Hne].
  - exists (closed_pool p). split; [|reflexivity].
    rewrite list_lookup_alter_eq, Hp. reflexivity.
  - exists p. split; [|exact Hc]. by rewrite list_lookup_alter_ne.
Qed.

Lemma after_close_each_stays keys : forall st i,
  (exists p, pools_made st !! i = Some p /\ closed p = true) ->
  exists p, pools_made (after_close_each keys st) !! i = Some p /\ closed p = true.
Proof.
  induction keys as [|k keys IH]; intros st i H; simpl; [exact H|].
  apply IH. simpl. by apply alter_closed_stays.
Qed.

Lemma alter_closed_here (l : list Pool) h :
  (h < length l)%nat -> exists p, alter closed_pool h l !! h = Some p /\ closed p = true.
Proof.
  intros Hlt. destruct (lookup_lt_is_Some_2 l h Hlt) as [p Hp].
  exists (closed_pool p). split; [|reflexivity].
  rewrite list_lookup_alter_eq, Hp. reflexivity.
Qed.

Lemma after_close_each_closes keys : forall st k h,
  NoDup keys -> k ∈ keys -> _pools (db st) !! k = Some h -> (h < length (pools_made st))%nat ->
  exists p, pools_made (after_close_each keys st) !! h = Some p /\ closed p = true.
Proof.
  induction keys as [|k' keys IH]; intros st k h Hnd Hin Hk Hlt; [by inv Hin|].
  apply NoDup_cons in Hnd as [Hk' Hnd]. simpl.
  inv Hin.
  - rewrite Hk. simpl. apply after_close_each_stays. simpl. by apply alter_closed_here.
  - assert (k' <> k) by (intros ->; contradiction).
    apply (IH _ k); [done|done| |].
    + simpl. by rewrite lookup_delete_ne.
    + simpl. by rewrite length_alter.
Qed.

(** closing one pool after the other: all of them, when none fails *)
Lemma close_each_run pg keys : forall st,
  NoDup keys -> (forall k, k ∈ keys -> is_Some (_pools (db st) !! k)) ->
  (forall k h, k ∈ keys -> _pools (db st) !! k = Some h -> close_fails pg h st = None) ->
  close_each pg keys st = (Return tt, after_close_each keys st).
Proof.
  induction keys as [|k keys IH]; intros st Hnd Hall Hok; simpl; [reflexivity|].
  apply NoDup_cons in Hnd as [Hk Hnd].
  destruct (Hall k) as [h Hh]; [by left|].
  unfold bind. rewrite (close_one_run pg k h st Hh), (Hok k h) by (done || by left).
  rewrite Hh. simpl.
  apply IH; [exact Hnd| |].
  - intros k' Hk'. simpl. rewrite lookup_delete_ne; [|by intros ->].
    apply Hall. by right.
  - intros k' h' Hk'. cbn [after_close_one db _pools].
    rewrite lookup_delete_ne; [|by intros ->]. intros Hh'.
    apply close_fails_after_close.
    apply (Hok k' h'); [by right|exact Hh'].
Qed.

(** ... and up to the first that fails *)
Lemma close_each_returned pg keys : forall st st',
  NoDup keys -> (forall k, k ∈ keys -> is_Some (_pools (db st) !! k)) ->
  close_each pg keys st = (Return tt, st') -> st' = after_close_each keys st.
Proof.
  induction keys as [|k keys IH]; intros st st' Hnd Hall; simpl; [by intros [= <-]|].
  apply NoDup_cons in Hnd as [Hk Hnd].
  destruct (Hall k) as [h Hh]; [by left|].
  unfold bind. rewrite (close_one_run pg k h st Hh).
  destruct (close_fails pg h st); [discriminate|]. rewrite Hh. simpl.
  apply IH; [exact Hnd|].
  intros k' Hk'. simpl. rewrite lookup_delete_ne; [|by intros ->].
  apply Hall. by right.
Qed.

Lemma map_keys_NoDup (m : gmap string nat) : NoDup (map fst (map_to_list m)).
Proof. apply NoDup_fst_map_to_list. Qed.

Lemma map_keys_elem (m : gmap string nat) k :
  k ∈ map fst (map_to_list m) <-> is_Some (m !! k).
Proof.
  rewrite list_elem_of_fmap. split.
  - intros ([k' h] & -> & Hin). apply elem_of_map_to_list in Hin. eauto.
  - intros [h Hh]. exists (k, h). split; [done|]. by apply elem_of_map_to_list.
Qed.

(** [close(conn_id)] of a non-empty ID that has a pool is [close_one] *)
Lemma close_is_close_one (pg : Backend) (st : State) (id : string) (h : nat) :
  truthy (Some id) = true ->
  _pools (db st) !! id = Some h ->
  close pg (Some id) st = close_one pg id st.
Proof.
  intros Ht Hh. unfold close. rewrite Ht. mstep.
  unfold in_pools. by rewrite bool_decide_eq_true_2 by eauto.
Qed.

(** what a [close(conn_id)] that returned has done to an ID that had a
    pool *)
Lemma close_run (pg : Backend) (st st1 : State) (id : string) (h : nat) :
  _pools (db st) !! id = Some h ->
  close pg (Some id) st = (Return tt, st1) ->
  _pools (db st1) !! id = None
  /\ _connection_map (db st1) = _connection_map (db st)
  /\ _last_config_hash (db st1) = _last_config_hash (db st)
  /\ trace st1 = trace st
  /\ length (pools_made st1) = length (pools_made st)
  /\ ((h < length (pools_made st))%nat ->
      exists p, pools_made st1 !! h = Some p /\ closed p = true)
  /\ (truthy (Some id) = true -> st1 = after_close_one id h st).
Proof.
  intros Hh. destruct (truthy (Some id)) eqn:Ht.
  - rewrite (close_is_close_one pg st id h Ht Hh), (close_one_run pg id h st Hh).
    destruct (close_fails pg h st); [discriminate|]. intros [= <-]. simpl.
    rewrite lookup_delete_eq, length_alter.
    repeat split; try done. intros Hlt. by apply alter_closed_here.
  - unfold close. rewrite Ht. mstep. intros Hrun.
    apply close_each_returned in Hrun;
      [|apply map_keys_NoDup|by intros k ?%map_keys_elem]. subst st1.
    destruct (after_close_each_config (map fst (map_to_list (_pools (db st)))) st)
      as (E1 & E2 & E3).
    rewrite after_close_each_length.
    repeat split; try done.
    + apply after_close_each_deleted. apply map_keys_elem. eauto.
    + intros Hlt. apply (after_close_each_closes _ st id h); try done.
      * apply map_keys_NoDup.
      * apply map_keys_elem. eauto.
Qed.

(** [get_connection] on an ID without a pool, case by case *)
Lemma get_connection_without_pool (variant : Variant) (pg : Backend) {A}
    (body : Connection -> M A) (st : State) (id : string) :
  _pools (db st) !! id = None ->
  get_connection variant pg (Some id) body st =
    if negb (truthy (Some id))
    then (Raise (ValueError "Connection ID is required"), st)
    else
      match py_in (Some id) (_connection_map (db st)) with
      | Raise e => (Raise e, st)
      | Return false =>
          (Raise (ValueError (unknown_connection_message variant (Some id))), st)
      | Return true =>
          match py_getitem (_connection_map (db st)) (Some id) with
          | Raise e => (Raise e, st)
          | Return conn_str =>
              match connect_error pg conn_str with
              | Some e => (Raise e, st)
              | None =>
                  body (mkConnection (length (pools_made st)) conn_str read_only_settings)
                       (after_initialize id conn_str st)
              end
          end
      end.
Proof.
  intros Hnone.
  assert (Hin : in_pools (Some id) (db st) = false).
  { unfold in_pools. apply bool_decide_eq_false_2. rewrite Hnone. by intros [? ?]. }
  unfold get_connection, initialize, initialize_begin, get_connection_string.
  mstep. rewrite Hin. cbn [negb].
  destruct (truthy (Some id)); cbn [negb]; [|reflexivity].
  rewrite Hin. cbn [negb].
  destruct (py_in (Some id) (_connection_map (db st))) as [[|]|e]; cbn [negb]; try reflexivity.
  destruct (py_getitem (_connection_map (db st)) (Some id)) as [conn_str|e]; [|reflexivity].
  unfold initialize_finish, create_pool, store_pool, pool_of, acquire. mstep. cbn [fst snd].
  destruct (connect_error pg conn_str); [reflexivity|].
  cbn [db _pools pools_made]. rewrite lookup_insert_eq.
  cbn [db _pools pools_made trace]. rewrite list_lookup_middle by reflexivity. reflexivity.
Qed.

(** ** Callers that overlap *)

Lemma event_loop_cons variant pg i schedule cfg :
  event_loop variant pg (i :: schedule) cfg
  = event_loop variant pg schedule (run_task variant pg i cfg).
Proof. reflexivity. Qed.

Lemma event_loop_app variant pg s1 s2 cfg :
  event_loop variant pg (s1 ++ s2)%list cfg
  = event_loop variant pg s2 (event_loop variant pg s1 cfg).
Proof. unfold event_loop. apply foldl_app. Qed.

(** the turn of the caller that stands after [before] *)
Lemma run_task_middle variant pg (before after : list Task) t t' st st' :
  resume variant pg t st = (t', st') ->
  run_task variant pg (length before) ((before ++ t :: after)%list, st)
  = ((before ++ t' :: after)%list, st').
Proof.
  intros H. unfold run_task. cbn [fst snd].
  rewrite list_lookup_middle by reflexivity. rewrite H.
  rewrite insert_app_r_alt by lia. rewrite Nat.sub_diag. reflexivity.
Qed.

Lemma resume_awaiting variant pg (st : State) (id : string) (conn_str : json) :
  connect_error pg conn_str = None ->
  resume variant pg (AwaitingPool (Some id) (id, conn_str)) st
  = (Finished (Return (mkConnection (length (pools_made st)) conn_str read_only_settings)),
     after_initialize id conn_str st).
Proof.
  intros Hup. unfold resume, initialize_finish, create_pool, store_pool, checkout,
    pool_of, acquire.
  mstep. cbn [fst snd]. rewrite Hup.
  cbn [db _pools pools_made trace]. rewrite lookup_insert_eq.
  cbn [db _pools pools_made trace]. rewrite list_lookup_middle by reflexivity.
  reflexivity.
Qed.

Lemma resume_called_existing variant pg (st : State) (id : string) (h : nat) (p : Pool) :
  _pools (db st) !! id = Some h ->
  pools_made st !! h = Some p ->
  closed p = false ->
  resume variant pg (Called (Some id)) st
  = (Finished (Return (mkConnection h (dsn p) (server_settings p))), st).
Proof.
  intros Hh Hp Hc. unfold resume, in_pools.
  rewrite bool_decide_eq_true_2 by eauto. cbn [negb].
  unfold checkout, pool_of, acquire. mstep. rewrite Hh, Hp, Hc. reflexivity.
Qed.

Section SameIdentifier.

Variables (variant : Variant) (pg : Backend) (id : string) (conn_str : json).
Hypothesis id_truthy : truthy (Some id) = true.
Hypothesis server_up : connect_error pg conn_str = None.

Local Abbreviation called := (Called (Some id)).
Local Abbreviation awaiting := (AwaitingPool (Some id) (id, conn_str)).
Local Abbreviation served := (served_from conn_str).

(** A caller that finds no pool and a known ID stops at the [await]. *)
Lemma resume_called_new (st : State) :
  _pools (db st) !! id = None ->
  py_in (Some id) (_connection_map (db st)) = Return true ->
  py_getitem (_connection_map (db st)) (Some id) = Return conn_str ->
  resume variant pg called st = (awaiting, st).
Proof.
  intros Hnone Hin Hget.
  assert (Hp : in_pools (Some id) (db st) = false).
  { unfold in_pools. apply bool_decide_eq_false_2. rewrite Hnone. by intros [? ?]. }
  unfold resume. rewrite Hp. cbn [negb].
  unfold initialize_begin, get_connection_string. mstep.
  rewrite id_truthy. cbn [negb]. rewrite Hp. cbn [negb].
  rewrite Hin. cbn [negb]. rewrite Hget. reflexivity.
Qed.

Lemma begin_all m : forall (st : State) (before : list Task),
  _pools (db st) !! id = None ->
  py_in (Some id) (_connection_map (db st)) = Return true ->
  py_getitem (_connection_map (db st)) (Some id) = Return conn_str ->
  event_loop variant pg (seq (length before) m) ((before ++ replicate m called)%list, st)
  = ((before ++ replicate m awaiting)%list, st).
Proof.
  induction m as [|m IH]; intros st before Hnone Hin Hget; [reflexivity|].
  cbn [seq replicate]. rewrite event_loop_cons.
  rewrite (run_task_middle _ _ _ _ _ awaiting st st) by (by apply resume_called_new).
  rewrite !(cons_middle _ before), !(app_assoc before).
  replace (S (length before)) with (length (before ++ [awaiting])%list)
    by (rewrite length_app; simpl; lia).
  by apply IH.
Qed.

Lemma finish_all m : forall (st : State) (before : list Task),
  event_loop variant pg (seq (length before) m) ((before ++ replicate m awaiting)%list, st)
  = ((before ++ map served (seq (length (pools_made st)) m))%list,
     Nat.iter m (after_initialize id conn_str) st).
Proof.
  induction m as [|m IH]; intros st before; [reflexivity|].
  cbn [seq replicate map]. rewrite event_loop_cons.
  rewrite (run_task_middle _ _ _ _ _ (served (length (pools_made st))) st
             (after_initialize id conn_str st)) by (by apply resume_awaiting).
  rewrite !(cons_middle _ before), !(app_assoc before).
  replace (S (length before)) with (length (before ++ [served (length (pools_made st))])%list)
    by (rewrite length_app; simpl; lia).
  rewrite IH. rewrite Nat.iter_succ_r. do 3 f_equal.
  simpl. rewrite length_app. simpl. f_equal. lia.
Qed.

Lemma serve_all m : forall (st : State) (before : list Task) (h : nat),
  _pools (db st) !! id = Some h ->
  pools_made st !! h = Some (mkPool conn_str 2 4 60 read_only_settings false) ->
  event_loop variant pg (flat_map (fun i => [i; i]) (seq (length before) m))
    ((before ++ replicate m called)%list, st)
  = ((before ++ replicate m (served h))%list, st).
Proof.
  induction m as [|m IH]; intros st before h Hh Hp; [reflexivity|].
  cbn [seq replicate flat_map app]. rewrite !event_loop_cons.
  rewrite (run_task_middle _ _ _ _ _ (served h) st st)
    by (by apply (resume_called_existing _ _ _ _ _ _ Hh Hp)).
  rewrite (run_task_middle _ _ _ _ _ (served h) st st) by reflexivity.
  rewrite !(cons_middle _ before), !(app_assoc before).
  replace (S (length before)) with (length (before ++ [served h])%list)
    by (rewrite length_app; simpl; lia).
  by apply IH.
Qed.

Lemma length_pools_after_initialize (st : State) n :
  length (pools_made (Nat.iter n (after_initialize id conn_str) st))
  = (length (pools_made st) + n)%nat.
Proof.
  induction n as [|n IH]; simpl; [lia|]. rewrite length_app, IH. simpl. lia.
Qed.

(** C5, as the code has it. [initialize] holds no lock: between its
    membership test and the assignment of the pool lies the [await] of
    [create_pool], and a caller resumed from it constructs and stores a pool
    whatever the pool map holds by then. So callers of one ID that has no
    pool yet construct exactly one pool when they run one after the other
    (the first constructs it, the others find it), and as many pools as
    there are callers when all of them reach the [await] before any is
    resumed; each is then served from the pool it constructed itself and the
    map keeps the pool stored last. *)
Theorem callers_of_one_identifier (st : State) (n : nat) :
  _pools (db st) !! id = None ->
  py_in (Some id) (_connection_map (db st)) = Return true ->
  py_getitem (_connection_map (db st)) (Some id) = Return conn_str ->
  let callers := replicate n called in
  let base := length (pools_made st) in
  ((0 < n)%nat ->
     event_loop variant pg (one_by_one n) (callers, st)
     = (replicate n (served base), after_initialize id conn_str st)
     /\ length (pools_made (after_initialize id conn_str st)) = (base + 1)%nat)
  /\ event_loop variant pg (all_at_once n) (callers, st)
     = (map served (seq base n), Nat.iter n (after_initialize id conn_str) st)
  /\ length (pools_made (Nat.iter n (after_initialize id conn_str) st)) = (base + n)%nat
  /\ _pools (db (Nat.iter n (after_initialize id conn_str) st)) !! id
     = match n with O => None | S m => Some (base + m)%nat end
  /\ (forall st', resume variant pg awaiting st'
        = (served (length (pools_made st')), after_initialize id conn_str st')).
Proof.
  intros Hnone Hin Hget callers base. repeat split.
  - destruct n as [|m]; [lia|]. unfold one_by_one, callers.
    cbn [seq replicate flat_map app]. rewrite !event_loop_cons.
    pose proof (run_task_middle variant pg [] (replicate m called) called awaiting st st
                  (resume_called_new st Hnone Hin Hget)) as E1.
    pose proof (run_task_middle variant pg [] (replicate m called) awaiting (served base) st _
                  (resume_awaiting variant pg st id conn_str server_up)) as E2.
    cbn [length app] in E1, E2. rewrite E1, E2.
    apply (serve_all m (after_initialize id conn_str st) [served base] base).
    + simpl. apply lookup_insert_eq.
    + simpl. by apply list_lookup_middle.
  - simpl. rewrite length_app. reflexivity.
  - unfold all_at_once, callers. rewrite event_loop_app.
    pose proof (begin_all n st [] Hnone Hin Hget) as E1.
    pose proof (finish_all n st []) as E2.
    cbn [length app] in E1, E2. by rewrite E1, E2.
  - apply length_pools_after_initialize.
  - destruct n as [|m]; [exact Hnone|]. rewrite Nat.iter_succ.
    unfold after_initialize at 1. cbn [db _pools].
    rewrite lookup_insert_eq. by rewrite length_pools_after_initialize.
  - intros st'. by apply resume_awaiting.
Qed.

End SameIdentifier.

Lemma callers_of_one_identifier_witness :
  event_loop GuMCP pg_up (all_at_once 2) (replicate 2 (Called (Some "db1")), loaded_state)
  = (map (served_from (JStr "postgresql://reader@db1/app")) (seq 0 2),
     Nat.iter 2 (after_initialize "db1" (JStr "postgresql://reader@db1/app")) loaded_state).
Proof.
  exact (proj1 (proj2
    (callers_of_one_identifier GuMCP pg_up "db1" (JStr "postgresql://reader@db1/app")
       eq_refl eq_refl loaded_state 2 eq_refl eq_refl eq_refl))).
Defined.

(** C5 as stated fails: two callers of [db1], each given its turn up to the
    [await] before either is resumed, leave two pools constructed for the
    one ID; the pool map holds the second, the first is open and in no
    map. *)
Lemma two_overlapping_callers_build_two_pools :
  _pools (db loaded_state) !! "db1" = None
  /\ pools_made loaded_state = []
  /\ pools_made (snd (event_loop GuMCP pg_up [0; 1; 0; 1]%nat
                        ([Called (Some "db1"); Called (Some "db1")], loaded_state)))
     = [mkPool (JStr "postgresql://reader@db1/app") 2 4 60 read_only_settings false;
        mkPool (JStr "postgresql://reader@db1/app") 2 4 60 read_only_settings false]
  /\ _pools (db (snd (event_loop GuMCP pg_up [0; 1; 0; 1]%nat
                        ([Called (Some "db1"); Called (Some "db1")], loaded_state))))
       !! "db1" = Some 1%nat.
Proof. vm_compute. repeat split; reflexivity. Qed.
(** ** Tokens *)

Lemma timegm_bounds (us : Z) :
  PyJWT.timegm us * 1000000 <= us < PyJWT.timegm us * 1000000 + 1000000.
Proof.
  unfold PyJWT.timegm.
  pose proof (Z.div_mod us 1000000 ltac:(lia)).
  pose proof (Z.mod_pos_bound us 1000000 ltac:(lia)). lia.
Qed.

Lemma timegm_plus_hours (us n : Z) :
  PyJWT.timegm (us + hours n) = PyJWT.timegm us + n * 3600.
Proof.
  unfold PyJWT.timegm, hours.
  replace (us + n * 3600 * 1000000) with (us + (n * 3600) * 1000000) by lia.
  apply Z.div_add. lia.
Qed.

(** the payload [generate_jwt_token] signs *)
Lemma generate_jwt_token_run (secret user_id : string) (now : Z) :
  generate_jwt_token secret user_id now
  = Return (issued_token secret user_id now).
Proof. reflexivity. Qed.

Lemma verify_issued (secret user_id : string) (now t : Z) :
  verify_jwt_token secret (issued_token secret user_id now) t
  = if (t <? PyJWT.timegm now * 1000000)%Z
    then Raise (ValueError "Invalid or expired JWT token")
    else if ((PyJWT.timegm now + 24 * 3600) * 1000000 <=? t)%Z
    then Raise (ValueError "Invalid or expired JWT token")
    else Return (issued_payload user_id now).
Proof.
  unfold verify_jwt_token, PyJWT.decode, issued_token.
  set (input := PyJWT.signing_input _ _).
  cbn [existsb String.eqb Ascii.eqb Bool.eqb orb negb PyJWT.verify_signature].
  rewrite !String.eqb_refl. cbn [andb negb].
  unfold PyJWT.validate_claims, PyJWT.check_iat, PyJWT.check_nbf, PyJWT.check_exp,
    PyJWT.check_aud, PyJWT.check_sub, PyJWT.check_jti, PyJWT.int_claim, issued_payload.
  rewrite timegm_plus_hours.
  cbn [lookup_key has_key existsb fst String.eqb Ascii.eqb Bool.eqb orb negb py_int
       PyJWT.first_failure].
  destruct (t <? PyJWT.timegm now * 1000000)%Z; [reflexivity|].
  destruct ((PyJWT.timegm now + 24 * 3600) * 1000000 <=? t)%Z; reflexivity.
Qed.

(** C3. A token issued to [user_id] at clock [now] carries issued-at [now]
    and expiry [now] plus 24 hours (both in whole seconds, as the token
    format has them). Verified at a later clock [t] with the same secret,
    it yields a payload whose [user_id] is the subject as long as [t] is
    before that expiry, and the invalid-token error from the expiry on; 25
    hours after issuance it is always the error. *)
Theorem token_round_trip (secret user_id : string) (now t : Z) :
  now <= t ->
  let expiry := PyJWT.timegm (now + hours 24) * 1000000 in
  generate_jwt_token secret user_id now = Return (issued_token secret user_id now)
  /\ now + hours 24 - 1000000 < expiry <= now + hours 24
  /\ lookup_key "user_id" (issued_payload user_id now) = Some (JStr user_id)
  /\ lookup_key "iat" (issued_payload user_id now) = Some (JInt (PyJWT.timegm now))
  /\ lookup_key "exp" (issued_payload user_id now)
     = Some (JInt (PyJWT.timegm now + 24 * 3600))
  /\ verify_jwt_token secret (issued_token secret user_id now) t
     = (if (t <? expiry)%Z then Return (issued_payload user_id now)
        else Raise (ValueError "Invalid or expired JWT token"))
  /\ verify_jwt_token secret (issued_token secret user_id now) (now + hours 25)
     = Raise (ValueError "Invalid or expired JWT token").
Proof.
  intros Hlater expiry. unfold expiry.
  pose proof (timegm_bounds now) as Hb.
  split; [reflexivity|].
  split; [rewrite timegm_plus_hours; unfold hours; lia|].
  split; [reflexivity|]. split; [reflexivity|].
  split; [cbn; by rewrite timegm_plus_hours|].
  rewrite !verify_issued, timegm_plus_hours. split.
  - destruct (Z.ltb_spec t (PyJWT.timegm now * 1000000)); [lia|].
    destruct (Z.leb_spec ((PyJWT.timegm now + 24 * 3600) * 1000000) t);
      destruct (Z.ltb_spec t ((PyJWT.timegm now + 24 * 3600) * 1000000)); try lia; reflexivity.
  - destruct (Z.ltb_spec (now + hours 25) (PyJWT.timegm now * 1000000)); [reflexivity|].
    destruct (Z.leb_spec ((PyJWT.timegm now + 24 * 3600) * 1000000) (now + hours 25));
      [reflexivity|unfold hours in *; lia].
Qed.

Lemma token_round_trip_witness :
  verify_jwt_token "s3cret" (issued_token "s3cret" "alice" 1700000000500000)
    (1700000000500000 + hours 23)
  = Return (issued_payload "alice" 1700000000500000).
Proof.
  exact (proj1 (proj2 (proj2 (proj2 (proj2 (proj2
    (token_round_trip "s3cret" "alice" 1700000000500000 (1700000000500000 + hours 23)
       ltac:(unfold hours; lia)))))))).
Defined.

(** The claims as the library reads them: an expiry given as a numeric
    string is taken; an empty audience is passed over and any other is
    refused, as is a subject that is not a string; a [null] issued-at makes
    [int] raise a [TypeError], which neither [jwt.decode] nor
    [verify_jwt_token] catches, so that the middleware does not answer 401. *)
Example decode_reads_the_claims :
  verify_jwt_token "s3cret" (signed_token "s3cret" [("user_id", JStr "alice"); ("exp", JStr "10")]) 0
  = Return [("user_id", JStr "alice"); ("exp", JStr "10")]
  /\ verify_jwt_token "s3cret"
       (signed_token "s3cret" [("user_id", JStr "alice"); ("exp", JStr "10")]) 10000000
     = Raise (ValueError "Invalid or expired JWT token")
  /\ verify_jwt_token "s3cret"
       (signed_token "s3cret" [("user_id", JStr "alice"); ("exp", JStr "soon")]) 0
     = Raise (ValueError "Invalid or expired JWT token")
  /\ verify_jwt_token "s3cret"
       (signed_token "s3cret" [("user_id", JStr "alice"); ("aud", JStr EmptyString)]) 0
     = Return [("user_id", JStr "alice"); ("aud", JStr EmptyString)]
  /\ verify_jwt_token "s3cret"
       (signed_token "s3cret" [("user_id", JStr "alice"); ("aud", JStr "pg")]) 0
     = Raise (ValueError "Invalid or expired JWT token")
  /\ verify_jwt_token "s3cret"
       (signed_token "s3cret" [("user_id", JStr "alice"); ("sub", JInt 7)]) 0
     = Raise (ValueError "Invalid or expired JWT token")
  /\ verify_jwt_token "s3cret"
       (signed_token "s3cret" [("user_id", JStr "alice"); ("iat", JNull); ("exp", JInt 0)]) 5
     = Raise (TypeError "int() argument must be a string, a bytes-like object or a real number, not 'NoneType'")
  /\ dispatch "s3cret"
       (mkRequest "/pg/alice:db1"
          (Some (Bearer (signed_token "s3cret"
                           [("user_id", JStr "alice"); ("iat", JNull); ("exp", JInt 0)])))) 5
     = Unhandled (TypeError "int() argument must be a string, a bytes-like object or a real number, not 'NoneType'").
Proof. vm_compute. repeat split; reflexivity. Qed.








(** ** The signing secret *)

(** C8, as the code has it. [JWTUtils()] never fails: without an argument
    and without [JWT_SECRET] in the environment the secret is the built-in
    ["default-secret"], and tokens are issued and verified with it. *)
Theorem JWTUtils_init_falls_back_to_default (environ : gmap string string)
    (user_id : string) (now : Z) :
  environ !! "JWT_SECRET" = None ->
  JWTUtils_init None environ = "default-secret"
  /\ generate_jwt_token (JWTUtils_init None environ) user_id now
     = Return (issued_token "default-secret" user_id now)
  /\ verify_jwt_token (JWTUtils_init None environ)
       (issued_token "default-secret" user_id now) now
     = Return (issued_payload user_id now).
Proof.
  intros H. unfold JWTUtils_init. rewrite H. cbn [default or_else].
  split; [reflexivity|]. split; [reflexivity|].
  rewrite verify_issued. pose proof (timegm_bounds now).
  destruct (Z.ltb_spec now (PyJWT.timegm now * 1000000)); [lia|].
  destruct (Z.leb_spec ((PyJWT.timegm now + 24 * 3600) * 1000000) now); [lia|reflexivity].
Qed.

Lemma JWTUtils_init_falls_back_to_default_witness :
  JWTUtils_init None ∅ = "default-secret".
Proof.
  exact (proj1 (JWTUtils_init_falls_back_to_default ∅ "alice" 0 eq_refl)).
Defined.

(** C8 as stated fails: with [JWT_SECRET] unset the constructor returns
    normally, holding a substitute secret. *)
Lemma JWTUtils_without_secret_starts :
  (∅ : gmap string string) !! "JWT_SECRET" = None
  /\ JWTUtils_init None ∅ = "default-secret".
Proof. split; reflexivity. Qed.

(** ** What the methods preserve *)

Section Preservation.

Variable P : State -> Prop.

Lemma preserves_ret {A} (a : A) : preserves P (ret a).
Proof. intros st H. exact H. Qed.

Lemma preserves_raise {A} (e : exn) : preserves P (@raise A e).
Proof. intros st H. exact H. Qed.

Lemma preserves_lift {A} (r : result A) : preserves P (lift r).
Proof. intros st H. exact H. Qed.

Lemma preserves_get_state : preserves P get_state.
Proof. intros st H. exact H. Qed.

Lemma preserves_bind {A B} (m : M A) (k : A -> M B) :
  preserves P m -> (forall a, preserves P (k a)) -> preserves P (bind m k).
Proof.
  intros Hm Hk st H. unfold bind. specialize (Hm st H).
  destruct (m st) as [[a|e] st']; cbn [snd] in *; [by apply Hk|exact Hm].
Qed.

Lemma preserves_try_except {A} (m : M A) (handler : exn -> M A) :
  preserves P m -> (forall e, preserves P (handler e)) -> preserves P (try_except m handler).
Proof.
  intros Hm Hk st H. unfold try_except. specialize (Hm st H).
  destruct (m st) as [[a|e] st']; cbn [snd] in *; [exact Hm|by apply Hk].
Qed.

(** The three ways the methods change the state. *)
Hypothesis P_set_db : forall st d,
  P st -> P {| db := d; pools_made := pools_made st; trace := trace st |}.
Hypothesis P_create : forall st conn_str,
  P st ->
  P {| db := db st;
       pools_made := pools_made st ++ [mkPool conn_str 2 4 60 read_only_settings false];
       trace := trace st |}.
Hypothesis P_close : forall st pool,
  P st ->
  P {| db := db st; pools_made := alter closed_pool pool (pools_made st); trace := trace st |}.

Lemma preserves_set_db d : preserves P (set_db d).
Proof. intros st H. by apply P_set_db. Qed.

Ltac preserve :=
  repeat first
    [ assumption | solve [auto]
    | apply preserves_ret | apply preserves_raise | apply preserves_lift
    | apply preserves_get_state | apply preserves_set_db
    | apply preserves_bind; [|intros ?]
    | apply preserves_try_except; [|intros ?]
    | match goal with
      | |- preserves _ (if ?b then _ else _) => destruct b
      | |- preserves _ (match ?x with _ => _ end) => destruct x
      end ].

Lemma preserves_reload source : preserves P (_reload_config_if_changed source).
Proof. unfold _reload_config_if_changed. preserve. Qed.

Lemma preserves_refresh source st : P st -> P (snd (_refresh_iteration source st)).
Proof.
  intros H. unfold _refresh_iteration.
  pose proof (preserves_reload source st H) as H'.
  by destruct (_reload_config_if_changed source st) as [[[]|e] st'].
Qed.

Lemma preserves_get_connection_string variant conn_id :
  preserves P (get_connection_string variant conn_id).
Proof. unfold get_connection_string. preserve. Qed.

Lemma preserves_initialize_begin variant conn_id :
  preserves P (initialize_begin variant conn_id).
Proof.
  pose proof (preserves_get_connection_string variant conn_id).
  unfold initialize_begin. preserve.
Qed.

Lemma preserves_initialize_finish pg pending : preserves P (initialize_finish pg pending).
Proof.
  unfold initialize_finish, store_pool. apply preserves_bind; [|intros ?; preserve].
  intros st H. unfold create_pool.
  destruct (connect_error pg pending.2); [exact H|]. by apply P_create.
Qed.

Lemma preserves_initialize variant pg conn_id : preserves P (initialize variant pg conn_id).
Proof.
  pose proof (preserves_initialize_begin variant conn_id).
  unfold initialize. apply preserves_bind; [assumption|].
  intros [pending|]; [apply preserves_initialize_finish|apply preserves_ret].
Qed.

Lemma preserves_pool_of conn_id : preserves P (pool_of conn_id).
Proof. unfold pool_of. preserve. Qed.

Lemma preserves_acquire pool : preserves P (acquire pool).
Proof. unfold acquire. preserve. Qed.

Lemma preserves_checkout conn_id : preserves P (checkout conn_id).
Proof.
  pose proof preserves_pool_of. pose proof preserves_acquire.
  unfold checkout. preserve. 
Qed.

Lemma preserves_get_connection variant pg {A} conn_id (body : Connection -> M A) :
  (forall conn, preserves P (body conn)) ->
  preserves P (get_connection variant pg conn_id body).
Proof.
  intros Hbody.
  pose proof (preserves_initialize variant pg conn_id).
  pose proof (preserves_pool_of conn_id). pose proof preserves_acquire.
  unfold get_connection. preserve.
Qed.

Lemma preserves_close_pool pg pool : preserves P (close_pool pg pool).
Proof. intros st H. rewrite close_pool_run. by apply P_close. Qed.

Lemma preserves_del_pool conn_id : preserves P (del_pool conn_id).
Proof. unfold del_pool. preserve. Qed.

Lemma preserves_close_one pg conn_id : preserves P (close_one pg conn_id).
Proof.
  pose proof preserves_pool_of. pose proof (preserves_close_pool pg).
  pose proof preserves_del_pool.
  unfold close_one. preserve.
Qed.

Lemma preserves_close_each pg keys : preserves P (close_each pg keys).
Proof.
  induction keys as [|k keys IH]; simpl; [apply preserves_ret|].
  apply preserves_bind; [apply preserves_close_one|intros _; exact IH].
Qed.

Lemma preserves_close pg conn_id : preserves P (close pg conn_id).
Proof.
  pose proof (preserves_close_one pg). pose proof (preserves_close_each pg).
  unfold close. preserve.
Qed.

Lemma preserves_resume variant pg caller st : P st -> P (snd (resume variant pg caller st)).
Proof.
  intros H. destruct caller as [conn_id|conn_id pending|outcome]; cbn [resume]; [| |exact H].
  - pose proof (preserves_initialize_begin variant conn_id st H) as H1.
    pose proof (preserves_checkout conn_id) as Hc.
    destruct (negb (in_pools conn_id (db st))).
    + destruct (initialize_begin variant conn_id st) as [[[pending|]|e] st']; cbn [snd] in *;
        try exact H1.
      specialize (Hc st' H1). by destruct (checkout conn_id st').
    + specialize (Hc st H). by destruct (checkout conn_id st).
  - assert (Hm : preserves P (bind (initialize_finish pg pending) (fun _ => checkout conn_id))).
    { apply preserves_bind; [apply preserves_initialize_finish|intros _; apply preserves_checkout]. }
    specialize (Hm st H).
    by destruct (bind (initialize_finish pg pending) (fun _ => checkout conn_id) st).
Qed.

(** The tool handlers also send statements. *)
Hypothesis P_trace : forall st t,
  P st -> P {| db := db st; pools_made := pools_made st; trace := t |}.

Lemma preserves_run_on pg conn statement args : preserves P (run_on pg conn statement args).
Proof. intros st H. by apply P_trace. Qed.

Lemma preserves_execute_query pg query conn_id params :
  preserves P (execute_query pg query conn_id params).
Proof.
  pose proof (preserves_run_on pg).
  unfold execute_query. apply preserves_get_connection. intros conn. preserve.
Qed.

Lemma preserves_getitem arguments key : preserves P (getitem arguments key).
Proof. unfold getitem. preserve. Qed.

Lemma preserves_handle_call_tool pg server name arguments :
  preserves P (handle_call_tool pg server name arguments).
Proof.
  pose proof (preserves_execute_query pg).
  pose proof preserves_getitem.
  pose proof (preserves_initialize GuMCP pg).
  pose proof preserves_pool_of. pose proof (preserves_close_pool pg).
  pose proof preserves_del_pool.
  unfold handle_call_tool, pg_connect, pg_disconnect. preserve.
Qed.

Lemma preserves_perform pg ev st : P st -> P (perform pg ev st).
Proof.
  intros H. destruct ev; cbn [perform].
  - by apply preserves_refresh.
  - by apply preserves_initialize.
  - apply preserves_get_connection; [intros ?; apply preserves_ret|exact H].
  - by apply preserves_close.
  - by apply preserves_handle_call_tool.
  - by apply preserves_resume.
Qed.

End Preservation.

(** ** Read-only connections *)

Lemma read_only_closed_pool (p : Pool) : read_only p -> read_only (closed_pool p).
Proof. intros H. exact H. Qed.

Lemma read_only_pools_set_db st d :
  read_only_pools st ->
  read_only_pools {| db := d; pools_made := pools_made st; trace := trace st |}.
Proof. intros H. exact H. Qed.

Lemma read_only_pools_create st conn_str :
  read_only_pools st ->
  read_only_pools
    {| db := db st;
       pools_made := pools_made st ++ [mkPool conn_str 2 4 60 read_only_settings false];
       trace := trace st |}.
Proof.
  intros H. unfold read_only_pools. cbn [pools_made].
  apply Forall_app. split; [exact H|]. by repeat constructor.
Qed.

Lemma read_only_pools_close st pool :
  read_only_pools st ->
  read_only_pools
    {| db := db st; pools_made := alter closed_pool pool (pools_made st); trace := trace st |}.
Proof.
  intros H. unfold read_only_pools. cbn [pools_made].
  apply Forall_alter; [exact H|]. intros p _. apply read_only_closed_pool.
Qed.

Lemma read_only_pools_trace st t :
  read_only_pools st ->
  read_only_pools {| db := db st; pools_made := pools_made st; trace := t |}.
Proof. intros H. exact H. Qed.

Lemma read_only_pools_perform pg ev st :
  read_only_pools st -> read_only_pools (perform pg ev st).
Proof.
  apply preserves_perform.
  - apply read_only_pools_set_db.
  - apply read_only_pools_create.
  - apply read_only_pools_close.
  - apply read_only_pools_trace.
Qed.

Lemma read_only_pools_reachable pg st : reachable pg st -> read_only_pools st.
Proof.
  induction 1 as [|st ev _ IH]; [constructor|]. by apply read_only_pools_perform.
Qed.

(** [get_connection] leaves the trace alone until the body runs. *)
Lemma get_connection_trace variant pg conn_id st :
  trace (snd (get_connection variant pg conn_id ret st)) = trace st.
Proof.
  apply (preserves_get_connection (fun s => trace s = trace st)); try done.
  intros conn. apply preserves_ret.
Qed.

Lemma get_connection_read_only_pools variant pg conn_id st :
  read_only_pools st -> read_only_pools (snd (get_connection variant pg conn_id ret st)).
Proof.
  apply (preserves_get_connection read_only_pools).
  - apply read_only_pools_set_db.
  - apply read_only_pools_create.
  - intros conn. apply preserves_ret.
Qed.

(** The body gets the connection [get_connection] opened, or does not run. *)
Lemma get_connection_body variant pg {A} conn_id (body : Connection -> M A) st :
  get_connection variant pg conn_id body st
  = match get_connection variant pg conn_id ret st with
    | (Return conn, st') => body conn st'
    | (Raise e, st') => (Raise e, st')
    end.
Proof.
  unfold get_connection, bind, ret, get_state.
  destruct ((if negb (in_pools conn_id (db st)) then initialize variant pg conn_id
             else fun st0 => (Return tt, st0)) st) as [[[]|e] s1]; [|reflexivity].
  destruct (pool_of conn_id s1) as [[pool|e] s2]; [|reflexivity].
  destruct (acquire pool s2) as [[conn|e] s3]; reflexivity.
Qed.

(** A connection comes with the settings of a pool that exists. *)
Lemma get_connection_settings variant pg conn_id st conn st' :
  get_connection variant pg conn_id ret st = (Return conn, st') ->
  exists p, pools_made st' !! conn_pool conn = Some p
            /\ conn_settings conn = server_settings p
            /\ conn_dsn conn = dsn p.
Proof.
  unfold get_connection, bind, ret, get_state.
  destruct ((if negb (in_pools conn_id (db st)) then initialize variant pg conn_id
             else fun st0 => (Return tt, st0)) st) as [[[]|e] s1]; [|done].
  destruct (pool_of conn_id s1) as [[pool|e] s2]; [|done].
  unfold acquire, bind, get_state, ret, raise.
  destruct (pools_made s2 !! pool) as [p|] eqn:Hp; [|done].
  destruct (closed p); [done|]. intros [= <- <-]. by exists p.
Qed.

(** C9. In every state the process can reach, a connection handed out by
    [get_connection] belongs to a pool created with
    [default_transaction_read_only] set to [true] (every pool ever made
    is), and the body of the [async with] block receives that connection or
    does not run; [execute_query] sends [SET TRANSACTION READ ONLY] on the
    connection it acquired first, and the caller's SQL only after that
    statement has gone through. *)
Theorem connections_are_read_only (pg : Backend) (st : State) :
  reachable pg st ->
  read_only_pools st
  /\ (forall conn_id conn st',
        get_connection GuMCP pg conn_id ret st = (Return conn, st') ->
        lookup_key "default_transaction_read_only" (conn_settings conn) = Some "true"
        /\ trace st' = trace st)
  /\ (forall A conn_id (body : Connection -> M A),
        get_connection GuMCP pg conn_id body st
        = match get_connection GuMCP pg conn_id ret st with
          | (Return conn, st') => body conn st'
          | (Raise e, st') => (Raise e, st')
          end)
  /\ (forall query conn_id params,
        let outcome := execute_query pg query conn_id params st in
        match get_connection GuMCP pg conn_id ret st with
        | (Raise e, _) => fst outcome = Raise e /\ trace (snd outcome) = trace st
        | (Return conn, _) =>
            match run pg (conn_dsn conn) set_read_only [] with
            | Raise e =>
                fst outcome = Raise e
                /\ trace (snd outcome) = (trace st ++ [(conn_pool conn, set_read_only)])%list
            | Return _ =>
                (exists texts, fst outcome = Return texts)
                /\ trace (snd outcome)
                   = (trace st ++ [(conn_pool conn, set_read_only); (conn_pool conn, query)])%list
            end
        end).
Proof.
  intros Hreach. pose proof (read_only_pools_reachable pg st Hreach) as Hro.
  split; [exact Hro|]. split; [|split].
  - intros conn_id conn st' Hget.
    pose proof (get_connection_read_only_pools GuMCP pg conn_id st Hro) as Hro'.
    pose proof (get_connection_trace GuMCP pg conn_id st) as Htr.
    rewrite Hget in Hro', Htr. cbn [snd] in Hro', Htr. split; [|exact Htr].
    destruct (get_connection_settings _ _ _ _ _ _ Hget) as (p & Hp & -> & _).
    unfold read_only_pools in Hro'. rewrite Forall_lookup in Hro'. exact (Hro' _ _ Hp).
  - intros A conn_id body. apply get_connection_body.
  - intros query conn_id params outcome. unfold outcome, execute_query.
    rewrite (get_connection_body GuMCP pg conn_id (fun conn => bind (run_on pg conn _ _) _)).
    pose proof (get_connection_trace GuMCP pg conn_id st) as Htr.
    destruct (get_connection GuMCP pg conn_id ret st) as [[conn|e] s1]; cbn [snd] in Htr;
      [|split; [reflexivity|exact Htr]].
    unfold dumps_rows, bind, run_on, try_except, ret, lift.
    cbn [fst snd db pools_made trace].
    change (JStr "SET TRANSACTION READ ONLY") with set_read_only.
    destruct (run pg (conn_dsn conn) set_read_only []) as [rows|e]; cbn [fst snd trace].
    + rewrite Htr.
      destruct (run pg (conn_dsn conn) query (params_or_empty params)) as [records|e];
        cbn [fst snd trace].
      * destruct (serialize (PyDict [("success", PyBool true); ("data", PyList records)]));
          cbn [fst snd trace]; (split; [eauto|by rewrite <- app_assoc]).
      * cbn [serialize]. cbn [fst snd trace]. split; [eauto|by rewrite <- app_assoc].
    + by rewrite Htr.
Qed.

Lemma connections_are_read_only_witness :
  reachable pg_up open_state
  /\ lookup_key "default_transaction_read_only"
       (conn_settings (mkConnection 0 (JStr "postgresql://reader@db1/app") read_only_settings))
     = Some "true".
Proof.
  assert (H : reachable pg_up open_state).
  { exact (reachable_step pg_up _ (Acquire (Some "db1"))
             (reachable_step pg_up _ (Refresh (Loaded sample_config))
                (reachable_start pg_up))). }
  split; [exact H|].
  exact (proj1 (proj1 (proj2 (connections_are_read_only pg_up open_state H))
                  (Some "db1") _ open_state eq_refl)).
Defined.

(** ** Tool calls without a connection ID *)

(** C10. On a server whose connection ID is [None] or empty every tool call,
    whatever its name and arguments, returns the one text content
    [{"success": false, "error": "conn_id is required for database
    operations"}] and leaves the state as it was: no statement is sent, no
    pool is made and the pool map is not touched. *)
Theorem handle_call_tool_requires_conn_id (pg : Backend) (server : Server)
    (name : string) (arguments : option (list (string * json))) (st : State) :
  conn_id server = None \/ conn_id server = Some EmptyString ->
  handle_call_tool pg server name arguments st
  = (Return (Some [failure "conn_id is required for database operations"]), st)
  /\ text (failure "conn_id is required for database operations")
     = "{" ++ dquote ++ "success" ++ dquote ++ ": false, " ++ dquote ++ "error" ++ dquote
         ++ ": " ++ dquote ++ "conn_id is required for database operations" ++ dquote ++ "}".
Proof.
  intros H. split; [|reflexivity].
  unfold handle_call_tool. by destruct H as [-> | ->].
Qed.

Lemma handle_call_tool_requires_conn_id_witness :
  handle_call_tool pg_up (mkServer "alice" None) "pg_query"
    (Some [("query", JStr "SELECT 1")]) open_state
  = (Return (Some [failure "conn_id is required for database operations"]), open_state).
Proof.
  exact (proj1 (handle_call_tool_requires_conn_id pg_up (mkServer "alice" None) "pg_query"
                  (Some [("query", JStr "SELECT 1")]) open_state (or_introl eq_refl))).
Defined.

(** ** Calls that do not overlap *)

(** where [initialize] leaves the state *)
Lemma initialize_state variant pg conn_id st :
  snd (initialize variant pg conn_id st) = st
  \/ exists k conn_str,
       _pools (db st) !! k = None
       /\ snd (initialize variant pg conn_id st) = after_initialize k conn_str st.
Proof.
  unfold initialize, initialize_begin, get_connection_string. mstep.
  destruct (truthy conn_id) eqn:Ht; cbn [negb snd]; [|by left].
  destruct conn_id as [k|]; [|discriminate]. cbn [fmt].
  destruct (in_pools (Some k) (db st)) eqn:Hin; cbn [negb snd]; [by left|].
  destruct (py_in (Some k) (_connection_map (db st))) as [[|]|e]; cbn [negb snd];
    try by left.
  destruct (py_getitem (_connection_map (db st)) (Some k)) as [conn_str|e]; cbn [snd];
    [|by left].
  unfold initialize_finish, create_pool, store_pool. mstep. cbn [fst snd].
  destruct (connect_error pg conn_str); cbn [snd]; [by left|].
  right. exists k, conn_str. split; [|reflexivity].
  unfold in_pools in Hin. apply bool_decide_eq_false_1 in Hin.
  destruct (_pools (db st) !! k) eqn:E; [|reflexivity]. destruct Hin. eauto.
Qed.

Section OneAtATime.

Variable P : State -> Prop.

Hypothesis P_config : forall st cm hash,
  P st ->
  P {| db := {| _pools := _pools (db st); _connection_map := cm; _last_config_hash := hash |};
       pools_made := pools_made st; trace := trace st |}.
Hypothesis P_initialize : forall st k conn_str,
  _pools (db st) !! k = None -> P st -> P (after_initialize k conn_str st).
Hypothesis P_close_one : forall st k h,
  _pools (db st) !! k = Some h -> P st -> P (after_close_one k h st).
Hypothesis P_trace : forall st t,
  P st -> P {| db := db st; pools_made := pools_made st; trace := t |}.

(** the servers, and a [pool.close()] on them that raised *)
Variable pg : Backend.

Hypothesis P_close_failed : forall st k h e,
  _pools (db st) !! k = Some h -> close_fails pg h st = Some e ->
  P st -> P (after_close_failed h st).

Ltac keep :=
  repeat first
    [ assumption | solve [auto]
    | apply preserves_ret | apply preserves_raise | apply preserves_lift
    | apply preserves_get_state
    | apply preserves_bind; [|intros ?]
    | apply preserves_try_except; [|intros ?]
    | match goal with
      | |- preserves _ (if ?b then _ else _) => destruct b
      | |- preserves _ (match ?x with _ => _ end) => destruct x
      end ].

Lemma whole_reload source : preserves P (_reload_config_if_changed source).
Proof.
  intros st H. unfold _reload_config_if_changed.
  destruct source as [|e|content]; [exact H|exact H|]. mstep.
  destruct (bool_decide (Some (_hash_config content) = _last_config_hash (db st)));
    [exact H|by apply P_config].
Qed.

Lemma whole_refresh source st : P st -> P (snd (_refresh_iteration source st)).
Proof.
  intros H. unfold _refresh_iteration.
  pose proof (whole_reload source st H) as H'.
  by destruct (_reload_config_if_changed source st) as [[[]|e] st'].
Qed.

Lemma whole_initialize variant conn_id : preserves P (initialize variant pg conn_id).
Proof.
  intros st H.
  destruct (initialize_state variant pg conn_id st) as [->|(k & conn_str & Hk & ->)];
    [exact H|by apply P_initialize].
Qed.

Lemma whole_pool_of conn_id : preserves P (pool_of conn_id).
Proof. unfold pool_of. keep. Qed.

Lemma whole_acquire pool : preserves P (acquire pool).
Proof. unfold acquire. keep. Qed.

Lemma whole_get_connection variant {A} conn_id (body : Connection -> M A) :
  (forall conn, preserves P (body conn)) ->
  preserves P (get_connection variant pg conn_id body).
Proof.
  intros Hbody.
  pose proof (whole_initialize variant conn_id).
  pose proof (whole_pool_of conn_id). pose proof whole_acquire.
  unfold get_connection. keep.
Qed.

Lemma whole_close_one k : preserves P (close_one pg k).
Proof.
  intros st H. destruct (_pools (db st) !! k) as [h|] eqn:Hk.
  - rewrite (close_one_run pg k h st Hk).
    destruct (close_fails pg h st) as [e|] eqn:He;
      [by apply (P_close_failed st k h e)|by apply P_close_one].
  - unfold close_one, pool_of. mstep. by rewrite Hk.
Qed.

Lemma whole_close_each keys : preserves P (close_each pg keys).
Proof.
  induction keys as [|k keys IH]; simpl; [apply preserves_ret|].
  apply preserves_bind; [apply whole_close_one|intros _; exact IH].
Qed.

Lemma whole_close conn_id : preserves P (close pg conn_id).
Proof.
  pose proof whole_close_one. pose proof whole_close_each.
  unfold close. keep.
Qed.

Lemma whole_run_on conn statement args : preserves P (run_on pg conn statement args).
Proof. intros st H. by apply P_trace. Qed.

Lemma whole_execute_query query conn_id params :
  preserves P (execute_query pg query conn_id params).
Proof.
  pose proof whole_run_on.
  unfold execute_query, dumps_rows. apply whole_get_connection. intros conn. keep.
Qed.

Lemma whole_getitem arguments key : preserves P (getitem arguments key).
Proof. unfold getitem. keep. Qed.

(** the three statements of [pg_disconnect] are those of [close_one] *)
Lemma disconnect_is_close_one {A} conn_id (a : A) st :
  snd ((pool <- pool_of conn_id ;; close_pool pg pool ;; del_pool (fmt conn_id) ;; ret a) st)
  = match conn_id with
    | Some k => snd (close_one pg k st)
    | None => st
    end.
Proof.
  destruct conn_id as [k|]; [|reflexivity]. cbn [fmt].
  unfold close_one, pool_of, del_pool. mstep.
  destruct (_pools (db st) !! k) as [h|]; [|reflexivity]. cbn beta iota.
  rewrite close_pool_run. destruct (close_fails pg h st); [reflexivity|].
  cbn [after_close_failed db].
  destruct (_pools (db st) !! k); reflexivity.
Qed.

Lemma whole_disconnect {A} conn_id (a : A) :
  preserves P
    (pool <- pool_of conn_id ;; close_pool pg pool ;; del_pool (fmt conn_id) ;; ret a).
Proof.
  intros st H. rewrite disconnect_is_close_one.
  destruct conn_id as [k|]; [by apply whole_close_one|exact H].
Qed.

Lemma whole_handle_call_tool server name arguments :
  preserves P (handle_call_tool pg server name arguments).
Proof.
  pose proof whole_execute_query.
  pose proof whole_getitem.
  pose proof (whole_initialize GuMCP).
  pose proof (@whole_disconnect (option (list TextContent))).
  unfold handle_call_tool, pg_connect, pg_disconnect. keep.
Qed.

Lemma whole_perform ev st : whole_call ev -> P st -> P (perform pg ev st).
Proof.
  intros Hev H. destruct ev; cbn [perform]; [| | | | |destruct Hev].
  - by apply whole_refresh.
  - by apply whole_initialize.
  - apply whole_get_connection; [intros ?; apply preserves_ret|exact H].
  - by apply whole_close.
  - by apply whole_handle_call_tool.
Qed.

End OneAtATime.

Lemma pools_accounted_initialize st k conn_str :
  _pools (db st) !! k = None -> pools_accounted st ->
  pools_accounted (after_initialize k conn_str st).
Proof.
  intros Hk (Hvalid & Hinj & Hopen). unfold pools_accounted, after_initialize.
  cbn [db _pools pools_made].
  assert (Hlt : forall k' h, _pools (db st) !! k' = Some h -> (h < length (pools_made st))%nat).
  { intros k' h Hh. destruct (Hvalid _ _ Hh) as (p & Hp & _). by apply lookup_lt_Some in Hp. }
  split; [|split].
  - intros k' h. rewrite lookup_insert. case_decide.
    + intros [= <-]. exists (mkPool conn_str 2 4 60 read_only_settings false).
      split; [|reflexivity]. by rewrite lookup_app_r, Nat.sub_diag.
    + intros Hh. destruct (Hvalid _ _ Hh) as (p & Hp & Hc). exists p. split; [|exact Hc].
      by rewrite lookup_app_l by (by apply lookup_lt_Some in Hp).
  - intros k1 k2 h. rewrite !lookup_insert. repeat case_decide; subst; try done.
    + intros [= <-] H2. pose proof (Hlt _ _ H2). lia.
    + intros H1 [= <-]. pose proof (Hlt _ _ H1). lia.
    + apply Hinj.
  - intros h p Hp Hc. destruct (decide (h < length (pools_made st))%nat) as [Hl|Hge].
    + rewrite lookup_app_l in Hp by exact Hl.
      destruct (Hopen _ _ Hp Hc) as [k' Hk']. exists k'.
      rewrite lookup_insert_ne; [exact Hk'|]. intros <-. congruence.
    + exists k. assert (h = length (pools_made st)) as ->.
      { apply lookup_lt_Some in Hp. rewrite length_app in Hp. simpl in Hp. lia. }
      apply lookup_insert_eq.
Qed.

Lemma pools_accounted_close_one st k h :
  _pools (db st) !! k = Some h -> pools_accounted st ->
  pools_accounted (after_close_one k h st).
Proof.
  intros Hk (Hvalid & Hinj & Hopen). unfold pools_accounted, after_close_one.
  cbn [db _pools pools_made].
  split; [|split].
  - intros k' h' Hh'. apply lookup_delete_Some in Hh' as [Hne Hh'].
    destruct (Hvalid _ _ Hh') as (p & Hp & Hc). exists p. split; [|exact Hc].
    rewrite list_lookup_alter_ne; [exact Hp|]. intros <-. apply Hne. by apply (Hinj _ _ h).
  - intros k1 k2 h' H1 H2.
    apply lookup_delete_Some in H1 as [_ H1]. apply lookup_delete_Some in H2 as [_ H2]. eauto.
  - intros i p Hp Hc. destruct (decide (h = i)) as [->|Hne].
    + rewrite list_lookup_alter_eq in Hp.
      destruct (pools_made st !! i); [|done]. simpl in Hp. by injection Hp as <-.
    + rewrite list_lookup_alter_ne in Hp by done.
      destruct (Hopen _ _ Hp Hc) as [k' Hk']. exists k'.
      rewrite lookup_delete_ne; [exact Hk'|]. intros <-. congruence.
Qed.

Lemma closes_cleanly_never_fails pg h st : closes_cleanly pg -> close_fails pg h st = None.
Proof.
  intros Hpg. unfold close_fails. destruct (pools_made st !! h) as [p|]; [|reflexivity].
  destruct (closed p); [reflexivity|apply Hpg].
Qed.

Lemma pools_accounted_one_at_a_time pg st :
  closes_cleanly pg -> one_at_a_time pg st -> pools_accounted st.
Proof.
  intros Hpg. induction 1 as [|st ev Hev _ IH].
  - repeat split; intros *; try (by rewrite lookup_empty); done.
  - apply (whole_perform pools_accounted); try done.
    + intros s k conn_str. apply pools_accounted_initialize.
    + intros s k h. apply pools_accounted_close_one.
    + intros s k h e _ He. by rewrite closes_cleanly_never_fails in He.
Qed.

(** C6, as the code has it. When [close(conn_id)] returns for an ID that
    has a pool, the ID is out of the pool map and its pool is closed, so
    that nothing can be acquired from that pool any more; the next
    [get_connection] for the ID does not find the old pool: when it returns
    a connection, the connection belongs to a pool constructed by this very
    call (a new entry of [pools_made], not the closed one), which is the
    pool the map now holds for the ID; when it raises, nothing has changed;
    and it does return a connection whenever the ID still resolves and the
    server accepts the connections. [close] of a non-empty ID closes the
    pool the map holds for it and no other, and it returns unless
    [pool.close()] raises; if that raises, [close] raises the same, the
    pool is closed all the same and the ID keeps its entry, so that
    [get_connection] for the ID fails on the closed pool. As long as calls
    do not overlap and no [pool.close()] fails, the open pools are exactly
    the pools of the entries of the pool map, one per ID, before and after
    the [close]. *)
Theorem close_then_acquire_builds_new_pool
    (variant : Variant) (pg : Backend) (st : State) (id : string) (h : nat) :
  _pools (db st) !! id = Some h ->
  (h < length (pools_made st))%nat ->
  let st1 := snd (close pg (Some id) st) in
  (fst (close pg (Some id) st) = Return tt ->
   _pools (db st1) !! id = None
   /\ (exists p, pools_made st1 !! h = Some p /\ closed p = true)
   /\ acquire h st1 = (Raise (InterfaceError "pool is closed"), st1)
   /\ (forall r st2,
         get_connection variant pg (Some id) ret st1 = (r, st2) ->
         match r with
         | Return conn =>
             conn_pool conn = length (pools_made st)
             /\ conn_pool conn <> h
             /\ _pools (db st2) !! id = Some (conn_pool conn)
             /\ pools_made st2
                = (pools_made st1
                   ++ [mkPool (conn_dsn conn) 2 4 60 read_only_settings false])%list
         | Raise _ => st2 = st1
         end)
   /\ (forall conn_str,
         truthy (Some id) = true ->
         py_in (Some id) (_connection_map (db st)) = Return true ->
         py_getitem (_connection_map (db st)) (Some id) = Return conn_str ->
         connect_error pg conn_str = None ->
         fst (get_connection variant pg (Some id) ret st1)
         = Return (mkConnection (length (pools_made st)) conn_str read_only_settings)))
  /\ (truthy (Some id) = true ->
      pools_made st1 = alter closed_pool h (pools_made st)
      /\ fst (close pg (Some id) st)
         = match close_fails pg h st with
           | Some e => Raise e
           | None => Return tt
           end
      /\ (forall e,
            fst (close pg (Some id) st) = Raise e ->
            _pools (db st1) !! id = Some h
            /\ (exists p, pools_made st1 !! h = Some p /\ closed p = true)
            /\ get_connection variant pg (Some id) ret st1
               = (Raise (InterfaceError "pool is closed"), st1)))
  /\ (closes_cleanly pg -> one_at_a_time pg st ->
      pools_accounted st /\ pools_accounted st1).
Proof.
  intros Hh Hlt st1. split; [|split].
  - intros Hret. unfold st1. clear st1.
    destruct (close pg (Some id) st) as [r st1] eqn:Hrun. cbn [fst snd] in *. subst r.
    destruct (close_run pg st st1 id h Hh Hrun)
      as (Hgone & Hmap & Hhash & Htrace & Hlen & Hclosed & Hone).
    destruct (Hclosed Hlt) as (p & Hp & Hc).
    split; [exact Hgone|]. split; [by exists p|]. split; [|split].
    + unfold acquire. mstep. rewrite Hp, Hc. reflexivity.
    + intros r st2. rewrite (get_connection_without_pool variant pg ret st1 id Hgone).
      destruct (negb (truthy (Some id))); [by intros [= <- <-]|].
      destruct (py_in (Some id) (_connection_map (db st1))) as [[|]|e];
        try by intros [= <- <-].
      destruct (py_getitem (_connection_map (db st1)) (Some id)) as [conn_str|e];
        [|by intros [= <- <-]].
      destruct (connect_error pg conn_str); [by intros [= <- <-]|].
      unfold ret. intros [= <- <-]. cbn. rewrite Hlen.
      repeat split; [lia|]. apply lookup_insert_eq.
    + intros conn_str Ht Hin Hget Hup.
      rewrite (get_connection_without_pool variant pg ret st1 id Hgone).
      rewrite Ht, Hmap, Hin, Hget, Hup. cbn. by rewrite Hlen.
  - intros Ht. unfold st1. clear st1.
    rewrite (close_is_close_one pg st id h Ht Hh), (close_one_run pg id h st Hh).
    destruct (alter_closed_here (pools_made st) h Hlt) as (p & Hp & Hc).
    destruct (close_fails pg h st) as [e|]; cbn [fst snd].
    + split; [reflexivity|]. split; [reflexivity|].
      intros e' _. split; [exact Hh|]. split; [by exists p|].
      unfold get_connection, pool_of, acquire. mstep.
      unfold in_pools. rewrite bool_decide_eq_true_2 by eauto. cbn [negb].
      change (_pools (db (after_close_failed h st))) with (_pools (db st)).
      rewrite Hh. cbn beta iota.
      change (pools_made (after_close_failed h st)) with (alter closed_pool h (pools_made st)).
      by rewrite Hp, Hc.
    + split; [reflexivity|]. split; [reflexivity|]. by intros e [=].
  - intros Hpg Hone. split; [by apply (pools_accounted_one_at_a_time pg)|].
    apply (pools_accounted_one_at_a_time pg); [exact Hpg|].
    exact (one_at_a_time_step pg st (Close (Some id)) I Hone).
Qed.

Lemma close_then_acquire_builds_new_pool_witness :
  _pools (db open_state) !! "db1" = Some 0%nat
  /\ (0 < length (pools_made open_state))%nat
  /\ fst (close pg_up (Some "db1") open_state) = Return tt
  /\ fst (get_connection GuMCP pg_up (Some "db1") ret
            (snd (close pg_up (Some "db1") open_state)))
     = Return (mkConnection 1 (JStr "postgresql://reader@db1/app") read_only_settings).
Proof.
  assert (H1 : _pools (db open_state) !! "db1" = Some 0%nat) by (vm_compute; reflexivity).
  assert (H2 : (0 < length (pools_made open_state))%nat) by (vm_compute; lia).
  assert (H3 : fst (close pg_up (Some "db1") open_state) = Return tt)
    by (vm_compute; reflexivity).
  split; [exact H1|]. split; [exact H2|]. split; [exact H3|].
  exact (proj2 (proj2 (proj2 (proj2
           (proj1 (close_then_acquire_builds_new_pool GuMCP pg_up open_state "db1" 0 H1 H2)
              H3))))
           (JStr "postgresql://reader@db1/app") eq_refl eq_refl eq_refl eq_refl).
Defined.

(** C6 as stated fails: after two callers of [db1] overlapped there are two
    open pools for the one ID; [close] removes the entry and closes the pool
    the map held, and the other pool stays open and usable. *)
Lemma close_leaves_overlapped_pool_open :
  pools_made overlapped_state
  = [mkPool (JStr "postgresql://reader@db1/app") 2 4 60 read_only_settings false;
     mkPool (JStr "postgresql://reader@db1/app") 2 4 60 read_only_settings false]
  /\ _pools (db overlapped_state) !! "db1" = Some 1%nat
  /\ fst (close pg_up (Some "db1") overlapped_state) = Return tt
  /\ _pools (db (snd (close pg_up (Some "db1") overlapped_state))) !! "db1" = None
  /\ fst (acquire 0 (snd (close pg_up (Some "db1") overlapped_state)))
     = Return (mkConnection 0 (JStr "postgresql://reader@db1/app") read_only_settings).
Proof. vm_compute. repeat split; reflexivity. Qed.

(** ** The handlers at work *)

Example pg_query_sends_two_statements :
  handle_call_tool pg_up (mkServer "alice" (Some "db1")) "pg_query"
    (Some [("query", JStr "SELECT 1")]) loaded_state
  = (Return (Some [mkTextContent "text"
                     (dumps (JDict [("success", JBool true); ("data", JList [])])
                        false (Some 2%nat))]),
     {| db := db open_state;
        pools_made := pools_made open_state;
        trace := [(0%nat, set_read_only); (0%nat, JStr "SELECT 1")] |}).
Proof. vm_compute. reflexivity. Qed.

Example pg_count_table_rows_needs_table_name :
  handle_call_tool pg_up (mkServer "alice" (Some "db1")) "pg_count_table_rows"
    (Some [("schema", JStr "public")]) open_state
  = (Return (Some [failure "'table_name'"]), open_state).
Proof. vm_compute. reflexivity. Qed.

Example pg_connect_twice_returns_nothing :
  handle_call_tool pg_up (mkServer "alice" (Some "db1")) "pg_connect" None open_state
  = (Return None, open_state).
Proof. vm_compute. reflexivity. Qed.

(** * Further properties of the code *)

(** ** The refresh loop *)

(** X1. The refresh loop never touches the pools or the statements sent,
    whatever the reads find, and logs exactly the reads that failed, in
    order: a failure does not stop the loop. *)
Theorem refresh_loop_keeps_pools (sources : list ConfigRead) (st : State) :
  fst (_refresh_loop sources st) = refresh_errors sources
  /\ _pools (db (snd (_refresh_loop sources st))) = _pools (db st)
  /\ pools_made (snd (_refresh_loop sources st)) = pools_made st
  /\ trace (snd (_refresh_loop sources st)) = trace st.
Proof.
  revert st. induction sources as [|source rest IH]; intros st; [done|].
  cbn [_refresh_loop].
  destruct (_refresh_iteration source st) as [logged st1] eqn:E1.
  specialize (IH st1). destruct (_refresh_loop rest st1) as [log st2]. cbn [fst snd] in *.
  destruct IH as (-> & -> & -> & ->).
  assert (H : _pools (db st1) = _pools (db st) /\ pools_made st1 = pools_made st
              /\ trace st1 = trace st
              /\ logged = match source with
                          | ReadFailed e => Some ("Error during config refresh: " ++ exn_str e)
                          | _ => None
                          end).
  { unfold _refresh_iteration, _reload_config_if_changed in E1.
    destruct source as [|e|content]; unfold bind, get_state, ret, raise, set_db in E1.
    - by injection E1 as <- <-.
    - by injection E1 as <- <-.
    - destruct (bool_decide (Some (_hash_config content) = _last_config_hash (db st)));
        by injection E1 as <- <-. }
  destruct H as (-> & -> & -> & ->).
  repeat split.
Qed.

(** X2. Reading the same document twice in a row is the same as reading it
    once: the second pass finds the hash it stored and changes nothing. *)
Theorem reload_twice_is_reload_once (content : json) (st : State) :
  _reload_config_if_changed (Loaded content)
    (snd (_reload_config_if_changed (Loaded content) st))
  = _reload_config_if_changed (Loaded content) st.
Proof.
  unfold _reload_config_if_changed at 2 3. unfold bind, get_state, ret, set_db. cbn beta iota.
  destruct (decide (Some (_hash_config content) = _last_config_hash (db st))) as [E|E].
  - rewrite bool_decide_eq_true_2 by done. cbn [snd]. by apply reload_same_hash.
  - rewrite bool_decide_eq_false_2 by done. cbn [snd]. by apply reload_same_hash.
Qed.

(** ** Closing and initialising pools *)

Lemma after_close_each_pools keys : forall st k,
  _pools (db (after_close_each keys st)) !! k
  = if bool_decide (k ∈ keys) then None else _pools (db st) !! k.
Proof.
  induction keys as [|k' keys IH]; intros st k; simpl; [done|].
  rewrite IH. cbn [after_close_one db _pools].
  destruct (decide (k = k')) as [->|Hne].
  - rewrite lookup_delete_eq. rewrite (bool_decide_eq_true_2 (k' ∈ k' :: keys)) by left.
    by case_bool_decide.
  - rewrite lookup_delete_ne by done.
    rewrite (bool_decide_ext (k ∈ k' :: keys) (k ∈ keys)); [done|].
    rewrite elem_of_cons. split; [by intros [?|?]|by right].
Qed.

(** what [close] keeps, however it ends *)
Lemma close_keeps (pg : Backend) (conn_id : option string) (st : State) :
  let st1 := snd (close pg conn_id st) in
  _connection_map (db st1) = _connection_map (db st)
  /\ _last_config_hash (db st1) = _last_config_hash (db st)
  /\ trace st1 = trace st
  /\ length (pools_made st1) = length (pools_made st)
  /\ (forall k h, _pools (db st1) !! k = Some h -> _pools (db st) !! k = Some h)
  /\ (forall k h,
        _pools (db st) !! k = Some h ->
        _pools (db st1) !! k = None ->
        (h < length (pools_made st))%nat ->
        exists p, pools_made st1 !! h = Some p /\ closed p = true).
Proof.
  cbn zeta.
  set (P := fun s : State =>
              _connection_map (db s) = _connection_map (db st)
              /\ _last_config_hash (db s) = _last_config_hash (db st)
              /\ trace s = trace st
              /\ length (pools_made s) = length (pools_made st)
              /\ (forall k h, _pools (db s) !! k = Some h -> _pools (db st) !! k = Some h)
              /\ (forall k h,
                    _pools (db st) !! k = Some h ->
                    _pools (db s) !! k = None ->
                    (h < length (pools_made st))%nat ->
                    exists p, pools_made s !! h = Some p /\ closed p = true)).
  apply (whole_close P).
  - intros s k h Hk (Hcm & Hh & Htr & Hlen & Hsub & Hcl).
    unfold P, after_close_one. cbn [db _pools _connection_map _last_config_hash pools_made trace].
    rewrite length_alter. repeat split; try done.
    + intros k' h' [_ Hk']%lookup_delete_Some. by apply Hsub.
    + intros k' h' Hst Hnone Hlt. destruct (decide (k' = k)) as [->|Hne].
      * assert (h' = h) as -> by (apply Hsub in Hk; congruence).
        apply alter_closed_here. by rewrite Hlen.
      * rewrite lookup_delete_ne in Hnone by done.
        apply alter_closed_stays. by apply (Hcl k').
  - intros s k h e Hk _ (Hcm & Hh & Htr & Hlen & Hsub & Hcl).
    unfold P, after_close_failed. cbn [db pools_made trace].
    rewrite length_alter. repeat split; try done.
    intros k' h' Hst Hnone Hlt. apply alter_closed_stays. by apply (Hcl k').
  - unfold P. repeat split; try done. intros k h Hk Hnone. congruence.
Qed.

(** X3. [close] leaves the configuration and the trace alone, however it
    ends. When it returns, the pool map has lost the entry of the ID
    (nothing, if the ID had none), or every entry if the ID is [None] or the
    empty string. Every pool whose entry is gone has been closed. [close]
    returns whenever none of the [pool.close()] it calls raises; when the
    one of a non-empty ID raises, [close] raises the same exception, and the
    pool is closed but keeps its entry. *)
Theorem close_removes_and_closes (pg : Backend) (conn_id : option string) (st : State) :
  let out := close pg conn_id st in
  _connection_map (db (snd out)) = _connection_map (db st)
  /\ _last_config_hash (db (snd out)) = _last_config_hash (db st)
  /\ trace (snd out) = trace st
  /\ (fst out = Return tt ->
      _pools (db (snd out))
      = (if truthy conn_id then delete (fmt conn_id) (_pools (db st)) else ∅))
  /\ (forall k h,
        _pools (db st) !! k = Some h ->
        _pools (db (snd out)) !! k = None ->
        (h < length (pools_made st))%nat ->
        exists p, pools_made (snd out) !! h = Some p /\ closed p = true)
  /\ ((forall k h, _pools (db st) !! k = Some h -> close_fails pg h st = None) ->
      fst out = Return tt)
  /\ (forall k h e,
        conn_id = Some k -> truthy conn_id = true ->
        _pools (db st) !! k = Some h ->
        close_fails pg h st = Some e ->
        out = (Raise e, after_close_failed h st)).
Proof.
  cbn zeta. destruct (close_keeps pg conn_id st) as (Hcm & Hh & Htr & _ & _ & Hcl).
  split; [exact Hcm|]. split; [exact Hh|]. split; [exact Htr|].
  split; [|split; [exact Hcl|split]].
  - destruct (truthy conn_id) eqn:Ht.
    + destruct conn_id as [id|]; [|discriminate]. cbn [fmt].
      destruct (_pools (db st) !! id) as [h|] eqn:Hid.
      * rewrite (close_is_close_one pg st id h Ht Hid), (close_one_run pg id h st Hid).
        by destruct (close_fails pg h st).
      * intros _. unfold close. rewrite Ht. mstep. unfold in_pools.
        rewrite bool_decide_eq_false_2 by (rewrite Hid; by intros [? ?]).
        cbn [snd]. by rewrite delete_id.
    + unfold close. rewrite Ht. mstep.
      set (keys := map fst (map_to_list (_pools (db st)))).
      destruct (close_each pg keys st) as [r st1] eqn:Hrun. cbn [fst snd].
      intros ->. apply close_each_returned in Hrun;
        [|apply map_keys_NoDup|by intros k Hk; apply map_keys_elem]. subst st1.
      apply map_eq. intros k. rewrite after_close_each_pools, lookup_empty.
      case_bool_decide as Hk; [done|].
      destruct (_pools (db st) !! k) eqn:E; [|done].
      destruct Hk. apply map_keys_elem. eauto.
  - intros Hok. unfold close. destruct (truthy conn_id) eqn:Ht; mstep.
    + destruct (in_pools conn_id (db st)) eqn:Hin; [|reflexivity].
      destruct conn_id as [id|]; [|reflexivity].
      unfold in_pools in Hin. apply bool_decide_eq_true_1 in Hin as [h Hid].
      by rewrite (close_one_run pg id h st Hid), (Hok id h Hid).
    + rewrite close_each_run; [reflexivity|apply map_keys_NoDup| |].
      * by intros k Hk; apply map_keys_elem.
      * intros k h _. apply Hok.
  - intros k h e -> Ht Hk He.
    by rewrite (close_is_close_one pg st k h Ht Hk), (close_one_run pg k h st Hk), He.
Qed.

(** X4. An [initialize] that raises has changed nothing: no pool was made
    and no entry was stored. *)
Theorem initialize_failure_changes_nothing (variant : Variant) (pg : Backend)
    (conn_id : option string) (st st' : State) (e : exn) :
  initialize variant pg conn_id st = (Raise e, st') -> st' = st.
Proof.
  unfold initialize, initialize_begin, get_connection_string. mstep.
  destruct (truthy conn_id) eqn:Ht; cbn [negb]; [|by intros [= _ <-]].
  destruct (in_pools conn_id (db st)); cbn [negb]; [by intros [= _ <-]|].
  destruct (py_in conn_id (_connection_map (db st))) as [[|]|e0]; cbn [negb];
    try by intros [= _ <-].
  destruct (py_getitem (_connection_map (db st)) conn_id) as [conn_str|e0];
    [|by intros [= _ <-]].
  unfold initialize_finish, create_pool, store_pool. mstep. cbn [fst snd].
  destruct (connect_error pg conn_str); [by intros [= _ <-]|discriminate].
Qed.

Lemma initialize_failure_changes_nothing_witness :
  initialize GuMCP pg_up (Some "db9") loaded_state
  = (Raise (ValueError "Unknown connection ID db9"), loaded_state)
  /\ loaded_state = loaded_state.
Proof.
  split; [reflexivity|].
  exact (initialize_failure_changes_nothing GuMCP pg_up (Some "db9") loaded_state loaded_state
           (ValueError "Unknown connection ID db9") eq_refl).
Defined.

(** X5. After an [initialize] that returned, the ID has a pool, and a second
    [initialize] of the same ID returns without changing anything: one
    pool per ID however often it is asked for. *)
Theorem initialize_again_changes_nothing (variant : Variant) (pg : Backend)
    (conn_id : option string) (st st' : State) :
  initialize variant pg conn_id st = (Return tt, st') ->
  in_pools conn_id (db st') = true
  /\ initialize variant pg conn_id st' = (Return tt, st').
Proof.
  intros H.
  assert (Ht : truthy conn_id = true).
  { revert H. unfold initialize, initialize_begin. destruct (truthy conn_id); [done|].
    cbn [negb]. mstep. discriminate. }
  assert (Hin : in_pools conn_id (db st') = true).
  { revert H. unfold initialize, initialize_begin, get_connection_string. rewrite Ht.
    cbn [negb]. mstep.
    destruct (in_pools conn_id (db st)) eqn:Hin; cbn [negb]; [by intros [= <-]|].
    destruct (py_in conn_id (_connection_map (db st))) as [[|]|e0]; cbn [negb];
      try discriminate.
    destruct (py_getitem (_connection_map (db st)) conn_id) as [conn_str|e0];
      [|discriminate].
    unfold initialize_finish, create_pool, store_pool. mstep. cbn [fst snd].
    destruct (connect_error pg conn_str); [discriminate|]. intros [= <-].
    destruct conn_id as [k|]; [|discriminate]. cbn [fmt in_pools db _pools].
    apply bool_decide_eq_true_2. rewrite lookup_insert_eq. eauto. }
  split; [exact Hin|].
  unfold initialize, initialize_begin. rewrite Ht. cbn [negb]. mstep. by rewrite Hin.
Qed.

Lemma initialize_again_changes_nothing_witness :
  initialize GuMCP pg_up (Some "db1") loaded_state = (Return tt, open_state)
  /\ in_pools (Some "db1") (db open_state) = true
  /\ initialize GuMCP pg_up (Some "db1") open_state = (Return tt, open_state).
Proof.
  assert (H : initialize GuMCP pg_up (Some "db1") loaded_state = (Return tt, open_state))
    by (vm_compute; reflexivity).
  split; [exact H|].
  exact (initialize_again_changes_nothing GuMCP pg_up (Some "db1") loaded_state open_state H).
Defined.

(** ** The snapshot and its hash *)

Lemma resume_config variant pg t st :
  _connection_map (db (snd (resume variant pg t st))) = _connection_map (db st)
  /\ _last_config_hash (db (snd (resume variant pg t st))) = _last_config_hash (db st).
Proof.
  assert (Hcheck : forall conn_id s, snd (checkout conn_id s) = s).
  { intros conn_id s. unfold checkout, pool_of, acquire. mstep.
    destruct conn_id as [k|]; [|reflexivity].
    destruct (_pools (db s) !! k) as [h|]; [|reflexivity]. cbn [snd].
    destruct (pools_made s !! h) as [p|]; [|reflexivity]. by destruct (closed p). }
  assert (Hbegin : forall conn_id s, snd (initialize_begin variant conn_id s) = s).
  { intros conn_id s. unfold initialize_begin, get_connection_string. mstep.
    destruct (negb (truthy conn_id)); [reflexivity|].
    destruct (negb (in_pools conn_id (db s))); [|reflexivity].
    destruct (py_in conn_id (_connection_map (db s))) as [[|]|e]; cbn [negb];
      try reflexivity.
    by destruct (py_getitem (_connection_map (db s)) conn_id). }
  destruct t as [conn_id|conn_id pending|outcome]; cbn [resume].
  - destruct (negb (in_pools conn_id (db st))).
    + pose proof (Hbegin conn_id st) as Hb.
      destruct (initialize_begin variant conn_id st) as [[[pending|]|e] st1];
        cbn [snd] in *; subst st1; try done.
      pose proof (Hcheck conn_id st) as Hc.
      destruct (checkout conn_id st) as [r st2]. cbn [snd] in *. by subst.
    + pose proof (Hcheck conn_id st) as Hc.
      destruct (checkout conn_id st) as [r st2]. cbn [snd] in *. by subst.
  - unfold bind at 1. unfold initialize_finish, create_pool, store_pool. mstep.
    destruct (connect_error pg (snd pending)); cbn [fst snd]; [done|].
    match goal with |- context [checkout conn_id ?s] =>
      pose proof (Hcheck conn_id s) as Hc; destruct (checkout conn_id s) as [r st2] end.
    cbn [snd] in *. by subst.
  - done.
Qed.

(** X6. In every state the process can reach, callers overlapping or not,
    the stored hash is the hash of the stored connection map: a reload that
    is skipped because the hash is unchanged skips a document with the hash
    of the one already held. *)
Theorem stored_hash_is_hash_of_snapshot (pg : Backend) (st : State) :
  reachable pg st -> snapshot_hashed st.
Proof.
  induction 1 as [|st ev Hst IH]; [reflexivity|].
  assert (Hkeep : forall s,
            _connection_map (db s) = _connection_map (db st)
            /\ _last_config_hash (db s) = _last_config_hash (db st) ->
            snapshot_hashed s).
  { intros s [Hc Hh]. unfold snapshot_hashed. by rewrite Hc, Hh. }
  set (P := fun s : State =>
              _connection_map (db s) = _connection_map (db st)
              /\ _last_config_hash (db s) = _last_config_hash (db st)).
  assert (P_initialize : forall s k conn_str,
            _pools (db s) !! k = None -> P s -> P (after_initialize k conn_str s)) by done.
  assert (P_close_one : forall s k h,
            _pools (db s) !! k = Some h -> P s -> P (after_close_one k h s)) by done.
  assert (P_trace : forall s t,
            P s -> P {| db := db s; pools_made := pools_made s; trace := t |}) by done.
  assert (P_close_failed : forall s k h e,
            _pools (db s) !! k = Some h -> close_fails pg h s = Some e ->
            P s -> P (after_close_failed h s)) by done.
  destruct ev as [source|conn_id|conn_id|conn_id|server name arguments|caller];
    cbn [perform].
  - unfold _refresh_iteration, _reload_config_if_changed.
    destruct source as [|e|content]; try exact IH.
    mstep.
    destruct (bool_decide (Some (_hash_config content) = _last_config_hash (db st)));
      [exact IH|reflexivity].
  - apply Hkeep. by apply (whole_initialize P P_initialize pg GuMCP conn_id st).
  - apply Hkeep.
    apply (whole_get_connection P P_initialize pg GuMCP conn_id ret); [|done].
    intros conn s Hs. exact Hs.
  - apply Hkeep. by apply (whole_close P P_close_one pg P_close_failed conn_id st).
  - apply Hkeep.
    by apply (whole_handle_call_tool P P_initialize P_close_one P_trace pg P_close_failed
                server name arguments st).
  - apply Hkeep. apply resume_config.
Qed.

Lemma stored_hash_is_hash_of_snapshot_witness :
  snapshot_hashed
    (perform pg_up (Refresh (Loaded (JDict sample_items)))
       (perform pg_up (Acquire (Some "db1"))
          (perform pg_up (Refresh (Loaded sample_config)) initial_state))).
Proof.
  apply (stored_hash_is_hash_of_snapshot pg_up).
  do 3 apply reachable_step. apply reachable_start.
Defined.

(** ** Tool calls *)

Lemma failure_is_object msg : json_object_text (failure msg).
Proof. eexists. reflexivity. Qed.

Lemma success_is_object : json_object_text success.
Proof. eexists. reflexivity. Qed.

Lemma answers_object_ret content :
  json_object_text content -> answers_object (ret (Some [content])).
Proof. intros H st. exact H. Qed.

Lemma answers_object_handled m handler :
  answers_object m -> (forall e, answers_object (handler e)) ->
  answers_object (try_except m handler).
Proof.
  intros Hm Hh st. unfold try_except. specialize (Hm st).
  destruct (m st) as [[r|e] st1]; cbn [fst] in *; [exact Hm|apply Hh].
Qed.

Lemma answers_object_bind {A} (m : M A) k :
  (forall a, answers_object (k a)) -> answers_object (bind m k).
Proof.
  intros Hk st. unfold bind. destruct (m st) as [[a|e] st1]; [apply Hk|exact I].
Qed.

(** the hook of [json.dumps] is [safe_json_serializer]: a value the encoder
    does not know is encoded as what the hook returns for it *)
Lemma serialize_default (obj : pyobj) :
  match obj with
  | PyNone | PyBool _ | PyInt _ | PyStr _ | PyList _ | PyDict _ => True
  | _ =>
      serialize obj
      = match safe_json_serializer obj with
        | Return replacement => serialize replacement
        | Raise e => Raise e
        end
  end.
Proof. destruct obj as [| | | | | | | | | | | | |class_name [attributes|]]; reflexivity. Qed.

Lemma serialize_pair k1 v1 k2 v2 :
  serialize (PyDict [(k1, v1); (k2, v2)])
  = match serialize v1 with
    | Return j1 =>
        match serialize v2 with
        | Return j2 => Return (JDict [(k1, j1); (k2, j2)])
        | Raise e => Raise e
        end
    | Raise e => Raise e
    end.
Proof.
  change (serialize (PyDict [(k1, v1); (k2, v2)]))
    with (match match serialize v1 with
                | Return j =>
                    match match serialize v2 with
                          | Return j0 => Return [(k2, j0)]
                          | Raise e => Raise e
                          end with
                    | Return js => Return ((k1, j) :: js)
                    | Raise e => Raise e
                    end
                | Raise e => Raise e
                end with
          | Return js => Return (JDict js)
          | Raise e => Raise e
          end).
  destruct (serialize v1); [|reflexivity]. by destruct (serialize v2).
Qed.

(** what the [try] of [execute_query] comes to *)
Lemma execute_query_try pg conn query params st :
  try_except
    (records <- run_on pg conn query params ;;
     text <- dumps_rows (PyDict [("success", PyBool true); ("data", PyList records)]) ;;
     ret [mkTextContent "text" text])
    (fun e =>
       text <- dumps_rows (PyDict [("success", PyBool false);
                                   ("error", PyStr (exn_str e))]) ;;
       ret [mkTextContent "text" text]) st
  = match run_on pg conn query params st with
    | (Return records, st') => (Return [rows_text records], st')
    | (Raise e, st') => (Return [error_text e], st')
    end.
Proof.
  unfold try_except, dumps_rows. unfold bind at 1.
  destruct (run_on pg conn query params st) as [[records|e] st']; [|reflexivity].
  unfold bind, lift, ret, rows_text. rewrite serialize_pair.
  change (serialize (PyBool true)) with (Return (JBool true)). cbn beta iota.
  by destruct (serialize (PyList records)).
Qed.

Lemma error_text_is_object e : json_object_text (error_text e).
Proof. eexists. reflexivity. Qed.

Lemma rows_text_is_object records : json_object_text (rows_text records).
Proof.
  unfold rows_text. destruct (serialize (PyList records)); [|apply error_text_is_object].
  eexists. reflexivity.
Qed.

Lemma execute_query_object pg query conn_id params :
  answers_object (r <- execute_query pg query conn_id params ;; ret (Some r)).
Proof.
  intros st. unfold bind at 1. unfold execute_query. rewrite get_connection_body.
  destruct (get_connection GuMCP pg conn_id ret st) as [[conn|e] st1]; [|exact I].
  unfold bind at 1. destruct (run_on pg conn _ [] st1) as [[rows|e] st2]; [|exact I].
  rewrite execute_query_try.
  destruct (run_on pg conn query (params_or_empty params) st2) as [[records|e] st3];
    cbn [fst]; [apply rows_text_is_object|apply error_text_is_object].
Qed.

Lemma pg_disconnect_object pg server : answers_object (pg_disconnect pg server).
Proof.
  unfold pg_disconnect.
  apply answers_object_handled; [|intros e; apply answers_object_ret, failure_is_object].
  apply answers_object_bind. intros st0.
  destruct (negb (in_pools (conn_id server) (db st0)));
    [apply answers_object_ret, failure_is_object|].
  apply answers_object_handled; [|intros e; apply answers_object_ret, failure_is_object].
  repeat (apply answers_object_bind; intros ?).
  apply answers_object_ret, success_is_object.
Qed.

(** what the [except Exception] around the tools makes of a tool that
    answers with an object *)
Lemma handled_object m st :
  answers_object m ->
  exists content,
    fst (try_except m (fun e => ret (Some [failure (exn_str e)])) st)
    = Return (Some [content])
    /\ json_object_text content.
Proof.
  intros Hm. unfold try_except. specialize (Hm st).
  destruct (m st) as [[r|e] st1]; cbn [fst] in *.
  - destruct r as [[|content []]|]; try done. by exists content.
  - eexists. split; [reflexivity|apply failure_is_object].
Qed.

(** a tool of the list other than [pg_connect] answers with one object *)
Lemma listed_tool_object pg server name arguments st :
  truthy (conn_id server) = true ->
  In name tool_names -> name <> "pg_connect" ->
  exists content,
    fst (handle_call_tool pg server name arguments st) = Return (Some [content])
    /\ json_object_text content.
Proof.
  intros Ht Hin Hne. unfold handle_call_tool. rewrite Ht. cbn [negb].
  pose proof (execute_query_object pg) as Hq.
  cbn in Hin.
  destruct Hin as [<-|[<-|[<-|[<-|[<-|[<-|[<-|[<-|[<-|[]]]]]]]]]]; [done|..];
    cbn [String.eqb Ascii.eqb Bool.eqb]; apply handled_object.
  - apply pg_disconnect_object.
  - destruct (negb (has_key "query" (default [] arguments)));
      [apply answers_object_ret, failure_is_object|].
    apply answers_object_bind. intros query. apply Hq.
  - apply Hq.
  - apply Hq.
  - apply Hq.
  - apply answers_object_bind. intros t. apply Hq.
  - apply answers_object_bind. intros t. apply Hq.
  - apply answers_object_bind. intros t. apply Hq.
Qed.

Lemma unlisted_tool pg server name arguments st :
  truthy (conn_id server) = true ->
  ~ In name tool_names ->
  handle_call_tool pg server name arguments st = (Return (Some [unknown_tool name]), st).
Proof.
  intros Ht Hin. unfold handle_call_tool. rewrite Ht. cbn [negb].
  repeat match goal with
  | |- context [String.eqb name ?s] =>
      rewrite (proj2 (String.eqb_neq name s))
        by (intros ->; apply Hin; cbn; tauto)
  end.
  reflexivity.
Qed.

Lemma pg_connect_call pg server arguments st :
  truthy (conn_id server) = true ->
  handle_call_tool pg server "pg_connect" arguments st
  = try_except (pg_connect pg server) (fun e => ret (Some [failure (exn_str e)])) st.
Proof. intros Ht. unfold handle_call_tool. rewrite Ht. reflexivity. Qed.

(** the outcomes of [pg_connect] *)
Lemma pg_connect_run pg server st :
  pg_connect pg server st
  = match py_in (conn_id server) (_connection_map (db st)) with
    | Raise e => (Return (Some [failure (exn_str e)]), st)
    | Return false => (Return (Some [failure "Unknown connection ID"]), st)
    | Return true =>
        if in_pools (conn_id server) (db st) then (Return None, st)
        else
          match initialize GuMCP pg (conn_id server) st with
          | (Return _, st') => (Return (Some [success]), st')
          | (Raise _, st') =>
              (Return (Some [failure "Failed to initialize pool for connection ID"]), st')
          end
    end.
Proof.
  unfold pg_connect, try_except. mstep.
  destruct (py_in (conn_id server) (_connection_map (db st))) as [[|]|e]; cbn [negb];
    try reflexivity.
  destruct (in_pools (conn_id server) (db st)); cbn [negb]; [reflexivity|].
  by destruct (initialize GuMCP pg (conn_id server) st) as [[[]|e] st1].
Qed.

(** X7. A tool call never raises: every exception ends as an answer. It
    answers with content in every case but one, [pg_connect] for an ID that
    is configured and already has a pool, where it returns [None]. *)
Theorem handle_call_tool_always_returns (pg : Backend) (server : Server) (name : string)
    (arguments : option (list (string * json))) (st : State) :
  exists r,
    fst (handle_call_tool pg server name arguments st) = Return r
    /\ (r = None <->
        name = "pg_connect"
        /\ truthy (conn_id server) = true
        /\ py_in (conn_id server) (_connection_map (db st)) = Return true
        /\ in_pools (conn_id server) (db st) = true).
Proof.
  destruct (truthy (conn_id server)) eqn:Ht.
  2:{ unfold handle_call_tool. rewrite Ht. eexists. split; [reflexivity|].
      split; [done|]. by intros (_ & ? & _). }
  destruct (string_dec name "pg_connect") as [->|Hne].
  - rewrite pg_connect_call by done. unfold try_except. rewrite pg_connect_run.
    destruct (py_in (conn_id server) (_connection_map (db st))) as [[|]|e].
    + destruct (in_pools (conn_id server) (db st)).
      * eexists. split; [reflexivity|]. done.
      * destruct (initialize GuMCP pg (conn_id server) st) as [[[]|e] st1];
          eexists; (split; [reflexivity|]); split; try done; by intros (_ & _ & _ & ?).
    + eexists. split; [reflexivity|]. split; [done|]. by intros (_ & _ & ? & _).
    + eexists. split; [reflexivity|]. split; [done|]. by intros (_ & _ & ? & _).
  - destruct (in_dec string_dec name tool_names) as [Hin|Hin].
    + destruct (listed_tool_object pg server name arguments st Ht Hin Hne)
        as (content & -> & _).
      eexists. split; [reflexivity|]. split; [done|]. by intros (? & _).
    + rewrite unlisted_tool by done.
      eexists. split; [reflexivity|]. split; [done|]. by intros (? & _).
Qed.

(** X8. [handle_call_tool] knows exactly the tools that [handle_list_tools]
    offers: a name of the list is never answered with [Unknown tool], any
    other name is, and then nothing has changed. *)
Theorem unknown_tool_iff_not_listed (pg : Backend) (server : Server) (name : string)
    (arguments : option (list (string * json))) (st : State) :
  truthy (conn_id server) = true ->
  (~ In name tool_names <->
   handle_call_tool pg server name arguments st = (Return (Some [unknown_tool name]), st)).
Proof.
  intros Ht. split; [by apply unlisted_tool|].
  intros Hrun Hin.
  destruct (string_dec name "pg_connect") as [->|Hne].
  - revert Hrun. rewrite pg_connect_call by done. unfold try_except. rewrite pg_connect_run.
    destruct (py_in (conn_id server) (_connection_map (db st))) as [[|]|e]; try done.
    destruct (in_pools (conn_id server) (db st)); [done|].
    by destruct (initialize GuMCP pg (conn_id server) st) as [[[]|e] st1].
  - destruct (listed_tool_object pg server name arguments st Ht Hin Hne)
      as (content & Hc & rest & Hobj).
    rewrite Hrun in Hc. cbn [fst] in Hc. injection Hc as <-. discriminate Hobj.
Qed.

Lemma unknown_tool_iff_not_listed_witness :
  truthy (Some "db1") = true
  /\ (~ In "pg_drop" tool_names <->
      handle_call_tool pg_up (mkServer "alice" (Some "db1")) "pg_drop" None loaded_state
      = (Return (Some [unknown_tool "pg_drop"]), loaded_state)).
Proof.
  split; [reflexivity|].
  exact (unknown_tool_iff_not_listed pg_up (mkServer "alice" (Some "db1")) "pg_drop" None
           loaded_state eq_refl).
Defined.

(** what [initialize] does for an ID without a pool *)
Lemma initialize_run variant pg conn_id st :
  truthy conn_id = true -> in_pools conn_id (db st) = false ->
  initialize variant pg conn_id st
  = match py_in conn_id (_connection_map (db st)) with
    | Raise e => (Raise e, st)
    | Return false => (Raise (ValueError (unknown_connection_message variant conn_id)), st)
    | Return true =>
        match py_getitem (_connection_map (db st)) conn_id with
        | Raise e => (Raise e, st)
        | Return conn_str =>
            match connect_error pg conn_str with
            | Some e => (Raise e, st)
            | None => (Return tt, after_initialize (fmt conn_id) conn_str st)
            end
        end
    end.
Proof.
  intros Ht Hin. unfold initialize, initialize_begin, get_connection_string.
  rewrite Ht. cbn [negb]. mstep. rewrite Hin. cbn [negb].
  destruct (py_in conn_id (_connection_map (db st))) as [[|]|e]; cbn [negb]; try reflexivity.
  destruct (py_getitem (_connection_map (db st)) conn_id) as [conn_str|e]; [|reflexivity].
  unfold initialize_finish, create_pool, store_pool. mstep. cbn [fst snd].
  destruct (connect_error pg conn_str); reflexivity.
Qed.

(** X9. [pg_connect] answers [success] exactly when it has made the pool of
    its ID: the ID is configured, had no pool, and the server accepted the
    connections. Whatever else it answers, nothing has changed. *)
Theorem pg_connect_success_means_new_pool (pg : Backend) (server : Server)
    (arguments : option (list (string * json))) (st st' : State)
    (r : option (list TextContent)) :
  truthy (conn_id server) = true ->
  handle_call_tool pg server "pg_connect" arguments st = (Return r, st') ->
  (r = Some [success]
   /\ in_pools (conn_id server) (db st) = false
   /\ exists conn_str,
        py_getitem (_connection_map (db st)) (conn_id server) = Return conn_str
        /\ connect_error pg conn_str = None
        /\ st' = after_initialize (fmt (conn_id server)) conn_str st)
  \/ (r <> Some [success] /\ st' = st).
Proof.
  intros Ht. rewrite pg_connect_call by done. unfold try_except. rewrite pg_connect_run.
  destruct (py_in (conn_id server) (_connection_map (db st))) as [[|]|e] eqn:Hin;
    try (intros [= <- <-]; by right).
  destruct (in_pools (conn_id server) (db st)) eqn:Hp; [intros [= <- <-]; by right|].
  rewrite initialize_run, Hin by done.
  destruct (py_getitem (_connection_map (db st)) (conn_id server)) as [conn_str|e];
    [|intros [= <- <-]; by right].
  destruct (connect_error pg conn_str) eqn:Hc; [intros [= <- <-]; by right|].
  intros [= <- <-]. left. split; [done|]. split; [done|]. by exists conn_str.
Qed.

Lemma pg_connect_success_means_new_pool_witness :
  truthy (Some "db1") = true
  /\ handle_call_tool pg_up (mkServer "alice" (Some "db1")) "pg_connect" None loaded_state
     = (Return (Some [success]), open_state)
  /\ ((Some [success] = Some [success]
       /\ in_pools (Some "db1") (db loaded_state) = false
       /\ exists conn_str,
            py_getitem (_connection_map (db loaded_state)) (Some "db1") = Return conn_str
            /\ connect_error pg_up conn_str = None
            /\ open_state = after_initialize "db1" conn_str loaded_state)
      \/ (Some [success] <> Some [success] /\ open_state = loaded_state)).
Proof.
  assert (H : handle_call_tool pg_up (mkServer "alice" (Some "db1")) "pg_connect" None
                loaded_state = (Return (Some [success]), open_state))
    by (vm_compute; reflexivity).
  split; [reflexivity|]. split; [exact H|].
  exact (pg_connect_success_means_new_pool pg_up (mkServer "alice" (Some "db1")) None
           loaded_state open_state (Some [success]) eq_refl H).
Defined.

(** X10. [pg_disconnect] leaves the state that [Database.close] of the same
    ID leaves, however the two end. It answers [Unknown connection ID] when
    the ID has no pool, [success] when the close returns, and [Error
    disconnecting connection] when [pool.close()] raises; the pool is then
    closed and keeps its entry. *)
Theorem pg_disconnect_is_close (pg : Backend) (server : Server)
    (arguments : option (list (string * json))) (st : State) :
  truthy (conn_id server) = true ->
  handle_call_tool pg server "pg_disconnect" arguments st
  = (Return (Some [if negb (in_pools (conn_id server) (db st))
                   then failure "Unknown connection ID"
                   else
                     match fst (close pg (conn_id server) st) with
                     | Return _ => success
                     | Raise _ => failure "Error disconnecting connection"
                     end]),
     snd (close pg (conn_id server) st)).
Proof.
  intros Ht. unfold handle_call_tool. rewrite Ht. cbn [negb String.eqb Ascii.eqb Bool.eqb].
  unfold pg_disconnect, try_except. mstep.
  destruct (in_pools (conn_id server) (db st)) eqn:Hin; cbn [negb].
  - destruct (conn_id server) as [k|]; [|discriminate]. cbn [fmt].
    unfold in_pools in Hin. apply bool_decide_eq_true_1 in Hin as [h Hh].
    rewrite (close_is_close_one pg st k h Ht Hh), (close_one_run pg k h st Hh).
    unfold pool_of, del_pool. mstep. rewrite Hh. cbn beta iota.
    rewrite close_pool_run. destruct (close_fails pg h st); [reflexivity|].
    cbn [after_close_failed db fst snd]. rewrite Hh. reflexivity.
  - unfold close. rewrite Ht. mstep. by rewrite Hin.
Qed.

Lemma pg_disconnect_is_close_witness :
  truthy (Some "db1") = true
  /\ handle_call_tool pg_up (mkServer "alice" (Some "db1")) "pg_disconnect" None open_state
     = (Return (Some [success]), snd (close pg_up (Some "db1") open_state)).
Proof.
  split; [reflexivity|].
  exact (pg_disconnect_is_close pg_up (mkServer "alice" (Some "db1")) None open_state eq_refl).
Defined.

(** X11. A call that lacks an argument its input schema requires is
    answered with an error and changes nothing: no pool is made and no
    statement is sent. This holds for every tool of the list but
    [pg_list_table_metadata]. The error text of a missing [table_name] is
    the quoted key alone. *)
Theorem missing_required_argument (pg : Backend) (server : Server) (tool : Tool)
    (key : string) (arguments : option (list (string * json))) (st : State) :
  truthy (conn_id server) = true ->
  In tool handle_list_tools ->
  name tool <> "pg_list_table_metadata" ->
  In key (required tool) ->
  lookup_key key (default [] arguments) = None ->
  handle_call_tool pg server (name tool) arguments st
  = (Return (Some [failure (if String.eqb key "query"
                            then "SQL(postgreSQL) query is required"
                            else repr_str key)]),
     st).
Proof.
  intros Ht Hin Hne Hkey Hnone. unfold handle_call_tool. rewrite Ht. cbn [negb].
  assert (Hhas : has_key key (default [] arguments) = false).
  { clear -Hnone. induction (default [] arguments) as [|[k v] l IH]; [done|].
    cbn in *. destruct (String.eqb k key); [done|]. by apply IH. }
  cbn in Hin.
  destruct Hin as [<-|[<-|[<-|[<-|[<-|[<-|[<-|[<-|[<-|[]]]]]]]]]];
    cbn in Hkey; try done;
    destruct Hkey as [<-|[]]; cbn [name String.eqb Ascii.eqb Bool.eqb].
  - by rewrite Hhas.
  - unfold try_except, getitem. mstep. by rewrite Hnone.
  - unfold try_except, getitem. mstep. by rewrite Hnone.
  - unfold try_except, getitem. mstep. by rewrite Hnone.
Qed.

Lemma missing_required_argument_witness :
  truthy (Some "db1") = true
  /\ handle_call_tool pg_up (mkServer "alice" (Some "db1")) "pg_count_table_rows"
       (Some [("schema", JStr "public")]) open_state
     = (Return (Some [failure "'table_name'"]), open_state).
Proof.
  split; [reflexivity|].
  refine (missing_required_argument pg_up (mkServer "alice" (Some "db1"))
            (nth 7 handle_list_tools (mkTool EmptyString EmptyString JNull)) "table_name"
            (Some [("schema", JStr "public")]) open_state eq_refl _ _ _ eq_refl).
  - cbn. tauto.
  - discriminate.
  - cbn. tauto.
Defined.

(** ** Tokens and the middleware *)

(** what a token that [verify_jwt_token] accepts looks like *)
Lemma check_exp_passed (claims : list (string * json)) (now : Z) :
  PyJWT.check_exp claims now = None ->
  forall value, lookup_key "exp" claims = Some value ->
                exists exp, py_int value = IntValue exp /\ now < exp * 1000000.
Proof.
  unfold PyJWT.check_exp, PyJWT.int_claim. intros H value Hv. rewrite Hv in H.
  destruct (py_int value) as [exp| |msg]; try discriminate.
  destruct (Z.leb_spec (exp * 1000000) now); [discriminate|]. eauto.
Qed.

Lemma verify_jwt_token_sound secret token now payload :
  verify_jwt_token secret token now = Return payload ->
  token = PyJWT.Compact (Some "HS256") (JDict payload)
            (PyJWT.Hmac secret (PyJWT.signing_input "HS256" (JDict payload)))
  /\ has_key "user_id" payload = true
  /\ PyJWT.check_exp payload now = None.
Proof.
  unfold verify_jwt_token, PyJWT.decode.
  destruct token as [raw|[a|] body sig]; try discriminate.
  cbn [existsb]. rewrite orb_false_r.
  destruct (String.eqb_spec a "HS256") as [->|]; [|discriminate]. cbn [negb].
  destruct (PyJWT.verify_signature sig secret (PyJWT.signing_input "HS256" body)) eqn:Hsig;
    [|discriminate].
  cbn [negb]. destruct body as [| | | | |claims]; try discriminate.
  unfold PyJWT.validate_claims. cbn [PyJWT.first_failure].
  destruct (PyJWT.check_iat claims now) as [[]|]; [discriminate..|].
  destruct (PyJWT.check_nbf claims now) as [[]|]; [discriminate..|].
  destruct (PyJWT.check_exp claims now) as [[]|] eqn:Hexp; [discriminate..|].
  destruct (PyJWT.check_aud claims) as [[]|]; [discriminate..|].
  destruct (PyJWT.check_sub claims) as [[]|]; [discriminate..|].
  destruct (PyJWT.check_jti claims) as [[]|]; [discriminate..|].
  destruct (has_key "user_id" claims) eqn:Hu; [|discriminate]. cbn [negb].
  intros [= <-]. split; [|done].
  destruct sig as [k m|raw]; [|discriminate]. cbn in Hsig.
  apply andb_true_iff in Hsig as [Hk Hm].
  apply String.eqb_eq in Hk, Hm. by subst.
Qed.

(** X12. [dispatch] hands a request on in two cases only: the path is one
    of the four open paths, and then no user is set; or the header carries
    an HS256 token signed with the server's secret that has not expired
    (it has no [exp], or [int] of its [exp] is a second still to come), and
    then [request.state.user_id] is the [user_id] of that token. *)
Theorem dispatch_forwards_only_verified (secret : string) (request : Request) (now : Z)
    (user : option json) :
  dispatch secret request now = CallNext user ->
  (In (path request) open_paths /\ user = None)
  \/ (~ In (path request) open_paths
      /\ exists payload u,
           authorization request
           = Some (Bearer (PyJWT.Compact (Some "HS256") (JDict payload)
                             (PyJWT.Hmac secret
                                (PyJWT.signing_input "HS256" (JDict payload)))))
           /\ user = Some u
           /\ lookup_key "user_id" payload = Some u
           /\ PyJWT.check_exp payload now = None
           /\ forall value, lookup_key "exp" payload = Some value ->
                            exists exp, py_int value = IntValue exp /\ now < exp * 1000000).
Proof.
  unfold dispatch.
  destruct (existsb (String.eqb (path request)) open_paths) eqn:Hopen.
  - intros [= <-]. left. split; [|done].
    apply existsb_exists in Hopen as (p & Hp & Heq).
    apply String.eqb_eq in Heq. by subst.
  - intros H. right. split.
    { intros Hin. apply not_true_iff_false in Hopen. apply Hopen.
      apply existsb_exists. exists (path request). split; [done|apply String.eqb_refl]. }
    destruct (authorization request) as [[token|raw]|]; try discriminate.
    destruct (verify_jwt_token secret token now) as [payload|e] eqn:Hv.
    + destruct (lookup_key "user_id" payload) as [u|] eqn:Hu; [|discriminate].
      injection H as <-.
      destruct (verify_jwt_token_sound _ _ _ _ Hv) as (-> & _ & Hexp).
      exists payload, u. repeat split; try done. by apply check_exp_passed.
    + by destruct e.
Qed.

Lemma dispatch_forwards_only_verified_witness :
  dispatch "s3cret"
    (mkRequest "/pg/alice:db1" (Some (Bearer (issued_token "s3cret" "alice" 0)))) 1000000
  = CallNext (Some (JStr "alice"))
  /\ ((In "/pg/alice:db1" open_paths /\ Some (JStr "alice") = None)
      \/ (~ In "/pg/alice:db1" open_paths
          /\ exists payload u,
               Some (Bearer (issued_token "s3cret" "alice" 0))
               = Some (Bearer (PyJWT.Compact (Some "HS256") (JDict payload)
                                 (PyJWT.Hmac "s3cret"
                                    (PyJWT.signing_input "HS256" (JDict payload)))))
               /\ Some (JStr "alice") = Some u
               /\ lookup_key "user_id" payload = Some u
               /\ PyJWT.check_exp payload 1000000 = None
               /\ forall value, lookup_key "exp" payload = Some value ->
                                exists exp, py_int value = IntValue exp
                                            /\ 1000000 < exp * 1000000)).
Proof.
  assert (H : dispatch "s3cret"
                (mkRequest "/pg/alice:db1" (Some (Bearer (issued_token "s3cret" "alice" 0))))
                1000000 = CallNext (Some (JStr "alice"))) by (vm_compute; reflexivity).
  split; [exact H|].
  exact (dispatch_forwards_only_verified "s3cret"
           (mkRequest "/pg/alice:db1" (Some (Bearer (issued_token "s3cret" "alice" 0))))
           1000000 (Some (JStr "alice")) H).
Defined.

(** ** Session keys *)

Lemma str_split_no_separator sep s :
  is_substring (String sep EmptyString) s = false -> str_split sep s = [s].
Proof.
  induction s as [|c rest IH]; [done|].
  cbn [is_substring is_prefix str_split]. rewrite andb_true_r.
  intros [Hc Hrest]%orb_false_iff.
  rewrite Ascii.eqb_sym, Hc. by rewrite IH.
Qed.

Lemma str_split_not_nil sep s : str_split sep s <> [].
Proof.
  destruct s as [|c rest]; [done|]. cbn [str_split].
  destruct (Ascii.eqb c sep); [done|]. by destruct (str_split sep rest).
Qed.

Lemma str_split_app sep a b :
  str_split sep (a ++ String sep b) = (str_split sep a ++ str_split sep b)%list.
Proof.
  induction a as [|c rest IH]; simpl.
  - by rewrite Ascii.eqb_refl.
  - destruct (Ascii.eqb c sep); [by rewrite IH|].
    rewrite IH. pose proof (str_split_not_nil sep rest).
    by destruct (str_split sep rest).
Qed.

Lemma is_substring_app sep a b :
  is_substring (String sep EmptyString) (a ++ String sep b) = true.
Proof.
  induction a as [|c rest IH]; simpl.
  - by rewrite Ascii.eqb_refl.
  - rewrite IH. apply orb_true_r.
Qed.

Lemma last_app_cons {A} (l : list A) x l' d :
  List.last (l ++ x :: l') d = List.last (x :: l') d.
Proof.
  induction l as [|y l IH]; [done|]. cbn [app]. rewrite <-IH.
  cbn [List.last]. by destruct (l ++ x :: l')%list eqn:E; [destruct l|].
Qed.

(** X13. The connection ID of a session is the text after the last colon of
    the session-key segment of the URL, whatever stands before it: a server
    instance made for the session gets that ID and the user of the token,
    and the two are not compared. *)
Theorem conn_id_comes_from_the_path (server_name before conn user : string) (gw : Gateway) :
  is_substring ":" conn = false ->
  user_server_instances gw !! (server_name ++ ":" ++ before ++ ":" ++ conn) = None ->
  snd (fst (handle_sse_enter server_name (before ++ ":" ++ conn) user gw))
  = {| user_id := user; conn_id := Some conn |}.
Proof.
  intros Hconn Hnew. unfold handle_sse_enter. rewrite Hnew. cbn [fst snd].
  unfold create_server, conn_id_of. f_equal.
  change (before ++ ":" ++ conn) with (before ++ String ":" conn).
  rewrite is_substring_app, str_split_app.
  rewrite (str_split_no_separator _ conn) by done.
  by rewrite last_app_cons.
Qed.

Lemma conn_id_comes_from_the_path_witness :
  is_substring ":" "db1" = false
  /\ user_server_instances Gateway_init !! ("pg" ++ ":" ++ "alice" ++ ":" ++ "db1") = None
  /\ snd (fst (handle_sse_enter "pg" ("alice" ++ ":" ++ "db1") "bob" Gateway_init))
     = {| user_id := "bob"; conn_id := Some "db1" |}.
Proof.
  split; [reflexivity|]. split; [reflexivity|].
  exact (conn_id_comes_from_the_path "pg" "alice" "db1" "bob" Gateway_init eq_refl eq_refl).
Defined.

Lemma append_empty (s : string) : s ++ EmptyString = s.
Proof.
  induction s as [|c s IH]; [done|].
  change (String c (s ++ EmptyString) = String c s). by rewrite IH.
Qed.

Lemma endswith_app s suffix :
  endswith s suffix = true -> exists a, s = a ++ suffix.
Proof.
  induction s as [|c rest IH]; cbn [endswith].
  - rewrite orb_false_r. intros ->%String.eqb_eq. by exists EmptyString.
  - intros [->%String.eqb_eq|H]%orb_true_iff; [by exists EmptyString|].
    destruct (IH H) as [a ->]. by exists (String c a).
Qed.

Lemma conn_id_of_falsy key :
  is_substring ":" key = false \/ endswith key ":" = true ->
  truthy (conn_id_of key) = false.
Proof.
  unfold conn_id_of. intros [->|H]; [reflexivity|].
  destruct (endswith_app _ _ H) as [a ->].
  rewrite is_substring_app, str_split_app. simpl str_split.
  by rewrite last_app_cons.
Qed.

(** X14. A session whose key has no colon, or nothing after its last colon,
    has no usable connection ID: every tool call on the server instance made
    for it is refused, and nothing is touched. *)
Theorem session_without_conn_id_runs_no_tool (pg : Backend)
    (server_name key user name : string) (gw : Gateway)
    (arguments : option (list (string * json))) (st : State) :
  user_server_instances gw !! (server_name ++ ":" ++ key) = None ->
  is_substring ":" key = false \/ endswith key ":" = true ->
  handle_call_tool pg (snd (fst (handle_sse_enter server_name key user gw))) name arguments st
  = (Return (Some [failure "conn_id is required for database operations"]), st).
Proof.
  intros Hnew Hkey. unfold handle_sse_enter. rewrite Hnew. cbn [fst snd].
  unfold handle_call_tool, create_server. cbn [conn_id].
  by rewrite (conn_id_of_falsy key Hkey).
Qed.

Lemma session_without_conn_id_runs_no_tool_witness :
  user_server_instances Gateway_init !! ("pg" ++ ":" ++ "alice") = None
  /\ (is_substring ":" "alice" = false \/ endswith "alice" ":" = true)
  /\ handle_call_tool pg_up (snd (fst (handle_sse_enter "pg" "alice" "alice" Gateway_init)))
       "pg_list_schemas" None loaded_state
     = (Return (Some [failure "conn_id is required for database operations"]), loaded_state).
Proof.
  split; [reflexivity|]. split; [left; reflexivity|].
  exact (session_without_conn_id_runs_no_tool pg_up "pg" "alice" "alice" "pg_list_schemas"
           Gateway_init None loaded_state eq_refl (or_introl eq_refl)).
Defined.

Lemma session_key_of_route server_name key rest :
  is_substring "/" server_name = false ->
  is_substring "/" key = false ->
  rest = EmptyString \/ is_prefix "/" rest = true ->
  SessionTimeoutMiddleware.session_key_of ("/" ++ server_name ++ "/" ++ key ++ rest)
  = Some (server_name ++ ":" ++ key).
Proof.
  intros Hs Hk Hrest. unfold SessionTimeoutMiddleware.session_key_of.
  change ("/" ++ server_name ++ "/" ++ key ++ rest)
    with (String "/" (server_name ++ String "/" (key ++ rest))).
  cbn [str_split]. rewrite Ascii.eqb_refl, str_split_app.
  rewrite (str_split_no_separator _ server_name) by done.
  destruct Hrest as [->|Hrest].
  - rewrite append_empty. by rewrite (str_split_no_separator _ key).
  - destruct rest as [|c rest]; [done|]. cbn [is_prefix] in Hrest.
    apply andb_true_iff in Hrest as [Hc _]. apply Ascii.eqb_eq in Hc. subst c.
    rewrite str_split_app. by rewrite (str_split_no_separator _ key).
Qed.

Lemma route_is_not_open server_name key rest :
  is_substring "/" server_name = false ->
  existsb (String.eqb ("/" ++ server_name ++ "/" ++ key ++ rest)) open_paths = false.
Proof.
  intros Hs. apply not_true_iff_false. intros (p & Hp & Heq%String.eqb_eq)%existsb_exists.
  apply (f_equal (fun s => length (str_split "/" s))) in Heq.
  change ("/" ++ server_name ++ "/" ++ key ++ rest)
    with (String "/" (server_name ++ String "/" (key ++ rest))) in Heq.
  cbn [str_split] in Heq. rewrite Ascii.eqb_refl, str_split_app in Heq.
  rewrite (str_split_no_separator _ server_name) in Heq by done.
  pose proof (str_split_not_nil "/" (key ++ rest)) as Hne.
  destruct (str_split "/" (key ++ rest)) as [|x l]; [done|].
  cbn in Hp. destruct Hp as [<-|[<-|[<-|[<-|[]]]]]; vm_compute in Heq; lia.
Qed.

Lemma url_path_plain (s : string) : url_plain s = true -> url_path s = s.
Proof.
  unfold url_path. induction s as [|c s IH]; [done|].
  cbn [url_plain remove_unsafe].
  intros [[Hu Hc]%andb_true_iff Hs]%andb_true_iff.
  apply negb_true_iff in Hu, Hc. rewrite Hu. cbn [before_query_and_fragment].
  rewrite Hc. by rewrite IH.
Qed.

Lemma url_plain_app (a b : string) : url_plain (a ++ b) = url_plain a && url_plain b.
Proof.
  induction a as [|c a IH]; [done|].
  change (String c a ++ b) with (String c (a ++ b)). cbn [url_plain].
  rewrite IH. by rewrite andb_assoc.
Qed.

(** on a route whose parts have none of the characters [urlsplit] treats
    in a way of its own, [request.url.path] is the path the route matched *)
Lemma url_path_of_route (server_name key rest : string) :
  url_plain server_name = true -> url_plain key = true -> url_plain rest = true ->
  url_path ("/" ++ server_name ++ "/" ++ key ++ rest)
  = "/" ++ server_name ++ "/" ++ key ++ rest.
Proof.
  intros Hs Hk Hr. apply url_path_plain.
  change ("/" ++ server_name ++ "/" ++ key ++ rest)
    with (String "/" (server_name ++ String "/" (key ++ rest))).
  cbn [url_plain]. rewrite url_plain_app. cbn [url_plain]. rewrite url_plain_app.
  rewrite Hs, Hk, Hr. reflexivity.
Qed.

(** A session key with a [?] in it: the route hands [handle_sse] the whole
    key, the middleware reads the path up to the [?], and the timestamp
    goes under another key than the transport. *)
Example question_mark_splits_the_session :
  exists transport server_instance gw',
    SessionTimeoutMiddleware.dispatch "GET" (url_path "/pg/alice?x:db1") 5 6
      (handle_sse_enter "pg" "alice?x:db1" "alice") Gateway_init
    = Some ((transport, server_instance), gw')
    /\ user_session_transports gw' !! "pg:alice?x:db1" = Some transport
    /\ session_timestamps gw' !! "pg:alice?x:db1" = None
    /\ session_timestamps gw' !! "pg:alice" = Some 5.
Proof. vm_compute. eexists _, _, _. repeat split; reflexivity. Qed.

(** X15. The timeout middleware and [handle_sse] agree on the key of a
    session whose server name and key have no [?], [#], tab, carriage
    return or line feed (the middleware reads [request.url.path], the
    handler the path parameter of the route, which is not empty and has no
    [/]). After a request for
    [/server/key] has passed through both, the transport and the timestamp
    of the session are stored under the same key [server:key], and the
    cleanup task has been started. *)
Theorem opened_session_is_stamped (server_name key user : string) (now later : Z)
    (gw : Gateway) :
  is_substring "/" server_name = false ->
  is_substring "/" key = false ->
  key <> EmptyString ->
  url_plain server_name = true ->
  url_plain key = true ->
  exists transport server_instance gw',
    SessionTimeoutMiddleware.dispatch "GET" (url_path ("/" ++ server_name ++ "/" ++ key))
      now later (handle_sse_enter server_name key user) gw
    = Some ((transport, server_instance), gw')
    /\ user_session_transports gw' !! (server_name ++ ":" ++ key) = Some transport
    /\ user_server_instances gw' !! (server_name ++ ":" ++ key) = Some server_instance
    /\ session_timestamps gw' !! (server_name ++ ":" ++ key) = Some now
    /\ cleanup_task_started gw' = true.
Proof.
  intros Hs Hk _ Hps Hpk. unfold SessionTimeoutMiddleware.dispatch.
  pose proof (route_is_not_open server_name key EmptyString Hs) as Hopen.
  pose proof (session_key_of_route server_name key EmptyString Hs Hk (or_introl eq_refl)) as Hkey.
  pose proof (url_path_of_route server_name key EmptyString Hps Hpk eq_refl) as Hurl.
  rewrite append_empty in Hopen, Hkey, Hurl. rewrite Hurl, Hopen, Hkey.
  destruct (handle_sse_enter server_name key user
              (SessionTimeoutMiddleware.stamp (server_name ++ ":" ++ key) now gw))
    as [[transport server_instance] gw1] eqn:Henter.
  assert (H1 : user_session_transports gw1 !! (server_name ++ ":" ++ key) = Some transport
               /\ user_server_instances gw1 !! (server_name ++ ":" ++ key)
                  = Some server_instance
               /\ session_timestamps gw1 !! (server_name ++ ":" ++ key) = Some now).
  { revert Henter. unfold handle_sse_enter.
    destruct (user_server_instances _ !! (server_name ++ ":" ++ key)) eqn:Hi;
      intros [= <- <- <-]; cbn; rewrite ?lookup_insert_eq; done. }
  destruct H1 as (Ht & Hi & Hts).
  cbn [String.eqb Ascii.eqb Bool.eqb andb].
  eexists transport, server_instance, _. split; [reflexivity|].
  destruct (truthy (Some (server_name ++ ":" ++ key)) && negb (cleanup_task_started gw1))
    eqn:Hstart; cbn; repeat split; try done.
  apply andb_false_iff in Hstart as [Hstart|Hstart].
  - exfalso. revert Hstart. clear. destruct server_name; discriminate.
  - by destruct (cleanup_task_started gw1).
Qed.

Lemma opened_session_is_stamped_witness :
  is_substring "/" "pg" = false
  /\ is_substring "/" "alice:db1" = false
  /\ "alice:db1" <> EmptyString
  /\ url_plain "pg" = true
  /\ url_plain "alice:db1" = true
  /\ exists transport server_instance gw',
       SessionTimeoutMiddleware.dispatch "GET" (url_path ("/" ++ "pg" ++ "/" ++ "alice:db1")) 5 6
         (handle_sse_enter "pg" "alice:db1" "alice") Gateway_init
       = Some ((transport, server_instance), gw')
       /\ user_session_transports gw' !! ("pg" ++ ":" ++ "alice:db1") = Some transport
       /\ user_server_instances gw' !! ("pg" ++ ":" ++ "alice:db1") = Some server_instance
       /\ session_timestamps gw' !! ("pg" ++ ":" ++ "alice:db1") = Some 5
       /\ cleanup_task_started gw' = true.
Proof.
  assert (Hne : "alice:db1" <> EmptyString) by discriminate.
  split; [reflexivity|]. split; [reflexivity|]. split; [exact Hne|].
  split; [reflexivity|]. split; [reflexivity|].
  exact (opened_session_is_stamped "pg" "alice:db1" "alice" 5 6 Gateway_init
           eq_refl eq_refl Hne eq_refl eq_refl).
Defined.

(** X16. The timeout middleware cannot serve a protected path of fewer
    than three parts, such as [/favicon.ico]: taking the session part
    raises [IndexError] before the request is handed on. Every other
    request is handed on. *)
Theorem short_path_raises_index_error {R} (method route : string) (now later : Z)
    (call_next : Gateway -> R * Gateway) (gw : Gateway) :
  SessionTimeoutMiddleware.dispatch method route now later call_next gw = None
  <-> existsb (String.eqb route) open_paths = false
      /\ (length (str_split "/" route) < 3)%nat.
Proof.
  unfold SessionTimeoutMiddleware.dispatch, SessionTimeoutMiddleware.session_key_of.
  destruct (existsb (String.eqb route) open_paths); [by split; [|intros [? _]]|].
  destruct (str_split "/" route) as [|p0 [|p1 [|p2 rest]]]; cbn [lookup list_lookup length].
  - split; [intros _; split; [done|lia]|done].
  - split; [intros _; split; [done|lia]|done].
  - split; [intros _; split; [done|lia]|done].
  - destruct (call_next _) as [response gw1]. split; [done|]. intros [_ ?]. lia.
Qed.

(** ** The cleanup task *)

Lemma cleanup_key_other key k gw :
  k <> key ->
  user_session_transports (SessionTimeoutMiddleware.cleanup_key key gw) !! k
  = user_session_transports gw !! k
  /\ user_server_instances (SessionTimeoutMiddleware.cleanup_key key gw) !! k
     = user_server_instances gw !! k
  /\ session_timestamps (SessionTimeoutMiddleware.cleanup_key key gw) !! k
     = session_timestamps gw !! k.
Proof.
  intros Hne. unfold SessionTimeoutMiddleware.cleanup_key.
  case_bool_decide; [|done]. cbn. by rewrite !lookup_delete_ne.
Qed.

Lemma cleanup_keys_other keys : forall gw k,
  k ∉ keys ->
  let gw' := foldl (fun acc key => SessionTimeoutMiddleware.cleanup_key key acc) gw keys in
  user_session_transports gw' !! k = user_session_transports gw !! k
  /\ user_server_instances gw' !! k = user_server_instances gw !! k
  /\ session_timestamps gw' !! k = session_timestamps gw !! k.
Proof.
  induction keys as [|key keys IH]; intros gw k Hk; [done|]. cbn [foldl].
  apply not_elem_of_cons in Hk as [Hne Hk].
  destruct (IH (SessionTimeoutMiddleware.cleanup_key key gw) k Hk) as (-> & -> & ->).
  by apply cleanup_key_other.
Qed.

Lemma cleanup_keys_here keys : forall gw k,
  NoDup keys -> k ∈ keys ->
  let gw' := foldl (fun acc key => SessionTimeoutMiddleware.cleanup_key key acc) gw keys in
  if bool_decide (is_Some (user_session_transports gw !! k)) then
    user_session_transports gw' !! k = None
    /\ user_server_instances gw' !! k = None
    /\ session_timestamps gw' !! k = None
  else
    user_session_transports gw' !! k = user_session_transports gw !! k
    /\ user_server_instances gw' !! k = user_server_instances gw !! k
    /\ session_timestamps gw' !! k = session_timestamps gw !! k.
Proof.
  induction keys as [|key keys IH]; intros gw k Hnd Hk; [by inv Hk|]. cbn [foldl].
  apply NoDup_cons in Hnd as [Hkey Hnd].
  apply elem_of_cons in Hk as [->|Hk].
  - destruct (cleanup_keys_other keys (SessionTimeoutMiddleware.cleanup_key key gw) key Hkey)
      as (-> & -> & ->).
    unfold SessionTimeoutMiddleware.cleanup_key.
    case_bool_decide; [|done]. cbn. by rewrite !lookup_delete_eq.
  - assert (k <> key) as Hne by (intros ->; contradiction).
    specialize (IH (SessionTimeoutMiddleware.cleanup_key key gw) k Hnd Hk).
    destruct (cleanup_key_other key k gw Hne) as (Ht & Hi & Hts).
    cbn zeta in IH. rewrite Ht, Hi, Hts in IH. exact IH.
Qed.

Lemma expired_sessions_elem timeout_seconds current_time gw k :
  k ∈ SessionTimeoutMiddleware.expired_sessions timeout_seconds current_time gw
  <-> exists ts, session_timestamps gw !! k = Some ts
                 /\ current_time - ts > timeout_seconds * 1000000.
Proof.
  unfold SessionTimeoutMiddleware.expired_sessions.
  rewrite list_elem_of_fmap. split.
  - intros ([k' ts] & -> & [Hexp Hin]%list_elem_of_filter).
    apply elem_of_map_to_list in Hin. apply bool_decide_unpack in Hexp. by exists ts.
  - intros (ts & Hts & Hexp). exists (k, ts). split; [done|].
    apply list_elem_of_filter. split; [by apply bool_decide_pack|].
    by apply elem_of_map_to_list.
Qed.

Lemma expired_sessions_NoDup timeout_seconds current_time gw :
  NoDup (SessionTimeoutMiddleware.expired_sessions timeout_seconds current_time gw).
Proof.
  unfold SessionTimeoutMiddleware.expired_sessions.
  pose proof (NoDup_fst_map_to_list (session_timestamps gw)) as Hnd.
  induction (map_to_list (session_timestamps gw)) as [|[k ts] l IH]; [constructor|].
  cbn [map] in Hnd. apply NoDup_cons in Hnd as [Hk Hnd].
  rewrite filter_cons. case_decide; [|by apply IH].
  cbn [map]. apply NoDup_cons. split; [|by apply IH].
  intros ([k' ts'] & Heq & [_ Hin]%list_elem_of_filter)%list_elem_of_fmap.
  cbn in Heq. subst k'. apply Hk. apply list_elem_of_fmap. by exists (k, ts').
Qed.

(** X17. One round of the cleanup task removes exactly the idle sessions,
    those that have a transport and a timestamp older than the timeout:
    their transport, server instance and timestamp go. Every other entry
    stays as it was; so the timestamp of a session that has no transport
    any more is never removed, however old it is. *)
Theorem cleanup_round_removes_idle_sessions (timeout_seconds current_time : Z)
    (gw : Gateway) (key : string) :
  let gw' := SessionTimeoutMiddleware.cleanup_round timeout_seconds current_time gw in
  if idle_session timeout_seconds current_time gw key then
    user_session_transports gw' !! key = None
    /\ user_server_instances gw' !! key = None
    /\ session_timestamps gw' !! key = None
  else
    user_session_transports gw' !! key = user_session_transports gw !! key
    /\ user_server_instances gw' !! key = user_server_instances gw !! key
    /\ session_timestamps gw' !! key = session_timestamps gw !! key.
Proof.
  cbn zeta. unfold SessionTimeoutMiddleware.cleanup_round, idle_session.
  set (keys := SessionTimeoutMiddleware.expired_sessions timeout_seconds current_time gw).
  destruct (decide (key ∈ keys)) as [Hin|Hout].
  - pose proof (cleanup_keys_here keys gw key
                  (expired_sessions_NoDup timeout_seconds current_time gw) Hin) as H.
    apply expired_sessions_elem in Hin as (ts & Hts & Hexp).
    cbn zeta in H. rewrite Hts in H |- *.
    rewrite (bool_decide_eq_true_2 (current_time - ts > _)) by done.
    rewrite andb_true_r. exact H.
  - assert (Hidle : bool_decide (is_Some (user_session_transports gw !! key))
                    && match session_timestamps gw !! key with
                       | Some ts => bool_decide (current_time - ts > timeout_seconds * 1000000)
                       | None => false
                       end = false).
    { destruct (session_timestamps gw !! key) as [ts|] eqn:Hts; [|apply andb_false_r].
      rewrite (bool_decide_eq_false_2 (current_time - ts > _)); [apply andb_false_r|].
      intros Hexp. destruct Hout. apply expired_sessions_elem. by exists ts. }
    rewrite Hidle. apply (cleanup_keys_other keys gw key Hout).
Qed.

Lemma endswith_append a suffix : endswith (a ++ suffix) suffix = true.
Proof.
  induction a as [|c a IH].
  - change (EmptyString ++ suffix) with suffix.
    destruct suffix; cbn [endswith]; by rewrite String.eqb_refl.
  - change (String c a ++ suffix) with (String c (a ++ suffix)).
    cbn [endswith]. rewrite IH. apply orb_true_r.
Qed.

(** X18. Posting a message keeps a session alive, for a server name and a
    key without [?], [#], tab, carriage return or line feed (with one of
    these [request.url.path] is not the path the route matched), the key
    being a path parameter, not empty and without [/]. After a
    POST to [/server/key/messages/] has passed the timeout middleware, the
    session is stamped with the clock reading taken after the message was
    handled, and a cleanup round within the timeout of that reading leaves
    its transport, server instance and timestamp in place. *)
Theorem posted_message_defers_cleanup (server_name key : string)
    (now later timeout_seconds current_time : Z) (gw : Gateway) :
  is_substring "/" server_name = false ->
  is_substring "/" key = false ->
  key <> EmptyString ->
  url_plain server_name = true ->
  url_plain key = true ->
  current_time - later <= timeout_seconds * 1000000 ->
  exists gw',
    SessionTimeoutMiddleware.dispatch "POST"
      (url_path ("/" ++ server_name ++ "/" ++ key ++ "/messages/")) now later
      (fun g => (handle_message server_name key g, g)) gw
    = Some (handle_message server_name key gw, gw')
    /\ session_timestamps gw' !! (server_name ++ ":" ++ key) = Some later
    /\ let gw'' := SessionTimeoutMiddleware.cleanup_round timeout_seconds current_time gw' in
       user_session_transports gw'' !! (server_name ++ ":" ++ key)
       = user_session_transports gw !! (server_name ++ ":" ++ key)
       /\ user_server_instances gw'' !! (server_name ++ ":" ++ key)
          = user_server_instances gw !! (server_name ++ ":" ++ key)
       /\ session_timestamps gw'' !! (server_name ++ ":" ++ key) = Some later.
Proof.
  intros Hs Hk _ Hps Hpk Hfresh. unfold SessionTimeoutMiddleware.dispatch.
  rewrite (url_path_of_route server_name key "/messages/" Hps Hpk eq_refl).
  rewrite (route_is_not_open server_name key "/messages/" Hs).
  rewrite (session_key_of_route server_name key "/messages/" Hs Hk (or_intror eq_refl)).
  assert (Hend : endswith ("/" ++ server_name ++ "/" ++ key ++ "/messages/") "/messages/"
                 = true).
  { change ("/" ++ server_name ++ "/" ++ key ++ "/messages/")
      with (String "/" (server_name ++ String "/" (key ++ "/messages/"))).
    cbn [endswith]. apply orb_true_iff. right.
    pose proof (endswith_append (server_name ++ String "/" key) "/messages/") as H.
    assert (E : forall a b c : string, (a ++ b) ++ c = a ++ b ++ c).
    { clear. intros a b c. induction a as [|x a IH]; [done|].
      change (String x ((a ++ b) ++ c) = String x (a ++ b ++ c)). by rewrite IH. }
    rewrite E in H. exact H. }
  rewrite Hend. cbn [String.eqb Ascii.eqb Bool.eqb andb].
  unfold handle_message at 2.
  cbn [SessionTimeoutMiddleware.stamp user_session_transports session_timestamps].
  rewrite lookup_insert_eq. rewrite bool_decide_eq_true_2 by eauto.
  eexists. split; [reflexivity|].
  match goal with |- session_timestamps ?g !! _ = _ /\ _ => set (gw' := g) end.
  assert (Hts : session_timestamps gw' !! (server_name ++ ":" ++ key) = Some later).
  { subst gw'.
    destruct (truthy (Some (server_name ++ ":" ++ key)) && negb (cleanup_task_started _));
      cbn; by rewrite lookup_insert_eq. }
  assert (Hsame : user_session_transports gw' = user_session_transports gw
                  /\ user_server_instances gw' = user_server_instances gw).
  { subst gw'.
    by destruct (truthy (Some (server_name ++ ":" ++ key)) && negb (cleanup_task_started _)). }
  destruct Hsame as [Ht Hi]. split; [exact Hts|]. cbn zeta.
  unfold SessionTimeoutMiddleware.cleanup_round.
  destruct (cleanup_keys_other
              (SessionTimeoutMiddleware.expired_sessions timeout_seconds current_time gw')
              gw' (server_name ++ ":" ++ key)) as (-> & -> & ->).
  { intros (ts & Hts' & Hexp)%expired_sessions_elem. rewrite Hts in Hts'.
    injection Hts' as <-. lia. }
  by rewrite Ht, Hi.
Qed.

Lemma posted_message_defers_cleanup_witness :
  is_substring "/" "pg" = false
  /\ is_substring "/" "alice:db1" = false
  /\ "alice:db1" <> EmptyString
  /\ url_plain "pg" = true
  /\ url_plain "alice:db1" = true
  /\ 3600000007 - 7 <= 3600 * 1000000
  /\ exists gw',
       SessionTimeoutMiddleware.dispatch "POST"
         (url_path ("/" ++ "pg" ++ "/" ++ "alice:db1" ++ "/messages/")) 5 7
         (fun g => (handle_message "pg" "alice:db1" g, g)) Gateway_init
       = Some (handle_message "pg" "alice:db1" Gateway_init, gw')
       /\ session_timestamps gw' !! ("pg" ++ ":" ++ "alice:db1") = Some 7
       /\ let gw'' := SessionTimeoutMiddleware.cleanup_round 3600 3600000007 gw' in
          user_session_transports gw'' !! ("pg" ++ ":" ++ "alice:db1")
          = user_session_transports Gateway_init !! ("pg" ++ ":" ++ "alice:db1")
          /\ user_server_instances gw'' !! ("pg" ++ ":" ++ "alice:db1")
             = user_server_instances Gateway_init !! ("pg" ++ ":" ++ "alice:db1")
          /\ session_timestamps gw'' !! ("pg" ++ ":" ++ "alice:db1") = Some 7.
Proof.
  assert (H : 3600000007 - 7 <= 3600 * 1000000) by (vm_compute; discriminate).
  assert (Hne : "alice:db1" <> EmptyString) by discriminate.
  split; [reflexivity|]. split; [reflexivity|]. split; [exact Hne|].
  split; [reflexivity|]. split; [reflexivity|]. split; [exact H|].
  exact (posted_message_defers_cleanup "pg" "alice:db1" 5 7 3600 3600000007 Gateway_init
           eq_refl eq_refl Hne eq_refl eq_refl H).
Defined.

(** ** Connections that come and go *)

Lemma gauge_value_inc label gauge :
  gauge_value (inc label gauge) label = gauge_value gauge label + 1.
Proof. unfold gauge_value at 1, inc. by rewrite lookup_insert_eq. Qed.

Lemma gauge_value_dec label gauge :
  gauge_value (dec label gauge) label = gauge_value gauge label - 1.
Proof. unfold gauge_value at 1, dec. by rewrite lookup_insert_eq. Qed.

Lemma connect_and_leave_gauge server_name key user gw :
  gauge_value (active_connections (connect_and_leave server_name key user gw)) server_name
  = gauge_value (active_connections gw) server_name
    - match user_server_instances gw !! (server_name ++ ":" ++ key) with
      | Some _ => 1
      | None => 0
      end
  /\ is_Some (user_server_instances (connect_and_leave server_name key user gw)
              !! (server_name ++ ":" ++ key)).
Proof.
  unfold connect_and_leave, handle_sse_enter, handle_sse_exit.
  destruct (user_server_instances gw !! (server_name ++ ":" ++ key)) as [i|] eqn:Hi;
    cbn [snd user_session_transports]; rewrite lookup_insert_eq;
    rewrite bool_decide_eq_true_2 by eauto;
    cbn [active_connections user_server_instances].
  - rewrite gauge_value_dec. split; [lia|]. rewrite Hi. eauto.
  - rewrite gauge_value_dec, gauge_value_inc. split; [lia|].
    rewrite lookup_insert_eq. eauto.
Qed.

(** X19. The gauge of active connections is raised only when a session key
    is seen for the first time but lowered whenever a connection ends. When
    the client of a new session connects and leaves [n + 1] times, the
    gauge of the server ends [n] below where it started: each reconnection
    costs one. *)
Theorem gauge_loses_one_per_reconnection (server_name key user : string) (n : nat)
    (gw : Gateway) :
  user_server_instances gw !! (server_name ++ ":" ++ key) = None ->
  gauge_value
    (active_connections (Nat.iter (S n) (connect_and_leave server_name key user) gw))
    server_name
  = gauge_value (active_connections gw) server_name - Z.of_nat n.
Proof.
  intros Hnew.
  enough (H : gauge_value
                (active_connections
                   (Nat.iter (S n) (connect_and_leave server_name key user) gw))
                server_name
              = gauge_value (active_connections gw) server_name - Z.of_nat n
              /\ is_Some (user_server_instances
                            (Nat.iter (S n) (connect_and_leave server_name key user) gw)
                          !! (server_name ++ ":" ++ key))) by apply H.
  induction n as [|n [IHg IHi]].
  - change (Nat.iter 1 (connect_and_leave server_name key user) gw)
      with (connect_and_leave server_name key user gw).
    destruct (connect_and_leave_gauge server_name key user gw) as [Hg Hi].
    rewrite Hnew in Hg. split; [rewrite Hg; lia|exact Hi].
  - rewrite Nat.iter_succ.
    destruct (connect_and_leave_gauge server_name key user
                (Nat.iter (S n) (connect_and_leave server_name key user) gw)) as [Hg Hi].
    destruct IHi as [i Hknown]. rewrite Hknown in Hg.
    split; [rewrite Hg, IHg; lia|exact Hi].
Qed.

Lemma gauge_loses_one_per_reconnection_witness :
  user_server_instances Gateway_init !! ("pg" ++ ":" ++ "alice:db1") = None
  /\ gauge_value
       (active_connections
          (Nat.iter 3 (connect_and_leave "pg" "alice:db1" "alice") Gateway_init)) "pg"
     = gauge_value (active_connections Gateway_init) "pg" - Z.of_nat 2.
Proof.
  split; [reflexivity|].
  exact (gauge_loses_one_per_reconnection "pg" "alice:db1" "alice" 2 Gateway_init eq_refl).
Defined.

(** X20. Two connections on one session key share one registry slot. The
    second is served by the server instance made for the first, user
    included, and takes the slot over; when either of them ends, the slot
    is emptied, and messages posted to the one still open are answered 404. *)
Theorem connections_share_one_slot (server_name key user1 user2 : string) (gw : Gateway) :
  let first := handle_sse_enter server_name key user1 gw in
  let second := handle_sse_enter server_name key user2 (snd first) in
  snd (fst second) = snd (fst first)
  /\ fst (fst second) <> fst (fst first)
  /\ handle_message server_name key (snd second) = HandlePostMessage (fst (fst second))
  /\ handle_message server_name key (handle_sse_exit server_name key (snd second))
     = PlainResponse "Session not found or expired" 404.
Proof.
  cbn zeta.
  assert (H1 : forall u g,
            user_server_instances (snd (handle_sse_enter server_name key u g))
            !! (server_name ++ ":" ++ key)
            = Some (snd (fst (handle_sse_enter server_name key u g)))
            /\ user_session_transports (snd (handle_sse_enter server_name key u g))
               !! (server_name ++ ":" ++ key)
               = Some (fst (fst (handle_sse_enter server_name key u g)))
            /\ fst (fst (handle_sse_enter server_name key u g)) = transports_made g
            /\ transports_made (snd (handle_sse_enter server_name key u g))
               = S (transports_made g)).
  { intros u g. unfold handle_sse_enter.
    destruct (user_server_instances g !! (server_name ++ ":" ++ key)) eqn:Hi;
      cbn; rewrite ?lookup_insert_eq; done. }
  destruct (H1 user1 gw) as (Hi1 & Ht1 & Hn1 & Hm1).
  destruct (H1 user2 (snd (handle_sse_enter server_name key user1 gw)))
    as (Hi2 & Ht2 & Hn2 & Hm2).
  repeat split.
  - unfold handle_sse_enter at 1. by rewrite Hi1.
  - rewrite Hn2, Hm1, Hn1. lia.
  - unfold handle_message. by rewrite Ht2.
  - unfold handle_message, handle_sse_exit. rewrite Ht2.
    rewrite bool_decide_eq_true_2 by eauto. cbn. by rewrite lookup_delete_eq.
Qed.

(** ** The token endpoint *)

Lemma generate_jwt_token_value_run secret user_id now :
  generate_jwt_token_value secret user_id now
  = Return (PyJWT.Compact (Some "HS256")
              (JDict [("user_id", user_id); ("iat", JInt (PyJWT.timegm now));
                      ("exp", JInt (PyJWT.timegm (now + hours 24)))])
              (PyJWT.Hmac secret
                 (PyJWT.signing_input "HS256"
                    (JDict [("user_id", user_id); ("iat", JInt (PyJWT.timegm now));
                            ("exp", JInt (PyJWT.timegm (now + hours 24)))])))).
Proof. reflexivity. Qed.

(** X21. [/token] asks for no credential, and what it hands out opens the
    rest: the token issued for a non-empty string [user_id] is accepted by
    [JWTMiddleware.dispatch] on every protected path from the second it was
    issued until 24 hours later, and the request goes on as that user. *)
Theorem token_endpoint_token_is_accepted (secret user route : string)
    (body : list (string * json)) (header : option Authorization) (now t : Z) :
  lookup_key "user_id" body = Some (JStr user) ->
  user <> EmptyString ->
  existsb (String.eqb route) open_paths = false ->
  PyJWT.timegm now * 1000000 <= t < (PyJWT.timegm now + 24 * 3600) * 1000000 ->
  dispatch secret (mkRequest "/token" header) t = CallNext None
  /\ exists token,
       token_endpoint secret (Parsed (JDict body)) now = TokenIssued token
       /\ dispatch secret (mkRequest route (Some (Bearer token))) t
          = CallNext (Some (JStr user)).
Proof.
  intros Hbody Huser Hpath Ht. split; [reflexivity|].
  exists (issued_token secret user now). split.
  - unfold token_endpoint. rewrite Hbody.
    unfold default, from_option, id, truthy_value.
    apply String.eqb_neq in Huser. rewrite Huser. reflexivity.
  - unfold dispatch. cbn [path authorization]. rewrite Hpath, verify_issued.
    rewrite (proj2 (Z.ltb_ge _ _)) by lia.
    rewrite (proj2 (Z.leb_gt _ _)) by lia.
    reflexivity.
Qed.

Lemma token_endpoint_token_is_accepted_witness :
  lookup_key "user_id" [("user_id", JStr "alice")] = Some (JStr "alice")
  /\ "alice" <> EmptyString
  /\ existsb (String.eqb "/pg/alice:db1") open_paths = false
  /\ PyJWT.timegm 0 * 1000000 <= 5 < (PyJWT.timegm 0 + 24 * 3600) * 1000000
  /\ dispatch "s3cret" (mkRequest "/token" None) 5 = CallNext None
  /\ exists token,
       token_endpoint "s3cret" (Parsed (JDict [("user_id", JStr "alice")])) 0
       = TokenIssued token
       /\ dispatch "s3cret" (mkRequest "/pg/alice:db1" (Some (Bearer token))) 5
          = CallNext (Some (JStr "alice")).
Proof.
  assert (Hu : "alice" <> EmptyString) by discriminate.
  assert (Ht : PyJWT.timegm 0 * 1000000 <= 5 < (PyJWT.timegm 0 + 24 * 3600) * 1000000)
    by (vm_compute; split; [discriminate|reflexivity]).
  split; [reflexivity|]. split; [exact Hu|]. split; [reflexivity|]. split; [exact Ht|].
  exact (token_endpoint_token_is_accepted "s3cret" "alice" "/pg/alice:db1"
           [("user_id", JStr "alice")] None 0 5 eq_refl Hu eq_refl Ht).
Defined.

(** X22. What [token_endpoint] answers. A body that is not JSON gets
    status 400 with the decoder's message, a JSON body that is not an
    object status 500, an object whose [user_id] is missing or falsy status
    400 with ["user_id is required"]. For an object with a truthy
    [user_id], of whatever type, the answer is the token
    [generate_jwt_token] returns for that value, or status 400 with the
    text of the error it raises. So a token is issued only for an object
    body with a truthy [user_id]. *)
Theorem token_endpoint_answers (secret : string) (request_body : RequestBody) (now : Z) :
  (forall msg, request_body = NotJson msg ->
     token_endpoint secret request_body now = TokenError (JDict [("error", JStr msg)]) 400)
  /\ (forall body, request_body = Parsed body -> (forall items, body <> JDict items) ->
        token_endpoint secret request_body now
        = TokenError
            (JDict [("error",
                     JStr ("'" ++ type_name body ++ "' object has no attribute 'get'"))])
            500)
  /\ (forall items, request_body = Parsed (JDict items) ->
        truthy_value (default JNull (lookup_key "user_id" items)) = false ->
        token_endpoint secret request_body now
        = TokenError (JDict [("error", JStr "user_id is required")]) 400)
  /\ (forall items user_id, request_body = Parsed (JDict items) ->
        lookup_key "user_id" items = Some user_id ->
        truthy_value user_id = true ->
        token_endpoint secret request_body now
        = match generate_jwt_token_value secret user_id now with
          | Return jwt_token => TokenIssued jwt_token
          | Raise e => TokenError (JDict [("error", JStr (exn_str e))]) 400
          end)
  /\ (forall jwt_token, token_endpoint secret request_body now = TokenIssued jwt_token ->
        exists items user_id,
          request_body = Parsed (JDict items)
          /\ lookup_key "user_id" items = Some user_id
          /\ truthy_value user_id = true
          /\ generate_jwt_token_value secret user_id now = Return jwt_token).
Proof.
  repeat split.
  - by intros msg ->.
  - intros body -> Hb. destruct body as [| | | | |items]; try reflexivity.
    by destruct (Hb items).
  - intros items -> Hf. cbn [token_endpoint]. by rewrite Hf.
  - intros items user_id -> Hu Ht. cbn [token_endpoint]. rewrite Hu.
    unfold default, from_option, id. by rewrite Ht.
  - intros jwt_token. destruct request_body as [msg|body]; cbn [token_endpoint]; [done|].
    destruct body as [| | | | |items]; try done.
    destruct (lookup_key "user_id" items) as [v|] eqn:Hv; unfold default, from_option, id;
      [|done].
    destruct (truthy_value v) eqn:Hv'; cbn [negb]; [|done].
    destruct (generate_jwt_token_value secret v now) as [t|e] eqn:Hg; [|done].
    intros [= <-]. by exists items, v.
Qed.

(** ** The tools of the standalone server *)

(** X23. [connect] answers [success] only for an ID that is configured and
    has a pool when it returns, one it found or one it has just made. Any
    other answer has changed nothing. *)
Theorem connect_success_means_pool (pg : Backend) (conn_id : string) (st st' : State)
    (answer : json) :
  Tools.connect pg conn_id st = (Return answer, st') ->
  (answer = Tools.success
   /\ in_pools (Some conn_id) (db st') = true
   /\ py_in (Some conn_id) (_connection_map (db st')) = Return true
   /\ (st' = st
       \/ exists conn_str,
            in_pools (Some conn_id) (db st) = false
            /\ st' = after_initialize conn_id conn_str st))
  \/ (answer <> Tools.success /\ st' = st).
Proof.
  unfold Tools.connect. mstep.
  destruct (in_pools (Some conn_id) (db st)) eqn:Hin; cbn [negb].
  - destruct (py_in (Some conn_id) (_connection_map (db st))) as [[|]|e] eqn:Hp;
      try discriminate; intros [= <- <-].
    + left. eauto 6.
    + by right.
  - unfold try_except.
    destruct (truthy (Some conn_id)) eqn:Ht.
    2:{ unfold initialize, initialize_begin. rewrite Ht. cbn [negb]. mstep.
        intros [= <- <-]. by right. }
    rewrite initialize_run by done.
    destruct (py_in (Some conn_id) (_connection_map (db st))) as [[|]|e] eqn:Hp;
      try (intros [= <- <-]; by right).
    destruct (py_getitem (_connection_map (db st)) (Some conn_id)) as [conn_str|e];
      [|intros [= <- <-]; by right].
    destruct (connect_error pg conn_str); [intros [= <- <-]; by right|].
    mstep. cbn [after_initialize db _connection_map]. rewrite Hp.
    intros [= <- <-]. left. split; [done|]. split.
    { cbn. apply bool_decide_eq_true_2. rewrite lookup_insert_eq. eauto. }
    split; [exact Hp|]. right. by exists conn_str.
Qed.

Lemma connect_success_means_pool_witness :
  Tools.connect pg_up "db1" loaded_state = (Return Tools.success, open_state)
  /\ ((Tools.success = Tools.success
       /\ in_pools (Some "db1") (db open_state) = true
       /\ py_in (Some "db1") (_connection_map (db open_state)) = Return true
       /\ (open_state = loaded_state
           \/ exists conn_str,
                in_pools (Some "db1") (db loaded_state) = false
                /\ open_state = after_initialize "db1" conn_str loaded_state))
      \/ (Tools.success <> Tools.success /\ open_state = loaded_state)).
Proof.
  assert (H : Tools.connect pg_up "db1" loaded_state = (Return Tools.success, open_state))
    by (vm_compute; reflexivity).
  split; [exact H|].
  exact (connect_success_means_pool pg_up "db1" loaded_state open_state Tools.success H).
Defined.

(** X24. [disconnect] of a non-empty ID leaves the state that
    [Database.close] of that ID leaves, however the two end. It answers
    [Unknown connection ID] when the ID has no pool, [success] when the
    close returns, and the text of the exception when [pool.close()]
    raises; the pool is then closed and keeps its entry. *)
Theorem disconnect_is_close (pg : Backend) (conn_id : string) (st : State) :
  conn_id <> EmptyString ->
  Tools.disconnect pg conn_id st
  = (Return (if negb (in_pools (Some conn_id) (db st))
             then Tools.failure "Unknown connection ID"
             else
               match fst (close pg (Some conn_id) st) with
               | Return _ => Tools.success
               | Raise e => Tools.failure (exn_str e)
               end),
     snd (close pg (Some conn_id) st)).
Proof.
  intros Hne.
  assert (Ht : truthy (Some conn_id) = true).
  { unfold truthy. apply String.eqb_neq in Hne. by rewrite Hne. }
  unfold Tools.disconnect. mstep.
  destruct (in_pools (Some conn_id) (db st)) eqn:Hin; cbn [negb].
  - unfold in_pools in Hin. apply bool_decide_eq_true_1 in Hin as [h Hh].
    rewrite (close_is_close_one pg st conn_id h Ht Hh), (close_one_run pg conn_id h st Hh).
    unfold try_except, pool_of, del_pool. mstep. rewrite Hh. cbn beta iota.
    rewrite close_pool_run. destruct (close_fails pg h st); [reflexivity|].
    cbn [after_close_failed db fst snd]. rewrite Hh. reflexivity.
  - unfold close. rewrite Ht. mstep. by rewrite Hin.
Qed.

Lemma disconnect_is_close_witness :
  "db1" <> EmptyString
  /\ Tools.disconnect pg_up "db1" open_state
     = (Return Tools.success, snd (close pg_up (Some "db1") open_state)).
Proof.
  assert (Hne : "db1" <> EmptyString) by discriminate.
  split; [exact Hne|].
  exact (disconnect_is_close pg_up "db1" open_state Hne).
Defined.

Lemma get_connection_in_both_servers pg conn_id st :
  match get_connection Standalone pg conn_id ret st with
  | (Return conn, st') => get_connection GuMCP pg conn_id ret st = (Return conn, st')
  | (Raise e, st') =>
      exists e', get_connection GuMCP pg conn_id ret st = (Raise e', st')
                 /\ same_failure e e'
  end.
Proof.
  unfold get_connection. mstep.
  destruct (in_pools conn_id (db st)) eqn:Hin; cbn [negb].
  - destruct (pool_of conn_id st) as [[pool|e] st1]; [|exists e; split; [done|by left]].
    destruct (acquire pool st1) as [[conn|e] st2]; [done|exists e; split; [done|by left]].
  - destruct (truthy conn_id) eqn:Ht.
    2:{ unfold initialize, initialize_begin. rewrite Ht. cbn [negb]. mstep.
        eexists. split; [reflexivity|by left]. }
    rewrite !initialize_run by done.
    destruct (py_in conn_id (_connection_map (db st))) as [[|]|e].
    + destruct (py_getitem (_connection_map (db st)) conn_id) as [conn_str|e];
        [|exists e; split; [done|by left]].
      destruct (connect_error pg conn_str) as [e|]; [exists e; split; [done|by left]|].
      destruct (pool_of conn_id (after_initialize (fmt conn_id) conn_str st))
        as [[pool|e] st1]; [|exists e; split; [done|by left]].
      destruct (acquire pool st1) as [[conn|e] st2]; [done|exists e; split; [done|by left]].
    + eexists. split; [reflexivity|]. right. by exists conn_id.
    + exists e. split; [done|by left].
Qed.

Lemma standalone_execute_query_run pg query conn_id params st :
  Tools.execute_query pg query conn_id params st
  = match get_connection Standalone pg (Some conn_id) ret st with
    | (Return conn, st1) =>
        match run_on pg conn (JStr "SET TRANSACTION READ ONLY") [] st1 with
        | (Return _, st2) => run_on pg conn (JStr query) (params_or_empty params) st2
        | (Raise e, st2) => (Raise e, st2)
        end
    | (Raise e, st1) => (Raise e, st1)
    end.
Proof.
  unfold Tools.execute_query.
  rewrite (get_connection_body Standalone pg (Some conn_id)
             (fun conn => bind (run_on pg conn _ _) _)).
  destruct (get_connection Standalone pg (Some conn_id) ret st) as [[conn|e] st1];
    [|reflexivity].
  unfold bind.
  destruct (run_on pg conn (JStr "SET TRANSACTION READ ONLY") [] st1) as [[rows|e] st2];
    [|reflexivity].
  unfold try_except, raise.
  by destruct (run_on pg conn (JStr query) (params_or_empty params) st2) as [[records|e] st3].
Qed.

Lemma execute_query_run pg query conn_id params st :
  execute_query pg query conn_id params st
  = match get_connection GuMCP pg conn_id ret st with
    | (Return conn, st1) =>
        match run_on pg conn (JStr "SET TRANSACTION READ ONLY") [] st1 with
        | (Return _, st2) =>
            match run_on pg conn query (params_or_empty params) st2 with
            | (Return records, st3) => (Return [rows_text records], st3)
            | (Raise e, st3) => (Return [error_text e], st3)
            end
        | (Raise e, st2) => (Raise e, st2)
        end
    | (Raise e, st1) => (Raise e, st1)
    end.
Proof.
  unfold execute_query.
  rewrite (get_connection_body GuMCP pg conn_id (fun conn => bind (run_on pg conn _ _) _)).
  destruct (get_connection GuMCP pg conn_id ret st) as [[conn|e] st1]; [|reflexivity].
  unfold bind at 1.
  destruct (run_on pg conn (JStr "SET TRANSACTION READ ONLY") [] st1) as [[rows|e] st2];
    [|reflexivity].
  apply execute_query_try.
Qed.

(** X25. The two servers run a query the same way and leave the same
    state. Where the standalone [execute_query] returns rows, the one of
    [servers/pg/main.py] answers with those rows as text, or with the error
    of [safe_json_serializer] as text where a value of the rows is of a
    type it refuses. Where the standalone one raises, the other either
    raises the same exception (before the query was sent) or answers with
    the text of the exception (the query failed). *)
Theorem execute_query_in_both_servers (pg : Backend) (query conn_id : string)
    (params : option (list json)) (st : State) :
  match Tools.execute_query pg query conn_id params st with
  | (Return records, st') =>
      execute_query pg (JStr query) (Some conn_id) params st
      = (Return [rows_text records], st')
      /\ (forall class_name,
            serialize (PyList records) = Raise (not_serializable class_name) ->
            rows_text records = error_text (not_serializable class_name))
      /\ (forall data,
            serialize (PyList records) = Return data ->
            rows_text records
            = mkTextContent "text"
                (dumps (JDict [("success", JBool true); ("data", data)])
                   false (Some 2%nat)))
  | (Raise e, st') =>
      execute_query pg (JStr query) (Some conn_id) params st = (Return [error_text e], st')
      \/ exists e',
           execute_query pg (JStr query) (Some conn_id) params st = (Raise e', st')
           /\ same_failure e e'
  end.
Proof.
  rewrite standalone_execute_query_run, execute_query_run.
  pose proof (get_connection_in_both_servers pg (Some conn_id) st) as Hconn.
  destruct (get_connection Standalone pg (Some conn_id) ret st) as [[conn|e] st1].
  - rewrite Hconn.
    destruct (run_on pg conn (JStr "SET TRANSACTION READ ONLY") [] st1) as [[rows|e] st2].
    + destruct (run_on pg conn (JStr query) (params_or_empty params) st2)
        as [[records|e] st3]; [|by left].
      split; [reflexivity|]. unfold rows_text. by split; intros ? ->.
    + right. exists e. split; [done|by left].
  - destruct Hconn as (e' & -> & Hsame). right. by exists e'.
Qed.
